(** * CAPE dataset utilities ([dataset_utils.py]): a shallow embedding

    The Python module defines one class, [CAPE_utils], whose methods load
    per-frame archives, subtract two vertex arrays, and write meshes.  The
    embedding follows the source method by method:

    - [Py]      : Python exceptions and results, [os.path.join], [basename],
                  [dirname], [str.replace], [fnmatch], [sorted], slices;
    - [Numpy]   : n-dimensional arrays, numpy's broadcasting rule and the
                  elementwise operators the source and its properties use;
    - [OS]      : the file system, the module namespace and the console
                  the methods read and write, as a state threaded through
                  every statement;
    - [CAPE]    : the class [CAPE_utils] and the script entry point;
    - [Observe] : what the properties read off a run;
    - [Examples]: a small dataset tree on which the methods are run.

    Array elements are kept abstract behind the [Dtype] interface, with two
    instances: IEEE binary64 ([float64], the kernel's primitive floats) and
    wrap-around 64-bit integers ([int64]).  Arrays stored in dataset files
    are [float64] vertex data or integer tables.

    The file system is a map from path names to files and a set of
    directory names.  A name the world records stands for itself; any
    other name is resolved component by component, as the kernel does:
    through directories only, with [.], [..] and repeated or trailing
    separators.  Opening, listing, creating and writing fail as they do on
    a POSIX system without links: [FileNotFoundError],
    [NotADirectoryError], [IsADirectoryError], [FileExistsError].

    What is outside the model: the imports succeed ([psbody.mesh],
    [trimesh] and [vis_mesh_seq] are installed); the progress bar of [tqdm]
    prints nothing of interest; permissions, links and full disks; the
    directory part of a [glob] pattern has no wildcard in it and names a
    directory the world records; a file is recorded under the name it was
    written by, so two spellings of one path are two records. *)

From Stdlib Require Import ZArith Floats Lia Ascii String DecimalString DecimalNat.
From stdpp Require Import base option list gmap strings sorting.

Set Default Proof Using "Type".

(** ** Python exceptions and results *)

Module Py.

(** The exception classes the modelled code paths can raise. *)
Inductive exception : Type :=
| FileNotFoundError (path : string)
| KeyError (key : string)
| ValueError (msg : string)
| NameError (name : string)
| IndexError (msg : string)
| TypeError (msg : string)
| IsADirectoryError (path : string)
| NotADirectoryError (path : string)
| FileExistsError (path : string)
| BadZipFile
| UnpicklingError
| AssertionError
| EOFError.

(** [type(e).__name__] *)
Definition class_name (e : exception) : string :=
  match e with
  | FileNotFoundError _ => "FileNotFoundError"
  | KeyError _ => "KeyError"
  | ValueError _ => "ValueError"
  | NameError _ => "NameError"
  | IndexError _ => "IndexError"
  | TypeError _ => "TypeError"
  | IsADirectoryError _ => "IsADirectoryError"
  | NotADirectoryError _ => "NotADirectoryError"
  | FileExistsError _ => "FileExistsError"
  | BadZipFile => "BadZipFile"
  | UnpicklingError => "UnpicklingError"
  | AssertionError => "AssertionError"
  | EOFError => "EOFError"
  end.

(** A call either returns a value or raises. *)
Inductive result (A : Type) : Type :=
| Ok (a : A)
| Raise (e : exception).
Arguments Ok {A} a.
Arguments Raise {A} e.

#[export] Instance result_ret : MRet result := fun _ a => Ok a.
#[export] Instance result_bind : MBind result := fun _ _ k r =>
  match r with
  | Ok a => k a
  | Raise e => Raise e
  end.

(** *** Strings and paths *)

Definition sep : Ascii.ascii := "/"%char.
Definition nl : string := String (Ascii.ascii_of_nat 10) "".

Fixpoint endswith_sep (s : string) : bool :=
  match s with
  | EmptyString => false
  | String c EmptyString => Ascii.eqb c sep
  | String _ s' => endswith_sep s'
  end.

(** One step of [posixpath.join]: an absolute component restarts the path,
    otherwise it is appended after exactly one separator. *)
Definition join2 (path b : string) : string :=
  if String.prefix "/" b then b
  else if bool_decide (path = "") || endswith_sep path then path +:+ b
  else path +:+ "/" +:+ b.

(** [os.path.join(a, *p)] *)
Definition join (a : string) (p : list string) : string := foldl join2 a p.

(** The part of [p] after its last separator, [cur] being the part after
    the last separator seen so far. *)
Fixpoint after_last_sep (cur p : string) : string :=
  match p with
  | EmptyString => cur
  | String c p' =>
      if Ascii.eqb c sep then after_last_sep p' p' else after_last_sep cur p'
  end.

(** [os.path.basename(p)] *)
Definition basename (p : string) : string := after_last_sep p p.

Fixpoint contains_sep (s : string) : bool :=
  match s with
  | EmptyString => false
  | String c s' => Ascii.eqb c sep || contains_sep s'
  end.

(** [s.rstrip('/')] *)
Fixpoint rstrip_sep (s : string) : string :=
  match s with
  | EmptyString => EmptyString
  | String c s' =>
      match rstrip_sep s' with
      | EmptyString => if Ascii.eqb c sep then EmptyString else String c EmptyString
      | r => String c r
      end
  end.

(** [p[:p.rfind('/') + 1]] *)
Fixpoint upto_last_sep (p : string) : string :=
  match p with
  | EmptyString => EmptyString
  | String c p' =>
      if contains_sep p then String c (upto_last_sep p') else EmptyString
  end.

(** [os.path.dirname(p)]: the head up to the last separator, without its
    trailing separators unless it consists of separators only. *)
Definition dirname (p : string) : string :=
  let head := upto_last_sep p in
  match rstrip_sep head with
  | EmptyString => head
  | stripped => stripped
  end.

(** [p.split('/')], [cur] being the component read so far. *)
Fixpoint split_sep (cur p : string) : list string :=
  match p with
  | EmptyString => [cur]
  | String c p' =>
      if Ascii.eqb c sep then cur :: split_sep "" p'
      else split_sep (cur +:+ String c "") p'
  end.

(** [s.replace(old, new)] for a non-empty [old]: occurrences are replaced
    left to right without overlap; [skip] counts the characters of a
    replaced occurrence still to be dropped. *)
Fixpoint replace_from (old new : string) (skip : nat) (s : string) : string :=
  match s with
  | EmptyString => EmptyString
  | String c s' =>
      match skip with
      | S k => replace_from old new k s'
      | O =>
          if String.prefix old s
          then new +:+ replace_from old new (String.length old - 1) s'
          else String c (replace_from old new 0 s')
      end
  end.

Definition replace (old new s : string) : string := replace_from old new 0 s.

(** [str(i)] for a non-negative integer. *)
Definition str_of_nat (i : nat) : string := NilEmpty.string_of_uint (Nat.to_uint i).

(** ['{:0>2d}'.format(i)]: decimal, right-aligned in width 2, filled with
    the character 0. *)
Definition format_02d (i : nat) : string :=
  let s := str_of_nat i in
  String.concat "" (replicate (2 - String.length s) "0") +:+ s.

(** [fnmatch] for patterns made of literal characters, [?] and [*]. *)
Fixpoint fnmatch_chars (pat name : list Ascii.ascii) : bool :=
  match pat with
  | [] => match name with [] => true | _ => false end
  | c :: pat' =>
      if Ascii.eqb c "*" then
        (fix star (n : list Ascii.ascii) : bool :=
           fnmatch_chars pat' n
           || match n with [] => false | _ :: n' => star n' end) name
      else
        match name with
        | [] => false
        | d :: name' =>
            (Ascii.eqb c "?" || Ascii.eqb c d) && fnmatch_chars pat' name'
        end
  end.

Definition fnmatch (name pat : string) : bool :=
  fnmatch_chars (list_ascii_of_string pat) (list_ascii_of_string name).

(** [sorted(l)] on strings: by code points. *)
Definition str_le (x y : string) : Prop := String.leb x y = true.
#[export] Instance str_le_dec x y : Decision (str_le x y).
Proof. unfold str_le. apply _. Defined.

Definition sorted (l : list string) : list string := merge_sort str_le l.

(** [l[:n]] *)
Definition slice_to {A} (n : Z) (l : list A) : list A :=
  if (0 <=? n)%Z then take (Z.to_nat n) l
  else take (length l - Z.to_nat (- n)) l.

End Py.

Import Py.

(** ** numpy arrays *)

Module Numpy.

(** What numpy needs from an element type for the operators used here:
    [-], [+], unary [-], [==] and [np.isnan]. *)
Class Dtype (A : Type) : Type := {
  dt_sub : A -> A -> A;
  dt_add : A -> A -> A;
  dt_neg : A -> A;
  dt_eqb : A -> A -> bool;
  dt_isnan : A -> bool;
}.

(** [float64]: IEEE 754 binary64, the kernel's primitive floats. *)
#[export] Instance float64 : Dtype float := {
  dt_sub := PrimFloat.sub;
  dt_add := PrimFloat.add;
  dt_neg := PrimFloat.opp;
  dt_eqb := PrimFloat.eqb;
  dt_isnan := PrimFloat.is_nan;
}.

(** [int64]: two's complement, results wrap modulo 2^64. *)
Definition wrap64 (z : Z) : Z := ((z + 2 ^ 63) mod 2 ^ 64 - 2 ^ 63)%Z.
Definition in_int64 (z : Z) : Prop := (- 2 ^ 63 <= z < 2 ^ 63)%Z.

#[export] Instance int64 : Dtype Z := {
  dt_sub x y := wrap64 (x - y);
  dt_add x y := wrap64 (x + y);
  dt_neg x := wrap64 (- x);
  dt_eqb := Z.eqb;
  dt_isnan _ := false;
}.

(** An array: its shape and its elements in row-major (C) order. *)
Record ndarray (A : Type) : Type := NDArray {
  shape : list nat;
  data : list A;
}.
Arguments NDArray {A} shape data.
Arguments shape {A} _.
Arguments data {A} _.

(** Number of elements a shape holds. *)
Definition size_of (s : list nat) : nat := foldr Nat.mul 1 s.

(** The array invariant: as many elements as the shape says. *)
Definition wf {A} (a : ndarray A) : Prop := length (data a) = size_of (shape a).

(** An N×3 vertex array. *)
Definition is_Nx3 {A} (n : nat) (a : ndarray A) : Prop :=
  shape a = [n; 3] /\ wf a.

(** [np.array(rows)] for a list of rows of width [cols]. *)
Definition of_rows {A} (cols : nat) (rows : list (list A)) : ndarray A :=
  NDArray [length rows; cols] (concat rows).

(** numpy's broadcasting rule on shapes, read from the last axis: two
    extents are compatible when they are equal or one of them is 1; a
    missing leading axis counts as 1. *)
Fixpoint broadcast_shapes_rev (s1 s2 : list nat) : option (list nat) :=
  match s1, s2 with
  | [], s => Some s
  | s, [] => Some s
  | d1 :: r1, d2 :: r2 =>
      match broadcast_shapes_rev r1 r2 with
      | None => None
      | Some r =>
          if decide (d1 = d2) then Some (d1 :: r)
          else if decide (d1 = 1) then Some (d2 :: r)
          else if decide (d2 = 1) then Some (d1 :: r)
          else None
      end
  end.

Definition broadcast_shapes (s1 s2 : list nat) : option (list nat) :=
  reverse <$> broadcast_shapes_rev (reverse s1) (reverse s2).

(** The shape padded with leading 1s up to [rank] axes. *)
Definition pad_shape (rank : nat) (s : list nat) : list nat :=
  replicate (rank - length s) 1 ++ s.

Section Broadcast.
Context {A : Type}.

(** [count] consecutive blocks of [size] elements. *)
Fixpoint chunks (size count : nat) (l : list A) : list (list A) :=
  match count with
  | 0 => []
  | S c => take size l :: chunks size c (drop size l)
  end.

(** Elements of an array of shape [s] laid out at shape [t]: along an axis
    whose extent agrees the blocks are kept, along an axis of extent 1 the
    single block is repeated. *)
Fixpoint expand (s t : list nat) (d : list A) : list A :=
  match s, t with
  | n :: s', m :: t' =>
      let blocks := expand s' t' <$> chunks (size_of s') n d in
      if decide (n = m) then concat blocks
      else concat (replicate m (default [] (head blocks)))
  | _, _ => d
  end.

Definition broadcast_to (a : ndarray A) (t : list nat) : list A :=
  expand (pad_shape (length t) (shape a)) t (data a).

(** A binary ufunc: broadcast, then apply [op] elementwise. *)
Definition ufunc2 {B} (op : A -> A -> B) (a b : ndarray A) : result (ndarray B) :=
  match broadcast_shapes (shape a) (shape b) with
  | None => Raise (ValueError "operands could not be broadcast together")
  | Some t => Ok (NDArray t (zip_with op (broadcast_to a t) (broadcast_to b t)))
  end.

Definition ufunc1 {B} (op : A -> B) (a : ndarray A) : ndarray B :=
  NDArray (shape a) (op <$> data a).
End Broadcast.

Section Operators.
Context {A : Type} `{!Dtype A}.

(** [a - b] *)
Definition subtract (a b : ndarray A) : result (ndarray A) := ufunc2 dt_sub a b.
(** [a + b] *)
Definition add (a b : ndarray A) : result (ndarray A) := ufunc2 dt_add a b.
(** [-a] *)
Definition negative (a : ndarray A) : ndarray A := ufunc1 dt_neg a.
(** [np.isnan(a).any()] *)
Definition has_nan (a : ndarray A) : bool := existsb dt_isnan (data a).

(** [np.array_equal(a, b)]: same shape and [(a == b).all()]. *)
Definition array_equal (a b : ndarray A) : bool :=
  if decide (shape a = shape b)
  then forallb (fun p => dt_eqb p.1 p.2) (zip (data a) (data b))
  else false.
End Operators.

End Numpy.

(** ** The file system and the console *)

Module OS.
Import Numpy.

(** What [np.load] hands back: the archive of an [.npz] file, or the array
    of an [.npy] file.  Vertex data is real-valued ([float64]); index
    tables such as the face topology are integer arrays. *)
Inductive loaded : Type :=
| Archive (entries : gmap string (ndarray float))
| Array (a : ndarray float)
| IntArray (a : ndarray Z).

(** Per-vertex colours of a mesh object: one colour for all vertices
    ([set_vertex_colors]) or a colour map over weights
    ([set_vertex_colors_from_weights]). *)
Inductive vertex_colors : Type :=
| Uniform (rgb : list Z)
| FromWeights (w : ndarray float).

(** A mesh object of the mesh library: vertices, faces, colours. *)
Record mesh : Type := Mesh {
  mesh_v : ndarray float;
  mesh_f : loaded;
  mesh_vc : option vertex_colors;
}.

(** File contents, by kind.  [Empty] is a file of zero bytes; [Torn] is
    an archive cut short, the zip signature without its directory. *)
Inductive file : Type :=
| Npz (entries : gmap string (ndarray float))
| Npy (a : ndarray float)
| NpyInt (a : ndarray Z)
| Pkl (table : gmap string string)
| Ply (v : ndarray float) (f : ndarray Z)
| Obj (m : mesh)
| Video (frames_dir : string)
| Empty
| Torn.

(** What a run does to the outside, in order. *)
Inductive event : Type :=
| Printed (line : string)
| Written (path : string) (content : file)
| Shown (window : nat * nat) (meshes : list mesh)
| Prompted (text : string).

Record world : Type := World {
  files : gmap string file;
  dirs : gset string;
  (** the module namespace: the names bound to strings at module level *)
  globals : gmap string string;
  (** the lines still to be read from standard input *)
  stdin : list string;
  (** what [np.random.permutation(n)] draws in this run *)
  permutation : nat -> list nat;
  log : list event;
}.

(** A statement: it runs in a world, returns or raises, and leaves a world. *)
Definition io (X : Type) : Type := world -> result X * world.

#[export] Instance io_ret : MRet io := fun _ x w => (Ok x, w).
#[export] Instance io_bind : MBind io := fun _ _ k m w =>
  match m w with
  | (Ok x, w') => k x w'
  | (Raise e, w') => (Raise e, w')
  end.

Definition raise {X} (e : exception) : io X := fun w => (Raise e, w).
Definition lift {X} (r : result X) : io X := fun w => (r, w).
Definition emit (e : event) : io unit := fun w =>
  (Ok tt, World (files w) (dirs w) (globals w) (stdin w) (permutation w) (log w ++ [e])).

(** [for x in l: body x] *)
Fixpoint for_each {X} (l : list X) (body : X -> io unit) : io unit :=
  match l with
  | [] => mret tt
  | x :: l' => body x ≫= fun _ => for_each l' body
  end.

(** [print(line)] *)
Definition print (line : string) : io unit := emit (Printed line).

(** A read of the module-level name [name]. *)
Definition load_global (name : string) : io string := fun w =>
  match globals w !! name with
  | Some v => (Ok v, w)
  | None => (Raise (NameError name), w)
  end.

(** A module-level assignment [name = v]. *)
Definition store_global (name v : string) : io unit := fun w =>
  (Ok tt, World (files w) (dirs w) (<[name := v]> (globals w)) (stdin w)
             (permutation w) (log w)).

(** *** Path resolution *)

(** What a path leads to: a regular file, a directory (under the name the
    world records it by), nothing, or a path that runs through a regular
    file.  [NoEntry true] says that only the last component is missing, so
    that the name can be created. *)
Inductive status : Type :=
| IsFile (f : file)
| IsDir (key : string)
| NoEntry (creatable : bool)
| NotDir.

(** The directories that are always there: the root, the current
    directory (the empty name) and those above it ([..], [../..], ...). *)
Definition always_there (k : string) : bool :=
  bool_decide (k = "/")
  || forallb (fun c => bool_decide (c = ".."))
       (if bool_decide (k = "") then [] else split_sep "" k).

(** What the world records under the name [k]. *)
Definition node (w : world) (k : string) : status :=
  if always_there k then IsDir k
  else
    match files w !! k with
    | Some f => IsFile f
    | None => if decide (k ∈ dirs w) then IsDir k else NoEntry true
    end.

(** The directory above [k]: the root is its own parent; above the
    current directory the name grows by [..]. *)
Definition parent (k : string) : string :=
  if bool_decide (k = "/") then "/"
  else if bool_decide (k = "") || bool_decide (basename k = "..") then join2 k ".."
  else dirname k.

(** The walk from the directory [k] along [comps]. *)
Fixpoint walk (w : world) (k : string) (comps : list string) : status :=
  match comps with
  | [] => node w k
  | c :: rest =>
      match node w k with
      | IsDir _ =>
          if bool_decide (c = "") || bool_decide (c = ".") then walk w k rest
          else if bool_decide (c = "..") then walk w (parent k) rest
          else walk w (join2 k c) rest
      | IsFile _ => NotDir
      | NotDir => NotDir
      | NoEntry _ => NoEntry false
      end
  end.

(** A name the world records stands for itself; any other is walked from
    the root or from the current directory.  The empty path names nothing. *)
Definition lookup (w : world) (path : string) : status :=
  match files w !! path with
  | Some f => IsFile f
  | None =>
      if decide (path ∈ dirs w) then IsDir path
      else if bool_decide (path = "") then NoEntry false
      else walk w (if String.prefix "/" path then "/" else "") (split_sep "" path)
  end.

(** *** Reading *)

(** [open(path, 'rb')] *)
Definition open_read (path : string) : io file := fun w =>
  match lookup w path with
  | IsFile f => (Ok f, w)
  | IsDir _ => (Raise (IsADirectoryError path), w)
  | NoEntry _ => (Raise (FileNotFoundError path), w)
  | NotDir => (Raise (NotADirectoryError path), w)
  end.

(** [np.load(path)] with its default [allow_pickle=False]. *)
Definition np_load (path : string) : io loaded :=
  f ← open_read path;
  match f with
  | Npz entries => mret (Archive entries)
  | Npy a => mret (Array a)
  | NpyInt a => mret (IntArray a)
  | Empty => raise EOFError
  | Torn => raise BadZipFile
  | _ => raise (ValueError "Cannot load file containing pickled data when allow_pickle=False")
  end.

(** [data[key]] on what [np.load] returned. *)
Definition getitem (d : loaded) (key : string) : result (ndarray float) :=
  match d with
  | Archive entries =>
      match entries !! key with
      | Some a => Ok a
      | None => Raise (KeyError key)
      end
  | _ => Raise (IndexError "only integers, slices, ellipsis, newaxis and integer or boolean arrays are valid indices")
  end.

(** [pkl.load(open(path, 'rb'))] *)
Definition pkl_load (path : string) : io (gmap string string) :=
  f ← open_read path;
  match f with
  | Pkl table => mret table
  | Empty => raise EOFError
  | _ => raise UnpicklingError
  end.

(** Every name the world records. *)
Definition entries (w : world) : list string := elements (dom (files w) ∪ dirs w).

(** [os.path.exists(path)] *)
Definition present (w : world) (path : string) : bool :=
  match lookup w path with
  | IsFile _ | IsDir _ => true
  | NoEntry _ | NotDir => false
  end.
Definition exists_ (path : string) : io bool := fun w => (Ok (present w path), w).

(** The name under which [path] sits directly in directory [dir], if it does. *)
Definition child_name (dir path : string) : option string :=
  let pre := join2 dir "" in
  if String.prefix pre path then
    let n := String.substring (String.length pre)
               (String.length path - String.length pre) path in
    if bool_decide (n = "") || contains_sep n then None else Some n
  else None.

(** [os.listdir(dir)] *)
Definition listdir (dir : string) : io (list string) := fun w =>
  match lookup w dir with
  | IsDir key => (Ok (omap (child_name key) (entries w)), w)
  | IsFile _ | NotDir => (Raise (NotADirectoryError dir), w)
  | NoEntry _ => (Raise (FileNotFoundError dir), w)
  end.

(** What [glob(pattern)] returns for the entry [p], for a pattern whose
    directory part is literal: [p] under the pattern's directory, when its
    name there matches the last component; a leading dot is matched only by
    a pattern that starts with one. *)
Definition glob_match (pattern p : string) : option string :=
  let dir := dirname pattern in
  let pat := basename pattern in
  n ← child_name dir p;
  if fnmatch n pat && (String.prefix "." pat || negb (String.prefix "." n))
  then Some (join2 dir n) else None.

(** [glob(pattern)] *)
Definition glob (pattern : string) : io (list string) := fun w =>
  (Ok (omap (glob_match pattern) (entries w)), w).

(** *** Creating and writing *)

(** [path] and the directories above it. *)
Fixpoint ancestors (fuel : nat) (path : string) : list string :=
  match fuel with
  | O => []
  | S k =>
      if bool_decide (path = "") then []
      else path :: (let d := dirname path in
                    if bool_decide (d = path) then [] else ancestors k d)
  end.

Definition add_dirs (path : string) (w : world) : world :=
  World (files w) (list_to_set (ancestors (String.length path) path) ∪ dirs w)
        (globals w) (stdin w) (permutation w) (log w).

(** [os.makedirs] climbs from the path until it finds something that is
    there, and creates the directories below it, the one next to it
    ([below]) first: that [mkdir] fails when what is there is a regular
    file. *)
Fixpoint blocked (w : world) (chain : list string) (below : string) : option exception :=
  match chain with
  | [] => None
  | p :: up =>
      match lookup w p with
      | IsDir _ => None
      | IsFile _ => Some (NotADirectoryError below)
      | NoEntry _ | NotDir => blocked w up p
      end
  end.

(** [os.makedirs(path, exist_ok=True)] *)
Definition makedirs (path : string) : io unit := fun w =>
  if bool_decide (path = "") then (Raise (FileNotFoundError path), w)
  else
    match lookup w path with
    | IsDir _ => (Ok tt, add_dirs path w)
    | IsFile _ => (Raise (FileExistsError path), w)
    | NoEntry _ | NotDir =>
        match blocked w (tail (ancestors (String.length path) path)) path with
        | Some e => (Raise e, w)
        | None => (Ok tt, add_dirs path w)
        end
    end.

(** [w] once [content] has been written to [path]. *)
Definition store (path : string) (content : file) (w : world) : world :=
  World (<[path := content]> (files w)) (dirs w) (globals w) (stdin w)
        (permutation w) (log w ++ [Written path content]).

(** [open(path, 'w')] and the writing of [content]: the file is created in
    a directory that is there, or replaced. *)
Definition write_file (path : string) (content : file) : io unit := fun w =>
  match lookup w path with
  | IsFile _ | NoEntry true => (Ok tt, store path content w)
  | IsDir _ => (Raise (IsADirectoryError path), w)
  | NotDir => (Raise (NotADirectoryError path), w)
  | NoEntry false => (Raise (FileNotFoundError path), w)
  end.

(** [input(text)] *)
Definition input (text : string) : io string := fun w =>
  match stdin w with
  | line :: rest =>
      (Ok line, World (files w) (dirs w) (globals w) rest (permutation w)
                  (log w ++ [Prompted text]))
  | [] =>
      (Raise EOFError, World (files w) (dirs w) (globals w) [] (permutation w)
                         (log w ++ [Prompted text]))
  end.

(** [np.random.permutation(n)] *)
Definition random_permutation (n : nat) : io (list nat) := fun w =>
  (Ok (permutation w n), w).

(** [l[i]] for a non-negative index. *)
Definition index {X} (l : list X) (i : nat) : result X :=
  match l !! i with
  | Some x => Ok x
  | None => Raise (IndexError "list index out of range")
  end.

(** The viewer window at [window] is given [meshes] to display. *)
Definition show (window : nat * nat) (meshes : list mesh) : io unit :=
  emit (Shown window meshes).

End OS.

(** ** The class [CAPE_utils] *)

Module CAPE.
Import Numpy OS.

(** *** numpy and mesh-library calls made by the methods *)

(** [a.astype(np.float64)] on an [int64] array: each integer rounded to the
    nearest binary64 value. *)
Definition float_of_int64 (z : Z) : float :=
  SF2Prim (binary_normalize prec emax z 0 false).
Definition astype_float64 (a : ndarray Z) : ndarray float :=
  ufunc1 float_of_int64 a.

(** An operand of vertex arithmetic: a float array as it is, an integer
    array promoted to [float64], an archive refused. *)
Definition as_vertices (x : loaded) : result (ndarray float) :=
  match x with
  | Array a => Ok a
  | IntArray a => Ok (astype_float64 a)
  | Archive _ => Raise (TypeError "unsupported operand type(s) for -: 'numpy.ndarray' and 'NpzFile'")
  end.

(** [a / 1000.] *)
Definition true_divide (a : ndarray float) (d : float) : ndarray float :=
  ufunc1 (fun x => PrimFloat.div x d) a.

(** [np.linalg.norm(a, axis=-1)]: the Euclidean norm of each row along the
    last axis. *)
Definition linalg_norm_last_axis (a : ndarray float) : result (ndarray float) :=
  match reverse (shape a) with
  | [] => Raise (ValueError "axis -1 is out of bounds for array of dimension 0")
  | k :: outer_rev =>
      let outer := reverse outer_rev in
      let row_norm (row : list float) :=
        PrimFloat.sqrt (foldl PrimFloat.add 0%float ((fun x => PrimFloat.mul x x) <$> row)) in
      Ok (NDArray outer (row_norm <$> chunks k (size_of outer) (data a)))
  end.

(** [m.set_vertex_colors(np.array(rgb))] *)
Definition set_vertex_colors (m : mesh) (rgb : list Z) : mesh :=
  Mesh (mesh_v m) (mesh_f m) (Some (Uniform rgb)).

(** [m.set_vertex_colors_from_weights(w)] *)
Definition set_vertex_colors_from_weights (m : mesh) (w : ndarray float) : mesh :=
  Mesh (mesh_v m) (mesh_f m) (Some (FromWeights w)).

(** [Mesh(filename=path)]: a raw scan read from a [.ply] file. *)
Definition mesh_from_file (path : string) : io mesh :=
  f ← open_read path;
  match f with
  | Ply v f => mret (Mesh v (IntArray f) None)
  | Obj m => mret m
  | _ => raise (ValueError "not a mesh file")
  end.

(** [psbody.mesh]'s [m.write_obj(path)]: the directory of [path] is
    created when it has a name and is not there, then the file is written. *)
Definition write_obj (m : mesh) (path : string) : io unit :=
  let d := dirname path in
  _ ← (if bool_decide (d = "") then mret tt
       else
         there ← exists_ d;
         if (there : bool) then mret tt else makedirs d) : io unit;
  write_file path (Obj m).

(** [trimesh]'s [m.export(path)]: the file is written where it is named. *)
Definition export (m : mesh) (path : string) : io unit := write_file path (Obj m).

(** Modelled from the spec: [render_video] of the module [vis_mesh_seq],
    which is not among the source files; "accepts a directory of ordered
    mesh files, produces a video file". *)
Definition render_video (mesh_dir video_fn : string) : io unit :=
  write_file video_fn (Video mesh_dir).

(** *** The class *)

Record CAPE_utils : Type := {
  dataset_dir : string;
  faces : loaded;
  mesh_lib : string;
}.

(** [CAPE_utils(mesh_lib, dataset_dir)] *)
Definition __init__ (mesh_lib dataset_dir : string) : io CAPE_utils :=
  faces ← np_load (join dataset_dir ["misc"; "smpl_tris.npy"]);
  mret {| dataset_dir := dataset_dir; faces := faces; mesh_lib := mesh_lib |}.

(** The four arrays of a frame: [(v_cano, v_posed, pose, transl)]. *)
Definition frame : Type :=
  ndarray float * ndarray float * ndarray float * ndarray float.

Definition load_single_frame (self : CAPE_utils) (npz_fn : string) : io frame :=
  data ← np_load npz_fn;
  v_cano ← lift (getitem data "v_cano");
  v_posed ← lift (getitem data "v_posed");
  pose ← lift (getitem data "pose");
  transl ← lift (getitem data "transl");
  mret (v_cano, v_posed, pose, transl).

Definition calc_clo_disp {A} `{!Dtype A} (self : CAPE_utils)
    (v_cano minimal_cano : ndarray A) : result (ndarray A) :=
  subtract v_cano minimal_cano.

Definition rule : string := nl +:+ "=======================" +:+ nl.

(** In the body, [dataset_dir self] is [self.dataset_dir]; the bare name
    [dataset_dir] of lines 54 and 57 is read from the module namespace, once
    at each line. *)
Definition demo (self : CAPE_utils) (subj seq_name : string) : io unit :=
  genders ← pkl_load (join (dataset_dir self) ["misc"; "subj_genders.pkl"]);
  gender ← lift (match genders !! subj with
                 | Some g => Ok g
                 | None => Raise (KeyError subj)
                 end);
  dataset_dir ← load_global "dataset_dir";
  let minimal_fn :=
    join dataset_dir ["minimal_body_shape"; subj; subj +:+ "_minimal.npy"] in
  minimal_cano ← np_load minimal_fn;
  dataset_dir ← load_global "dataset_dir";
  let data_dir := join dataset_dir ["sequences"; subj; seq_name] in
  names ← listdir data_dir;
  data_choice ← lift (index names 0);
  let data_path := join data_dir [data_choice] in
  _ ← print rule;
  _ ← print ("Visualizing: " +:+ subj +:+ ", " +:+ data_choice +:+ nl);
  '(clo_cano, clo_posed, pose_params, transl) ← load_single_frame self data_path;
  minimal ← lift (as_vertices minimal_cano);
  clo_disps ← lift (calc_clo_disp self clo_cano minimal);
  let mesh_clothed_colored := Mesh clo_cano (faces self) None in
  _ ← print "On screen: minimally clothed body in canonical pose VS. clothed body in canonical pose, color encoded by the norm of clothing displacements.";
  _ ← print rule;
  vc ← lift (linalg_norm_last_axis clo_disps);
  let mesh_clothed_colored := set_vertex_colors_from_weights mesh_clothed_colored vc in
  _ ← show (0, 0) [Mesh minimal (faces self) None];
  show (0, 1) [mesh_clothed_colored].

(** The vertices a frame contributes under [option]. *)
Definition select_verts (option : string) (fr : frame) : ndarray float :=
  let '(v_cano, v_posed, pose_params, transl) := fr in
  if bool_decide (option = "posed") then v_posed else v_cano.

(** The body of the loop of [extract_mesh_seq]. *)
Definition extract_frame (self : CAPE_utils) (option mesh_dir fn : string) : io unit :=
  fr ← load_single_frame self fn;
  let verts := select_verts option fr in
  let mesh_frame_name := replace "npz" "obj" (basename fn) in
  if bool_decide (mesh_lib self = "trimesh") then
    export (Mesh verts (faces self) None) (join mesh_dir [mesh_frame_name])
  else if bool_decide (mesh_lib self = "psbody.mesh") then
    write_obj (Mesh verts (faces self) None) (join mesh_dir [mesh_frame_name])
  else mret tt.

Definition extract_mesh_seq (self : CAPE_utils) (subj seq_name option : string) : io unit :=
  let mesh_dir := join (dataset_dir self) ["meshes"; subj; seq_name; option] in
  _ ← makedirs mesh_dir;
  let seq_dir := join (dataset_dir self) ["sequences"; subj; seq_name] in
  seq_flist ← glob (join seq_dir ["*.npz"]);
  _ ← print ("Extracting meshes of " +:+ subj +:+ " " +:+ seq_name +:+ " (" +:+ option +:+ ")..");
  for_each seq_flist (extract_frame self option mesh_dir).

Definition visualize_sequence (self : CAPE_utils) (subj seq_name option : string) : io unit :=
  let video_savedir := join (dataset_dir self) ["visualization"; subj] in
  _ ← makedirs video_savedir;
  let video_fn := join video_savedir [seq_name +:+ "_" +:+ option +:+ ".mp4"] in
  let mesh_dir := join (dataset_dir self) ["meshes"; subj; seq_name; option] in
  there ← exists_ mesh_dir;
  _ ← (if negb there then extract_mesh_seq self subj seq_name option
       else
         names ← listdir mesh_dir;
         if bool_decide (length names = 0)
         then extract_mesh_seq self subj seq_name option
         else mret tt);
  render_video mesh_dir video_fn.

(** The body of the loop of [vis_overlap]. *)
Definition inspect (self : CAPE_utils) (subj seq_name : string)
    (aligns_list scans_list : list string) (i : nat) : io unit :=
  scan_fn ← lift (index scans_list i);
  mscan ← mesh_from_file scan_fn;
  let mscan := Mesh (true_divide (mesh_v mscan) 1000%float) (mesh_f mscan) None in
  let mscan := set_vertex_colors mscan [0; 1; 0]%Z in
  align_fn ← lift (index aligns_list i);
  data ← np_load align_fn;
  valign ← lift (getitem data "v_posed");
  let malign := Mesh valign (faces self) None in
  let malign := set_vertex_colors malign [1; 0; 0]%Z in
  let mesh_dir := join (dataset_dir self) ["scans"; subj; seq_name] in
  _ ← write_obj mscan (join mesh_dir [format_02d i +:+ ".png"]);
  _ ← write_obj malign (join mesh_dir [format_02d i +:+ ".png"]);
  _ ← show (0, 0) [mscan; malign];
  _ ← input "Press Enter to continue";
  mret tt.

Definition vis_overlap (self : CAPE_utils) (subj seq_name : string) (vis_num : Z) : io unit :=
  let aligned_dir := join (dataset_dir self) ["sequences"; subj; seq_name] in
  let scan_dir := join (dataset_dir self) ["raw_scans"; subj; seq_name] in
  has_aligned ← exists_ aligned_dir;
  _ ← (if negb has_aligned
       then print ("Missing mesh registrations for " +:+ subj +:+ " " +:+ seq_name
                   +:+ ", please download first." +:+ nl)
       else mret tt);
  has_scans ← exists_ scan_dir;
  _ ← (if negb has_scans
       then print ("Missing raw scan data for " +:+ subj +:+ " " +:+ seq_name
                   +:+ ", please download first." +:+ nl)
       else mret tt);
  aligns ← glob (join aligned_dir ["*.npz"]);
  let aligns_list := sorted aligns in
  scans ← glob (join scan_dir ["*.ply"]);
  let scans_list := sorted scans in
  _ ← (if bool_decide (length aligns_list = length scans_list) then mret tt
       else raise AssertionError);
  perm ← random_permutation (length scans_list);
  let idx := slice_to vis_num perm in
  for_each idx (inspect self subj seq_name aligns_list scans_list).

(** *** The script entry point *)

(** The parsed command line; [script] is [os.path.realpath(__file__)]. *)
Record args : Type := {
  arg_subj : string;
  arg_seq_name : string;
  arg_option : string;
  arg_dataset_dir : string;
  arg_mesh_lib : string;
  arg_demo_disps : bool;
  arg_vis_scans : bool;
  arg_extract : bool;
  arg_vis_seq : bool;
  script : string;
}.

Definition when (b : bool) (body : io unit) : io unit := if b then body else mret tt.

Definition main (a : args) : io unit :=
  _ ← (if bool_decide (arg_dataset_dir a = "")
       then
         _ ← store_global "script_dir" (dirname (script a));
         store_global "dataset_dir" (dirname (dirname (script a)))
       else store_global "dataset_dir" (arg_dataset_dir a));
  dataset_dir ← load_global "dataset_dir";
  cape ← __init__ (arg_mesh_lib a) dataset_dir;
  _ ← when (arg_vis_seq a)
        (visualize_sequence cape (arg_subj a) (arg_seq_name a) (arg_option a));
  _ ← when (arg_extract a)
        (extract_mesh_seq cape (arg_subj a) (arg_seq_name a) (arg_option a));
  _ ← when (arg_demo_disps a) (demo cape (arg_subj a) (arg_seq_name a));
  when (arg_vis_scans a) (vis_overlap cape (arg_subj a) (arg_seq_name a) 5).

End CAPE.

(** ** What a run is observed by *)

Module Observe.
Import Numpy OS CAPE.

(** The files a run wrote, in order, read off an event log. *)
Definition writes (l : list event) : list (string * file) :=
  omap (fun e => match e with Written p c => Some (p, c) | _ => None end) l.

(** The file name the loop body of [vis_overlap] passes to [write_obj],
    for the scan and for the alignment (lines 169 to 171). *)
Definition overlap_png (self : CAPE_utils) (subj seq_name : string) (i : nat) : string :=
  join (join (dataset_dir self) ["scans"; subj; seq_name]) [format_02d i +:+ ".png"].

(** The colours that loop body gives the scan (line 164) and the alignment
    (line 167). *)
Definition scan_colour : option vertex_colors := Some (Uniform [0; 1; 0]%Z).
Definition alignment_colour : option vertex_colors := Some (Uniform [1; 0; 0]%Z).

(** [it] is an index with the scan mesh and the alignment mesh built for it. *)
Definition scan_and_alignment (self : CAPE_utils) (it : nat * mesh * mesh) : Prop :=
  mesh_vc it.1.2 = scan_colour /\ mesh_vc it.2 = alignment_colour
  /\ mesh_f it.2 = faces self.

(** The two writes of one iteration, in order. *)
Definition writes_of_iteration (self : CAPE_utils) (subj seq_name : string)
    (it : nat * mesh * mesh) : list (string * file) :=
  [(overlap_png self subj seq_name it.1.1, Obj it.1.2);
   (overlap_png self subj seq_name it.1.1, Obj it.2)].

(** The scan and the alignment the loop body of [vis_overlap] builds for
    index [i] (lines 162 to 167), from files of [w]: the scan read from the
    [i]-th scan file, scaled and coloured; the [v_posed] entry of the
    [i]-th archive on the shared faces, coloured. *)
Definition overlap_meshes (self : CAPE_utils) (w : world)
    (aligns_list scans_list : list string) (i : nat) (it : mesh * mesh) : Prop :=
  exists (scan_fn align_fn : string) (f : file) (m : mesh)
         (entries : gmap string (ndarray float)) (valign : ndarray float),
    scans_list !! i = Some scan_fn /\ files w !! scan_fn = Some f
    /\ mesh_from_file scan_fn w = (Ok m, w)
    /\ aligns_list !! i = Some align_fn /\ files w !! align_fn = Some (Npz entries)
    /\ entries !! "v_posed" = Some valign
    /\ it.1 = Mesh (true_divide (mesh_v m) 1000%float) (mesh_f m) scan_colour
    /\ it.2 = Mesh valign (faces self) alignment_colour.

(** The file at [path] holds an alignment mesh. *)
Definition alignment_at (w : world) (path : string) : Prop :=
  exists m, files w !! path = Some (Obj m) /\ mesh_vc m = alignment_colour.

(** [np.isfinite(a).all()] *)
Definition all_finite (a : ndarray float) : bool :=
  forallb PrimFloat.is_finite (data a).

(** Two extents that broadcast to the second one. *)
Definition stretches (n m : nat) : Prop := n = m \/ n = 1.

(** The archive at [fn] holds the four arrays of [fr]. *)
Definition frame_at (w : world) (fn : string) (fr : frame) : Prop :=
  exists entries : gmap string (ndarray float),
    files w !! fn = Some (Npz entries)
    /\ entries !! "v_cano" = Some fr.1.1.1 /\ entries !! "v_posed" = Some fr.1.1.2
    /\ entries !! "pose" = Some fr.1.2 /\ entries !! "transl" = Some fr.2.

(** Where the loop body of [extract_mesh_seq] writes the mesh of the frame
    at [fn] (line 101 joined to [mesh_dir]), and what it writes there. *)
Definition mesh_path (mesh_dir fn : string) : string :=
  join mesh_dir [replace "npz" "obj" (basename fn)].
Definition frame_write (self : CAPE_utils) (option mesh_dir fn : string) (fr : frame)
    : string * file :=
  (mesh_path mesh_dir fn, Obj (Mesh (select_verts option fr) (faces self) None)).

(** [w'] comes from [w] by writing files: the writes logged since [w] are
    [ws], every other file is as it was, and no file or directory is gone. *)
Definition written_since (w w' : world) (ws : list (string * file)) : Prop :=
  writes (log w') = writes (log w) ++ ws
  /\ (forall p, p ∉ ws.*1 -> files w' !! p = files w !! p)
  /\ dom (files w) ⊆ dom (files w') /\ dirs w ⊆ dirs w'.

(** A statement that, run where the module namespace is [g], leaves it so
    and raises no [NameError]. *)
Definition binds_its_names {X} (g : gmap string string) (m : io X) : Prop :=
  forall w, globals w = g ->
    globals (m w).2 = g /\ forall name, (m w).1 <> Raise (NameError name).

(** A statement that changes files only by writes it logs, and removes
    nothing. *)
Definition tracks_its_writes {X} (m : io X) : Prop :=
  forall w, exists ws, written_since w (m w).2 ws.

(** A statement that leaves the files, the directories, the module
    namespace and standard input as they are, and logs no write. *)
Definition read_only {X} (m : io X) : Prop :=
  forall w,
    files (m w).2 = files w /\ dirs (m w).2 = dirs w
    /\ globals (m w).2 = globals w /\ stdin (m w).2 = stdin w
    /\ writes (log (m w).2) = writes (log w).

(** The mesh library is one of the two the loop of [extract_mesh_seq]
    tests for (lines 103 and 107). *)
Definition known_backend (self : CAPE_utils) : bool :=
  bool_decide (mesh_lib self = "trimesh") || bool_decide (mesh_lib self = "psbody.mesh").

(** The lines [vis_overlap] prints for the directories it does not find
    (lines 148 to 151). *)
Definition missing_messages (self : CAPE_utils) (subj seq_name : string) (w : world)
    : list event :=
  (if present w (join (dataset_dir self) ["sequences"; subj; seq_name]) then []
   else [Printed ("Missing mesh registrations for " +:+ subj +:+ " " +:+ seq_name
                  +:+ ", please download first." +:+ nl)])
  ++ (if present w (join (dataset_dir self) ["raw_scans"; subj; seq_name]) then []
      else [Printed ("Missing raw scan data for " +:+ subj +:+ " " +:+ seq_name
                     +:+ ", please download first." +:+ nl)]).

(** [w] with [es] logged after what it has logged. *)
Definition logged (es : list event) (w : world) : world :=
  World (files w) (dirs w) (globals w) (stdin w) (permutation w) (log w ++ es).

(** The keys [load_single_frame] looks up, in the order of line 38, and
    the first of them an archive lacks. *)
Definition frame_keys : list string := ["v_cano"; "v_posed"; "pose"; "transl"].
Definition first_missing (entries : gmap string (ndarray float)) : option string :=
  head (filter (fun key => entries !! key = None) frame_keys).

(** The specification's reading of an option that is not ['posed']: the canonical
    vertices of every frame are extracted, and [option] only names the
    directory the meshes go to and appears in the progress line. *)
Definition extract_canonical_frame (self : CAPE_utils) (mesh_dir fn : string) : io unit :=
  '(v_cano, v_posed, pose_params, transl) ← load_single_frame self fn;
  let mesh_frame_name := replace "npz" "obj" (basename fn) in
  if bool_decide (mesh_lib self = "trimesh") then
    export (Mesh v_cano (faces self) None) (join mesh_dir [mesh_frame_name])
  else if bool_decide (mesh_lib self = "psbody.mesh") then
    write_obj (Mesh v_cano (faces self) None) (join mesh_dir [mesh_frame_name])
  else mret tt.
Definition canonical_extraction (self : CAPE_utils) (subj seq_name option : string)
    : io unit :=
  let mesh_dir := join (dataset_dir self) ["meshes"; subj; seq_name; option] in
  _ ← makedirs mesh_dir;
  seq_flist ← glob (join (join (dataset_dir self) ["sequences"; subj; seq_name]) ["*.npz"]);
  _ ← print ("Extracting meshes of " +:+ subj +:+ " " +:+ seq_name +:+ " (" +:+ option +:+ ")..");
  for_each seq_flist (extract_canonical_frame self mesh_dir).

(** The mesh of the canonical vertices of the frame at [fn], as a write. *)
Definition canonical_write (self : CAPE_utils) (mesh_dir fn : string) (fr : frame)
    : string * file :=
  (mesh_path mesh_dir fn, Obj (Mesh fr.1.1.1 (faces self) None)).

(** What a path leads to after a write elsewhere: a directory stays the
    directory it was, a file stays a file, and a name that could be created
    can still be, unless it is the file just written. *)
Definition kept (s s' : status) : Prop :=
  match s with
  | IsDir key => s' = IsDir key
  | IsFile _ => exists f', s' = IsFile f'
  | NoEntry true => s' = NoEntry true \/ exists f', s' = IsFile f'
  | _ => True
  end.

(** A mesh can be written at [path]: its directory is there (or is the
    current one), and opening [path] for writing succeeds. *)
Definition writable (w : world) (path : string) : Prop :=
  (dirname path = "" \/ present w (dirname path) = true)
  /\ (write_file path Empty w).1 = Ok tt.

Arguments overlap_png : simpl never.
Arguments writes_of_iteration : simpl never.

End Observe.

(** ** Concrete data used by the examples below *)

Module Examples.
Import Numpy OS CAPE.

(** An instance of the class, as [CAPE_utils('psbody.mesh', '/data/cape')]
    builds it from a face table of two triangles. *)
Definition self0 : CAPE_utils := {|
  dataset_dir := "/data/cape";
  faces := IntArray (of_rows 3 [[0; 1; 2]; [0; 2; 3]]%Z);
  mesh_lib := "psbody.mesh";
|}.

(** The arrays of the specification's scenario, as [float64] and as [int64]. *)
Definition v_cano_f : ndarray float := of_rows 3 [[1; 0; 0]; [0; 1; 0]]%float.
Definition minimal_f : ndarray float := of_rows 3 [[0; 0; 0]; [0; 0; 0]]%float.
Definition v_cano_i : ndarray Z := of_rows 3 [[1; 0; 0]; [0; 1; 0]]%Z.
Definition minimal_i : ndarray Z := of_rows 3 [[0; 0; 0]; [0; 0; 0]]%Z.

(** One vertex at distance 1 from the origin and one at distance 1e20: in
    binary64 their difference rounds to -1e20. *)
Definition near_f : ndarray float := of_rows 3 [[1; 0; 0]]%float.
Definition far_f : ndarray float := of_rows 3 [[1e20; 0; 0]]%float.

(** A vertex with an undefined coordinate. *)
Definition undefined_f : ndarray float := of_rows 3 [[nan; 0; 0]]%float.
Definition origin_f : ndarray float := of_rows 3 [[0; 0; 0]]%float.

(** A single vertex, to be broadcast against two. *)
Definition single_f : ndarray float := of_rows 3 [[1; 1; 1]]%float.
Definition triple_f : ndarray float :=
  of_rows 3 [[1; 0; 0]; [0; 1; 0]; [0; 0; 1]]%float.

(** A small dataset tree under [/data/cape]: the face table, the gender
    table, one minimal body shape, a sequence of two frames with their raw
    scans, a sequence whose only frame lacks its translation, and a
    sequence directory with no frame in it. *)
Definition posed_f : ndarray float := of_rows 3 [[1; 0; 2]; [0; 1; 2]]%float.
Definition pose_f : ndarray float := NDArray [3] [0; 0; 0]%float.
Definition transl_f : ndarray float := NDArray [3] [0; 0; 2]%float.
Definition scan_f : ndarray float := of_rows 3 [[1000; 0; 2000]; [0; 1000; 2000]]%float.
Definition scan_faces : ndarray Z := of_rows 3 [[0; 1; 1]]%Z.

Definition frame_entries : gmap string (ndarray float) :=
  <["v_cano" := v_cano_f]> (<["v_posed" := posed_f]>
    (<["pose" := pose_f]> (<["transl" := transl_f]> ∅))).
Definition broken_entries : gmap string (ndarray float) :=
  <["v_cano" := v_cano_f]> (<["v_posed" := posed_f]> (<["pose" := pose_f]> ∅)).

Definition frame1 : string := "/data/cape/sequences/00032/shortlong_hips/shortlong_hips.000001.npz".
Definition frame2 : string := "/data/cape/sequences/00032/shortlong_hips/shortlong_hips.000002.npz".
Definition broken_frame : string := "/data/cape/sequences/00032/broken/broken.000001.npz".

Definition dataset_files : gmap string file :=
  list_to_map [
    ("/data/cape/misc/smpl_tris.npy", NpyInt (of_rows 3 [[0; 1; 2]; [0; 2; 3]]%Z));
    ("/data/cape/misc/subj_genders.pkl", Pkl (<["00032" := "male"]> ∅));
    ("/data/cape/minimal_body_shape/00032/00032_minimal.npy", Npy minimal_f);
    (frame1, Npz frame_entries);
    (frame2, Npz frame_entries);
    ("/data/cape/raw_scans/00032/shortlong_hips/shortlong_hips.000001.ply", Ply scan_f scan_faces);
    ("/data/cape/raw_scans/00032/shortlong_hips/shortlong_hips.000002.ply", Ply scan_f scan_faces);
    (broken_frame, Npz broken_entries)
  ].

Definition dataset_dirs : gset string :=
  list_to_set [
    "/"; "/data"; "/data/cape"; "/data/cape/misc";
    "/data/cape/minimal_body_shape"; "/data/cape/minimal_body_shape/00032";
    "/data/cape/sequences"; "/data/cape/sequences/00032";
    "/data/cape/sequences/00032/shortlong_hips";
    "/data/cape/sequences/00032/broken";
    "/data/cape/sequences/00032/empty_seq";
    "/data/cape/raw_scans"; "/data/cape/raw_scans/00032";
    "/data/cape/raw_scans/00032/shortlong_hips"
  ].

(** The world of a process that imported the module: no module-level
    [dataset_dir]; two lines wait on standard input; the permutation drawn
    is the reversal. *)
Definition world0 : world := {|
  files := dataset_files;
  dirs := dataset_dirs;
  globals := ∅;
  stdin := [""; ""];
  permutation n := reverse (seq 0 n);
  log := [];
|}.


(** The same tree with the directory the overlap files go to. *)
Definition world_scans : world := {|
  files := dataset_files;
  dirs := dataset_dirs ∪ list_to_set ["/data/cape/scans"; "/data/cape/scans/00032";
                                      "/data/cape/scans/00032/shortlong_hips"];
  globals := ∅;
  stdin := [""; ""];
  permutation n := reverse (seq 0 n);
  log := [];
|}.

(** The same world once the script has bound its module-level
    [dataset_dir]. *)
Definition world_script : world := (store_global "dataset_dir" "/data/cape" world0).2.

(** What the demo puts on screen for the example frame. *)
Definition demo_minimal_mesh : mesh := Mesh minimal_f (faces self0) None.
Definition demo_clothed_mesh : mesh :=
  Mesh v_cano_f (faces self0) (Some (FromWeights (NDArray [2] [1; 1]%float))).

(** [python dataset_utils.py --dataset_dir /data/cape --subj 00032
    --seq_name shortlong_hips --mesh_lib psbody.mesh --demo_disps] *)
Definition demo_args : args := {|
  arg_subj := "00032";
  arg_seq_name := "shortlong_hips";
  arg_option := "posed";
  arg_dataset_dir := "/data/cape";
  arg_mesh_lib := "psbody.mesh";
  arg_demo_disps := true;
  arg_vis_scans := false;
  arg_extract := false;
  arg_vis_seq := false;
  script := "/data/cape/cape_utils/dataset_utils.py";
|}.


End Examples.

(** ** Proof steps *)

(** Membership in a list written out. *)
Ltac in_list :=
  cbn [Py.class_name]; repeat first [apply list_elem_of_here | apply list_elem_of_further].

(** * Properties *)

(** ** Arrays laid out at their own shape, and at a broadcast one *)

Module NumpyFacts.
Import Numpy.

Section Layout.
Context {A : Type}.
Implicit Types (d : list A) (s t : list nat).

Lemma chunks_concat size count d :
  length d = count * size -> concat (chunks size count d) = d.
Proof.
  revert d. induction count as [|c IH]; intros d Hlen; simpl.
  - by destruct d.
  - rewrite IH; [apply take_drop|]. rewrite length_drop. lia.
Qed.

Lemma chunks_sizes size count d :
  length d = count * size -> Forall (fun c => length c = size) (chunks size count d).
Proof.
  revert d. induction count as [|c IH]; intros d Hlen; simpl; constructor.
  - rewrite length_take. lia.
  - apply IH. rewrite length_drop. lia.
Qed.

(** Laid out at its own shape, an array keeps its elements. *)
Lemma expand_same s d : length d = size_of s -> expand s s d = d.
Proof.
  revert d. induction s as [|n s IH]; intros d Hlen; simpl; [done|].
  rewrite decide_True by done. simpl in Hlen.
  rewrite <- (chunks_concat (size_of s) n d) at 2 by done.
  f_equal. rewrite <- (list_fmap_id (chunks _ _ _)) at 2.
  apply Forall_fmap_ext_1. eapply Forall_impl; [by apply chunks_sizes|].
  intros c Hc. by apply IH.
Qed.

Lemma broadcast_shapes_rev_same s : broadcast_shapes_rev s s = Some s.
Proof. induction s as [|n s IH]; simpl; [done|]. rewrite IH. by rewrite decide_True. Qed.

Lemma broadcast_shapes_same s : broadcast_shapes s s = Some s.
Proof.
  unfold broadcast_shapes. rewrite broadcast_shapes_rev_same. simpl.
  by rewrite reverse_involutive.
Qed.

Lemma broadcast_to_same (a : ndarray A) : wf a -> broadcast_to a (shape a) = data a.
Proof.
  intros Hwf. unfold broadcast_to, pad_shape. rewrite Nat.sub_diag. by apply expand_same.
Qed.

(** On arrays of one shape a binary ufunc works position by position. *)
Lemma ufunc2_same_shape {B} (op : A -> A -> B) (a b : ndarray A) :
  shape a = shape b -> wf a -> wf b ->
  ufunc2 op a b = Ok (NDArray (shape a) (zip_with op (data a) (data b))).
Proof.
  intros Hs Ha Hb. unfold ufunc2. rewrite <- Hs, broadcast_shapes_same.
  rewrite broadcast_to_same by done. rewrite Hs, broadcast_to_same by done.
  by rewrite <- Hs.
Qed.

Lemma Nx3_length n (a : ndarray A) : is_Nx3 n a -> length (data a) = n * 3.
Proof. intros [Hs Hwf]. unfold wf in Hwf. rewrite Hwf, Hs. simpl. lia. Qed.

Lemma ufunc2_Nx3 {B} (op : A -> A -> B) n (a b : ndarray A) :
  is_Nx3 n a -> is_Nx3 n b ->
  ufunc2 op a b = Ok (NDArray [n; 3] (zip_with op (data a) (data b))).
Proof.
  intros [Hsa Ha] [Hsb Hb]. rewrite ufunc2_same_shape by congruence. by rewrite Hsa.
Qed.

Lemma zip_with_Nx3 {B} (op : A -> A -> B) n (a b : ndarray A) :
  is_Nx3 n a -> is_Nx3 n b -> is_Nx3 n (NDArray [n; 3] (zip_with op (data a) (data b))).
Proof.
  intros Ha Hb. split; [done|]. unfold wf. simpl.
  rewrite length_zip_with, (Nx3_length n a), (Nx3_length n b) by done. lia.
Qed.

(** The shapes N×3 and M×3 broadcast exactly when N = M or one of them is 1. *)
Lemma broadcast_shapes_Nx3 n m :
  broadcast_shapes [n; 3] [m; 3] =
    if decide (n = m) then Some [n; 3]
    else if decide (n = 1) then Some [m; 3]
    else if decide (m = 1) then Some [n; 3]
    else None.
Proof. unfold broadcast_shapes. simpl. by repeat case_decide. Qed.

(** A single row laid out at N rows is that row N times. *)
Lemma broadcast_to_row n (b : ndarray A) :
  is_Nx3 1 b -> n <> 1 -> broadcast_to b [n; 3] = concat (replicate n (data b)).
Proof.
  intros [Hs Hwf] Hn. unfold wf in Hwf. unfold broadcast_to. rewrite Hs in *.
  destruct (data b) as [|x [|y [|z [|? ?]]]]; try discriminate Hwf.
  simpl. by rewrite decide_False by done.
Qed.
End Layout.

(** Comparing the round trip with its start, position by position. *)
Lemma roundtrip_forallb {A} `{!Dtype A} (da db : list A) :
  forallb (fun p => dt_eqb p.1 p.2) (zip (zip_with dt_add (zip_with dt_sub da db) db) da)
  = forallb (fun p => dt_eqb (dt_add (dt_sub p.1 p.2) p.2) p.1) (zip da db).
Proof.
  revert db. induction da as [|x da IH]; intros [|y db]; simpl; try done.
  by rewrite IH.
Qed.

Lemma antisym_forallb {A} `{!Dtype A} (da db : list A) :
  forallb (fun p => dt_eqb p.1 p.2) (zip (zip_with dt_sub da db) (dt_neg <$> zip_with dt_sub db da))
  = forallb (fun p => dt_eqb (dt_sub p.1 p.2) (dt_neg (dt_sub p.2 p.1))) (zip da db).
Proof.
  revert db. induction da as [|x da IH]; intros [|y db]; simpl; try done.
  by rewrite IH.
Qed.

(** What holds of every result of [f] free of [P] holds of every pair. *)
Lemma forallb_zip_with {A B} (f : A -> A -> B) (P : B -> bool) (Q : A * A -> bool)
    (da db : list A) :
  (forall x y, P (f x y) = false -> Q (x, y) = true) ->
  existsb P (zip_with f da db) = false -> forallb Q (zip da db) = true.
Proof.
  intros HPQ. revert db. induction da as [|x da IH]; intros [|y db]; simpl; try done.
  intros [Hx Hrest]%orb_false_elim. rewrite HPQ by done. by apply IH.
Qed.

(** The two checks of the displacement properties, position by position. *)
Lemma roundtrip_check {A} `{!Dtype A} n (a b : ndarray A) :
  is_Nx3 n a -> is_Nx3 n b ->
  (d ← subtract a b; s ← add d b; mret (array_equal s a))
    = Ok (forallb (fun p => dt_eqb (dt_add (dt_sub p.1 p.2) p.2) p.1)
            (zip (data a) (data b))).
Proof.
  intros Ha Hb. unfold subtract, add.
  rewrite (ufunc2_Nx3 _ n) by done. simpl.
  rewrite (ufunc2_Nx3 _ n) by (done || by apply zip_with_Nx3). simpl.
  unfold mret, result_ret. f_equal. unfold array_equal. simpl.
  rewrite decide_True by (symmetry; apply Ha). apply roundtrip_forallb.
Qed.

Lemma antisymmetry_check {A} `{!Dtype A} n (a b : ndarray A) :
  is_Nx3 n a -> is_Nx3 n b ->
  (d ← subtract a b; e ← subtract b a; mret (array_equal d (negative e)))
    = Ok (forallb (fun p => dt_eqb (dt_sub p.1 p.2) (dt_neg (dt_sub p.2 p.1)))
            (zip (data a) (data b))).
Proof.
  intros Ha Hb. unfold subtract.
  rewrite !(ufunc2_Nx3 _ n) by done. simpl.
  unfold mret, result_ret. f_equal. unfold array_equal. simpl.
  rewrite decide_True by done. apply antisym_forallb.
Qed.

(** *** The element arithmetic of the two dtypes *)

Lemma wrap64_id z : in_int64 z -> wrap64 z = z.
Proof. unfold in_int64, wrap64. intros H. rewrite Z.mod_small; lia. Qed.

(** Wrap-around subtraction is undone by wrap-around addition. *)
Lemma int64_sub_add (x y : Z) : in_int64 x -> dt_add (dt_sub x y) y = x.
Proof.
  intros Hx. simpl. rewrite <- (wrap64_id x) at 2 by done. unfold wrap64.
  f_equal. replace ((x - y + 2 ^ 63) mod 2 ^ 64 - 2 ^ 63 + y + 2 ^ 63)%Z
    with ((x - y + 2 ^ 63) mod 2 ^ 64 + y)%Z by lia.
  rewrite Z.add_mod_idemp_l by lia. f_equal. lia.
Qed.

Lemma int64_sub_antisym (x y : Z) : dt_sub x y = dt_neg (dt_sub y x).
Proof.
  simpl. unfold wrap64. f_equal.
  pose proof (Z.div_mod (y - x + 2 ^ 63) (2 ^ 64) ltac:(lia)) as Hdm.
  set (q := ((y - x + 2 ^ 63) / 2 ^ 64)%Z) in *.
  set (r := ((y - x + 2 ^ 63) mod 2 ^ 64)%Z) in *.
  replace (x - y + 2 ^ 63)%Z with (- (r - 2 ^ 63) + 2 ^ 63 + (- q) * 2 ^ 64)%Z by lia.
  by rewrite Z_mod_plus_full.
Qed.

(** IEEE subtraction: rounding does not depend on the sign. *)
Lemma binary_round_aux_opp p e s m ex l :
  SFopp (binary_round_aux p e s m ex l) = binary_round_aux p e (negb s) m ex l.
Proof.
  unfold binary_round_aux.
  destruct (shr_fexp p e m ex l) as [mrs' e'].
  destruct (shr_fexp p e _ e' loc_Exact) as [mrs'' e''].
  destruct (shr_m mrs''); simpl; try reflexivity.
  destruct (e'' <=? e - p)%Z; reflexivity.
Qed.

Lemma binary_round_opp p e s m ex :
  SFopp (binary_round p e s m ex) = binary_round p e (negb s) m ex.
Proof.
  unfold binary_round. destruct (shl_align _ _ _) as [mz ez]. apply binary_round_aux_opp.
Qed.

(** Unless it is NaN, [X - Y] compares equal to [-(Y - X)]; the two may
    differ in the sign of a zero. *)
Lemma SFsub_antisym p e X Y :
  SFeqb (SFsub p e X Y) (SFsub p e X Y) = true ->
  SFeqb (SFsub p e X Y) (SFopp (SFsub p e Y X)) = true.
Proof.
  destruct X as [sx|sx| |sx mx ex], Y as [sy|sy| |sy my ey]; simpl;
    try (intros H; exact H);
    try (destruct sx; simpl; try destruct sy; simpl; intros H; first [exact H | reflexivity]).
  change IntDef.Z.min with Z.min. rewrite (Z.min_comm ey ex).
  set (a := cond_Zopp sx _). set (b := cond_Zopp sy _).
  replace (b - a)%Z with (- (a - b))%Z by lia.
  destruct (a - b)%Z as [|m|m]; simpl.
  - reflexivity.
  - rewrite binary_round_opp. simpl. auto.
  - rewrite binary_round_opp. simpl. auto.
Qed.

Lemma float64_sub_antisym (x y : float) :
  dt_isnan (dt_sub x y) = false -> dt_eqb (dt_sub x y) (dt_neg (dt_sub y x)) = true.
Proof.
  simpl. unfold PrimFloat.is_nan. rewrite !FloatAxioms.eqb_spec, FloatAxioms.opp_spec, !FloatAxioms.sub_spec.
  intros H. apply SFsub_antisym. destruct (SFeqb _ _); [reflexivity|discriminate].
Qed.

(** Rounding a mantissa that is not negative never gives NaN. *)
Lemma shr_1_nonneg mrs : (0 <= shr_m mrs)%Z -> (0 <= shr_m (shr_1 mrs))%Z.
Proof. destruct mrs as [[|[m|m|]|m] r s]; simpl; lia. Qed.

Lemma iter_shr_1_nonneg n mrs :
  (0 <= shr_m mrs)%Z -> (0 <= shr_m (SpecFloat.iter_pos shr_1 n mrs))%Z.
Proof.
  revert mrs. induction n as [n IH|n IH|]; intros mrs H; simpl.
  - apply IH, IH. by apply shr_1_nonneg.
  - by apply IH, IH.
  - by apply shr_1_nonneg.
Qed.

Lemma shr_fexp_nonneg p e m ex l :
  (0 <= m)%Z -> (0 <= shr_m (shr_fexp p e m ex l).1)%Z.
Proof.
  intros Hm. unfold shr_fexp, shr.
  assert (H0 : (0 <= shr_m (shr_record_of_loc m l))%Z) by (by destruct l as [|[]]).
  destruct (fexp p e (Zdigits2 m + ex) - ex)%Z; simpl; [done| |done].
  by apply iter_shr_1_nonneg.
Qed.

Lemma round_nearest_even_nonneg m l : (0 <= m)%Z -> (0 <= round_nearest_even m l)%Z.
Proof. intros Hm. destruct l as [|[]]; simpl; [done| |done|lia]. case_match; lia. Qed.

Lemma binary_round_aux_not_nan p e s m ex l :
  (0 <= m)%Z -> binary_round_aux p e s m ex l <> S754_nan.
Proof.
  intros Hm. unfold binary_round_aux.
  pose proof (shr_fexp_nonneg p e m ex l Hm) as H1.
  destruct (shr_fexp p e m ex l) as [mrs' e']. simpl in H1.
  pose proof (shr_fexp_nonneg p e _ e' loc_Exact
                (round_nearest_even_nonneg _ (loc_of_shr_record mrs') H1)) as H2.
  destruct (shr_fexp p e _ e' loc_Exact) as [mrs'' e'']. simpl in H2.
  destruct (shr_m mrs''); [done| |lia]. by case_match.
Qed.

Lemma binary_normalize_not_nan p e m ex sz : binary_normalize p e m ex sz <> S754_nan.
Proof.
  destruct m as [|m|m]; simpl; [done| |];
    unfold binary_round; destruct (shl_align _ _ _) as [mz ez];
    by apply binary_round_aux_not_nan.
Qed.

(** The difference of two finite values is a number: it may overflow to an
    infinity, it is never NaN. *)
Lemma SFsub_finite_not_nan p e X Y :
  match X with S754_infinity _ | S754_nan => False | _ => True end ->
  match Y with S754_infinity _ | S754_nan => False | _ => True end ->
  SFsub p e X Y <> S754_nan.
Proof.
  destruct X as [sx|sx| |sx mx ex], Y as [sy|sy| |sy my ey]; simpl; try done.
  - intros _ _. by destruct sx, sy.
  - intros _ _. apply binary_normalize_not_nan.
Qed.

Lemma SFeqb_refl X : X <> S754_nan -> SFeqb X X = true.
Proof.
  destruct X as [s|s| |s m ex]; try done; intros _; unfold SFeqb; simpl.
  - by destruct s.
  - destruct s; rewrite Z.compare_refl, Pos.compare_cont_refl; reflexivity.
Qed.

Lemma is_finite_spec (x : float) :
  PrimFloat.is_finite x = true ->
  match Prim2SF x with S754_infinity _ | S754_nan => False | _ => True end.
Proof.
  unfold PrimFloat.is_finite, PrimFloat.is_nan, PrimFloat.is_infinity.
  rewrite !FloatAxioms.eqb_spec, FloatAxioms.abs_spec.
  destruct (Prim2SF x) as [s|s| |s m ex]; try done.
  destruct s; vm_compute; discriminate.
Qed.

Lemma float64_sub_finite (x y : float) :
  PrimFloat.is_finite x = true -> PrimFloat.is_finite y = true ->
  dt_isnan (dt_sub x y) = false.
Proof.
  intros Hx Hy. simpl. unfold PrimFloat.is_nan.
  rewrite FloatAxioms.eqb_spec, FloatAxioms.sub_spec. unfold SF64sub.
  rewrite SFeqb_refl; [done|].
  apply SFsub_finite_not_nan; by apply is_finite_spec.
Qed.

End NumpyFacts.

(** ** The displacement calculator: [calc_clo_disp] *)

Section Displacement.
Import Numpy OS CAPE NumpyFacts Examples.
Context {A : Type} `{!Dtype A}.
Implicit Types (self : CAPE_utils) (a b : ndarray A).

(** C1. On two N×3 arrays with the same N, [calc_clo_disp] returns the
    N×3 array of the elementwise differences [v_cano - minimal_cano]; on
    the scenario [[1,0,0],[0,1,0]] minus zeros it returns
    [[1,0,0],[0,1,0]], for float and for integer arrays alike. *)
Theorem calc_clo_disp_elementwise self n (v_cano minimal_cano : ndarray A) :
  is_Nx3 n v_cano -> is_Nx3 n minimal_cano ->
  calc_clo_disp self v_cano minimal_cano
    = Ok (NDArray [n; 3] (zip_with dt_sub (data v_cano) (data minimal_cano)))
  /\ calc_clo_disp self v_cano_f minimal_f = Ok (of_rows 3 [[1; 0; 0]; [0; 1; 0]]%float)
  /\ calc_clo_disp self v_cano_i minimal_i = Ok (of_rows 3 [[1; 0; 0]; [0; 1; 0]]%Z).
Proof.
  intros Hv Hm. split; [|split; reflexivity].
  unfold calc_clo_disp, subtract. by apply ufunc2_Nx3.
Qed.

(** C2, as amended. For N×3 arrays [a] and [b] with the same N, the
    check [displacement(a, b) + b == a] never raises, and it holds
    exactly when the element arithmetic is exact at every position:
    [(x - y) + y == x] for each pair of corresponding elements. *)
Theorem roundtrip_iff_exact self n a b :
  is_Nx3 n a -> is_Nx3 n b ->
  (d ← calc_clo_disp self a b; s ← add d b; mret (array_equal s a))
    = Ok (forallb (fun p => dt_eqb (dt_add (dt_sub p.1 p.2) p.2) p.1)
            (zip (data a) (data b))).
Proof.
  intros Ha Hb. unfold calc_clo_disp. by apply (roundtrip_check n).
Qed.

(** C4, as amended. For an N×3 and an M×3 array with N ≠ M: when neither
    N nor M is 1 the call raises numpy's broadcasting [ValueError] and
    returns nothing; when one of them is 1, it raises nothing and returns
    the differences against that single vertex, repeated for every vertex
    of the other array. *)
Theorem calc_clo_disp_mismatch self n m a b :
  is_Nx3 n a -> is_Nx3 m b -> n <> m ->
  (n <> 1 -> m <> 1 ->
     calc_clo_disp self a b
       = Raise (ValueError "operands could not be broadcast together"))
  /\ (m = 1 ->
     calc_clo_disp self a b
       = Ok (NDArray [n; 3] (zip_with dt_sub (data a) (concat (replicate n (data b))))))
  /\ (n = 1 ->
     calc_clo_disp self a b
       = Ok (NDArray [m; 3] (zip_with dt_sub (concat (replicate m (data a))) (data b)))).
Proof.
  intros Ha Hb Hnm. unfold calc_clo_disp, subtract, ufunc2.
  rewrite (proj1 Ha), (proj1 Hb), broadcast_shapes_Nx3.
  rewrite decide_False by done. split; [|split].
  - intros Hn Hm. by rewrite !decide_False by done.
  - intros ->. destruct (decide (n = 1)) as [|_]; [done|]. simpl.
    rewrite (broadcast_to_row n b) by done.
    rewrite <- (proj1 Ha), broadcast_to_same by apply Ha. by rewrite (proj1 Ha).
  - intros ->. simpl. rewrite (broadcast_to_row m a) by done.
    rewrite <- (proj1 Hb), broadcast_to_same by apply Hb. by rewrite (proj1 Hb).
Qed.
End Displacement.

Section DisplacementDtypes.
Import Numpy OS CAPE Observe NumpyFacts Examples.

(** C1 at the scenario of the specification. *)
Lemma calc_clo_disp_scenario :
  is_Nx3 2 v_cano_f /\ is_Nx3 2 minimal_f
  /\ calc_clo_disp self0 v_cano_f minimal_f = Ok (of_rows 3 [[1; 0; 0]; [0; 1; 0]]%float).
Proof.
  assert (Hv : is_Nx3 2 v_cano_f) by (split; reflexivity).
  assert (Hm : is_Nx3 2 minimal_f) by (split; reflexivity).
  split; [exact Hv|]. split; [exact Hm|].
  exact (proj1 (calc_clo_disp_elementwise self0 2 v_cano_f minimal_f Hv Hm)).
Defined.

(** C2 fails as stated: in [float64], [1 - 1e20] rounds to [-1e20], and
    adding [1e20] back gives 0, not 1. *)
Lemma roundtrip_fails_in_float64 :
  is_Nx3 1 near_f /\ is_Nx3 1 far_f
  /\ calc_clo_disp self0 near_f far_f = Ok (of_rows 3 [[-1e20; 0; 0]]%float)
  /\ add (of_rows 3 [[-1e20; 0; 0]]%float) far_f = Ok (of_rows 3 [[0; 0; 0]]%float)
  /\ (d ← calc_clo_disp self0 near_f far_f; s ← add d far_f;
      mret (array_equal s near_f)) = Ok false.
Proof. repeat split; reflexivity. Qed.

(** C2, as amended, where the arithmetic is exact. *)
Lemma roundtrip_scenario :
  is_Nx3 2 v_cano_f /\ is_Nx3 2 minimal_f
  /\ (d ← calc_clo_disp self0 v_cano_f minimal_f; s ← add d minimal_f;
      mret (array_equal s v_cano_f)) = Ok true.
Proof.
  assert (Hv : is_Nx3 2 v_cano_f) by (split; reflexivity).
  assert (Hm : is_Nx3 2 minimal_f) by (split; reflexivity).
  split; [exact Hv|]. split; [exact Hm|].
  exact (roundtrip_iff_exact self0 2 v_cano_f minimal_f Hv Hm).
Defined.

(** Integer arrays always make the round trip: wrap-around subtraction
    is undone by wrap-around addition. *)
Lemma roundtrip_int64 self n (a b : ndarray Z) :
  is_Nx3 n a -> is_Nx3 n b -> Forall in_int64 (data a) ->
  (d ← calc_clo_disp self a b; s ← add d b; mret (array_equal s a)) = Ok true.
Proof.
  intros Ha Hb Hr.
  assert (Hall : forallb (fun p : Z * Z => dt_eqb (dt_add (dt_sub p.1 p.2) p.2) p.1)
                   (zip (data a) (data b)) = true).
  { apply forallb_forall. intros [x y] Hin. apply Z.eqb_eq.
    apply int64_sub_add. apply list_elem_of_In, elem_of_zip_l in Hin.
    by eapply Forall_forall in Hr. }
  unfold calc_clo_disp. rewrite (roundtrip_check n) by done. by f_equal.
Qed.

(** Outside the real numbers the comparison fails: a NaN coordinate
    compares unequal to itself. *)
Lemma antisymmetry_fails_on_nan :
  is_Nx3 1 undefined_f /\ is_Nx3 1 origin_f
  /\ (d ← calc_clo_disp self0 undefined_f origin_f;
      e ← calc_clo_disp self0 origin_f undefined_f;
      mret (array_equal d (negative e))) = Ok false.
Proof. repeat split; reflexivity. Qed.

(** For [float64] arrays whose displacement [d = a - b] holds no NaN,
    [displacement(a, b) == -displacement(b, a)]. *)
Lemma antisymmetric_without_nan self n (a b d : ndarray float) :
  is_Nx3 n a -> is_Nx3 n b ->
  calc_clo_disp self a b = Ok d -> has_nan d = false ->
  (d ← calc_clo_disp self a b; e ← calc_clo_disp self b a;
   mret (array_equal d (negative e))) = Ok true.
Proof.
  intros Ha Hb Hd Hnan. unfold calc_clo_disp at 1 2.
  rewrite (antisymmetry_check n) by done. f_equal.
  unfold calc_clo_disp, subtract in Hd. rewrite (ufunc2_Nx3 _ n) in Hd by done.
  injection Hd as <-. unfold has_nan in Hnan. simpl in Hnan.
  apply (forallb_zip_with dt_sub dt_isnan); [|done].
  intros x y. apply float64_sub_antisym.
Qed.

(** The displacement of real-valued arrays holds no NaN. *)
Lemma has_nan_finite_difference (da db : list float) :
  forallb PrimFloat.is_finite da = true -> forallb PrimFloat.is_finite db = true ->
  existsb dt_isnan (zip_with dt_sub da db) = false.
Proof.
  revert db. induction da as [|x da IH]; intros [|y db] Ha Hb; try done.
  cbn [forallb] in Ha, Hb. apply andb_prop in Ha as [Hx Ha]. apply andb_prop in Hb as [Hy Hb].
  cbn [zip_with existsb]. rewrite (float64_sub_finite x y Hx Hy). by apply IH.
Qed.

(** C3. For N×3 arrays [a] and [b] of real numbers with the same N --
    [float64] arrays whose entries are all finite, and [int64] arrays --
    [displacement(a, b) == -displacement(b, a)] at every position: the
    check never raises and is true.  (In [float64] the two sides may differ
    in the sign of a zero, which [==] does not see.) *)
Theorem antisymmetric_on_reals self n (a b : ndarray float) :
  is_Nx3 n a -> is_Nx3 n b -> all_finite a = true -> all_finite b = true ->
  (d ← calc_clo_disp self a b; e ← calc_clo_disp self b a;
   mret (array_equal d (negative e))) = Ok true
  /\ (forall ai bi : ndarray Z, is_Nx3 n ai -> is_Nx3 n bi ->
        (d ← calc_clo_disp self ai bi; e ← calc_clo_disp self bi ai;
         mret (array_equal d (negative e))) = Ok true).
Proof.
  intros Ha Hb Hfa Hfb. split.
  - apply (antisymmetric_without_nan self n a b
             (NDArray [n; 3] (zip_with dt_sub (data a) (data b)))); [done..| |].
    + unfold calc_clo_disp, subtract. by apply ufunc2_Nx3.
    + unfold has_nan. cbn [data]. by apply has_nan_finite_difference.
  - intros ai bi Hai Hbi. unfold calc_clo_disp.
    rewrite (antisymmetry_check n) by done. f_equal.
    apply forallb_forall. intros [x y] _. apply Z.eqb_eq, int64_sub_antisym.
Qed.

(** C3 on the arrays of the specification's scenario, and on a pair whose
    difference is rounded. *)
Lemma antisymmetric_scenario :
  is_Nx3 1 near_f /\ is_Nx3 1 far_f
  /\ all_finite near_f = true /\ all_finite far_f = true
  /\ calc_clo_disp self0 near_f far_f = Ok (of_rows 3 [[-1e20; 0; 0]]%float)
  /\ calc_clo_disp self0 far_f near_f = Ok (of_rows 3 [[1e20; 0; 0]]%float)
  /\ (d ← calc_clo_disp self0 near_f far_f; e ← calc_clo_disp self0 far_f near_f;
      mret (array_equal d (negative e))) = Ok true.
Proof.
  assert (Hv : is_Nx3 1 near_f) by (split; reflexivity).
  assert (Hm : is_Nx3 1 far_f) by (split; reflexivity).
  assert (Hfv : all_finite near_f = true) by reflexivity.
  assert (Hfm : all_finite far_f = true) by reflexivity.
  do 4 (split; [assumption|]). do 2 (split; [reflexivity|]).
  exact (proj1 (antisymmetric_on_reals self0 1 near_f far_f Hv Hm Hfv Hfm)).
Defined.

(** Integer arrays are antisymmetric without condition. *)
Lemma antisymmetric_int64 self n (a b : ndarray Z) :
  is_Nx3 n a -> is_Nx3 n b ->
  (d ← calc_clo_disp self a b; e ← calc_clo_disp self b a;
   mret (array_equal d (negative e))) = Ok true.
Proof.
  intros Ha Hb. unfold calc_clo_disp. rewrite (antisymmetry_check n) by done. f_equal.
  apply forallb_forall. intros [x y] _. apply Z.eqb_eq, int64_sub_antisym.
Qed.

(** C4 fails as stated: two vertices against one differ in vertex count,
    and the call returns. *)
Lemma mismatch_broadcasts :
  is_Nx3 2 v_cano_f /\ is_Nx3 1 single_f
  /\ calc_clo_disp self0 v_cano_f single_f
     = Ok (of_rows 3 [[0; -1; -1]; [-1; 0; -1]]%float).
Proof. repeat split; reflexivity. Qed.

(** C4, as amended, at two vertices against three. *)
Lemma mismatch_scenario :
  is_Nx3 2 v_cano_f /\ is_Nx3 3 triple_f /\ 2 <> 3 /\ 2 <> 1 /\ 3 <> 1
  /\ calc_clo_disp self0 v_cano_f triple_f
     = Raise (ValueError "operands could not be broadcast together").
Proof.
  assert (Hv : is_Nx3 2 v_cano_f) by (split; reflexivity).
  assert (Ht : is_Nx3 3 triple_f) by (split; reflexivity).
  assert (H23 : 2 <> 3) by lia. assert (H21 : 2 <> 1) by lia. assert (H31 : 3 <> 1) by lia.
  do 5 (split; [assumption|]).
  exact (proj1 (calc_clo_disp_mismatch self0 2 3 v_cano_f triple_f Hv Ht H23) H21 H31).
Defined.
End DisplacementDtypes.

(** ** Broadcasting in general: [calc_clo_disp] on arrays of any shape *)

Section BroadcastFacts.
Import Numpy OS CAPE Observe NumpyFacts Examples.
Context {A : Type}.
Implicit Types (d : list A) (s t : list nat).

Lemma chunks_length size count d : length (chunks size count d) = count.
Proof. revert d. induction count as [|c IH]; intros d; simpl; [done|]. by rewrite IH. Qed.

Lemma concat_length_uniform (k : nat) (ls : list (list A)) :
  Forall (fun l => length l = k) ls -> length (concat ls) = length ls * k.
Proof.
  induction 1 as [|l ls Hl _ IH]; simpl; [done|]. rewrite length_app, IH, Hl. lia.
Qed.

(** Laid out at a shape its own shape stretches to, an array has as many
    elements as that shape holds. *)
Lemma expand_length s t d :
  Forall2 stretches s t -> length d = size_of s -> length (expand s t d) = size_of t.
Proof.
  intros Hst. revert d. induction Hst as [|n m s t Hnm Hst IH]; intros d Hlen; [done|].
  simpl in *. set (blocks := expand s t <$> chunks (size_of s) n d).
  assert (Hblocks : Forall (fun l => length l = size_of t) blocks).
  { apply Forall_fmap. eapply Forall_impl; [apply chunks_sizes; lia|].
    intros c Hc. by apply IH. }
  assert (Hn : length blocks = n) by (unfold blocks; by rewrite length_fmap, chunks_length).
  destruct (decide (n = m)) as [<- | Hne].
  - by rewrite (concat_length_uniform (size_of t)), Hn.
  - destruct Hnm as [? | ->]; [done|].
    destruct blocks as [|b [|? ?]]; try discriminate Hn. simpl.
    rewrite (concat_length_uniform (size_of t)), length_replicate; [done|].
    apply Forall_replicate. by inversion Hblocks.
Qed.

Lemma size_of_app s t : size_of (s ++ t) = size_of s * size_of t.
Proof. induction s as [|n s IH]; simpl; [lia|]. rewrite IH. lia. Qed.

Lemma size_of_ones k : size_of (replicate k 1) = 1.
Proof. induction k as [|k IH]; simpl; [done|]. rewrite IH. lia. Qed.

Lemma size_of_pad_shape k s : size_of (pad_shape k s) = size_of s.
Proof. unfold pad_shape. rewrite size_of_app, size_of_ones. lia. Qed.

(** What [broadcast_shapes_rev] returns is as long as the longer shape,
    and both shapes, filled up with 1s, stretch to it. *)
Lemma broadcast_shapes_rev_stretches s1 s2 t :
  broadcast_shapes_rev s1 s2 = Some t ->
  Forall2 stretches (s1 ++ replicate (length t - length s1) 1) t
  /\ Forall2 stretches (s2 ++ replicate (length t - length s2) 1) t.
Proof.
  assert (Hones : forall s : list nat,
            Forall2 stretches (replicate (length s) 1) s).
  { intros s. induction s; simpl; constructor; [by right|done]. }
  assert (Hself : forall s : list nat, Forall2 stretches s s).
  { intros s. induction s; constructor; [by left|done]. }
  revert s2 t. induction s1 as [|d1 r1 IH]; intros s2 t Hb.
  { assert (t = s2) as -> by (destruct s2; simpl in Hb; by simplify_eq).
    replace (length s2 - length (@nil nat)) with (length s2) by (simpl; lia).
    rewrite Nat.sub_diag, app_nil_r. simpl. split; auto. }
  destruct s2 as [|d2 r2].
  { simpl in Hb. simplify_eq.
    replace (length (d1 :: r1) - length (@nil nat)) with (length (d1 :: r1)) by (simpl; lia).
    rewrite Nat.sub_diag, app_nil_r.
    split; [apply Hself | apply (Hones (d1 :: r1))]. }
  simpl in Hb. destruct (broadcast_shapes_rev r1 r2) as [r|] eqn:Hr; [|done].
  destruct (IH r2 r Hr) as [H1 H2].
  repeat case_decide; simplify_eq; simpl; split; constructor; unfold stretches; auto.
Qed.

Lemma broadcast_shapes_stretches s1 s2 t :
  broadcast_shapes s1 s2 = Some t ->
  Forall2 stretches (pad_shape (length t) s1) t
  /\ Forall2 stretches (pad_shape (length t) s2) t.
Proof.
  unfold broadcast_shapes. intros Hb.
  destruct (broadcast_shapes_rev (reverse s1) (reverse s2)) as [r|] eqn:Hr; [|done].
  simpl in Hb. simplify_eq.
  destruct (broadcast_shapes_rev_stretches _ _ _ Hr) as [H1 H2].
  rewrite !length_reverse in *. unfold pad_shape.
  split.
  - apply Forall2_reverse in H1. by rewrite reverse_app, reverse_replicate,
      reverse_involutive in H1.
  - apply Forall2_reverse in H2. by rewrite reverse_app, reverse_replicate,
      reverse_involutive in H2.
Qed.

(** The broadcasting rule does not depend on the order of the operands. *)
Lemma broadcast_shapes_rev_comm s1 s2 :
  broadcast_shapes_rev s1 s2 = broadcast_shapes_rev s2 s1.
Proof.
  revert s2. induction s1 as [|d1 r1 IH]; intros [|d2 r2]; simpl; try done.
  rewrite (IH r2). destruct (broadcast_shapes_rev r2 r1); [|done].
  repeat case_decide; simplify_eq; done.
Qed.

Lemma broadcast_shapes_comm s1 s2 : broadcast_shapes s1 s2 = broadcast_shapes s2 s1.
Proof. unfold broadcast_shapes. by rewrite broadcast_shapes_rev_comm. Qed.

Lemma broadcast_to_length (a : ndarray A) t :
  wf a -> Forall2 stretches (pad_shape (length t) (shape a)) t ->
  length (broadcast_to a t) = size_of t.
Proof.
  intros Hwf Hst. unfold broadcast_to. apply expand_length; [done|].
  by rewrite size_of_pad_shape.
Qed.

Context `{!Dtype A}.

(** X5. On well-formed arrays of any shapes, [calc_clo_disp] raises
    exactly when numpy's rule finds no common shape; otherwise it returns a
    well-formed array of the common shape. *)
Theorem calc_clo_disp_well_formed (self : CAPE_utils) (a b : ndarray A) :
  wf a -> wf b ->
  match broadcast_shapes (shape a) (shape b) with
  | Some t => exists r : ndarray A, calc_clo_disp self a b = Ok r /\ shape r = t /\ wf r
  | None => calc_clo_disp self a b
            = Raise (ValueError "operands could not be broadcast together")
  end.
Proof.
  intros Ha Hb. unfold calc_clo_disp, subtract, ufunc2.
  destruct (broadcast_shapes (shape a) (shape b)) as [t|] eqn:Ht; [|done].
  destruct (broadcast_shapes_stretches _ _ _ Ht) as [H1 H2].
  eexists. split; [reflexivity|]. split; [done|]. unfold wf. simpl.
  rewrite length_zip_with, !broadcast_to_length by done. lia.
Qed.

(** X6. Whether [calc_clo_disp] accepts two arrays does not depend on
    their order, and neither does the shape of what it returns. *)
Theorem calc_clo_disp_accepts_symmetrically (self : CAPE_utils) (a b : ndarray A) :
  ((exists e, calc_clo_disp self a b = Raise e)
   <-> (exists e, calc_clo_disp self b a = Raise e))
  /\ (forall r r' : ndarray A,
        calc_clo_disp self a b = Ok r -> calc_clo_disp self b a = Ok r' ->
        shape r = shape r').
Proof.
  unfold calc_clo_disp, subtract, ufunc2. rewrite (broadcast_shapes_comm (shape b)).
  destruct (broadcast_shapes (shape a) (shape b)); split.
  - split; intros [e He]; discriminate.
  - intros r r' [= <-] [= <-]. done.
  - split; eauto.
  - intros r r' [=].
Qed.
End BroadcastFacts.

Section BroadcastExamples.
Import Numpy OS CAPE Observe NumpyFacts Examples.

Lemma calc_clo_disp_well_formed_scenario :
  wf v_cano_f /\ wf single_f
  /\ broadcast_shapes (shape v_cano_f) (shape single_f) = Some [2; 3]
  /\ exists r : ndarray float,
       calc_clo_disp self0 v_cano_f single_f = Ok r /\ shape r = [2; 3] /\ wf r.
Proof.
  assert (Ha : wf v_cano_f) by reflexivity. assert (Hb : wf single_f) by reflexivity.
  do 3 (split; [first [assumption | reflexivity]|]).
  exact (calc_clo_disp_well_formed self0 v_cano_f single_f Ha Hb).
Defined.
End BroadcastExamples.

(** ** The displacement of a shape from itself *)

Section ZeroDisplacement.
Import Numpy OS CAPE Observe NumpyFacts Examples.

(** A finite binary64 value minus itself is zero. *)
Lemma SFsub_diag_finite p e X :
  match X with S754_infinity _ | S754_nan => False | _ => True end ->
  SFsub p e X X = S754_zero false.
Proof.
  destruct X as [[]|s| |s m ex]; simpl; try done. intros _.
  by rewrite Z.sub_diag.
Qed.

Lemma float64_sub_diag (x : float) :
  PrimFloat.is_finite x = true -> PrimFloat.eqb (PrimFloat.sub x x) 0 = true.
Proof.
  unfold PrimFloat.is_finite, PrimFloat.is_nan, PrimFloat.is_infinity.
  rewrite !FloatAxioms.eqb_spec, FloatAxioms.abs_spec, FloatAxioms.sub_spec.
  intros Hfin. unfold SF64sub. rewrite SFsub_diag_finite; [reflexivity|].
  destruct (Prim2SF x) as [s|s| |s m ex]; try done.
  destruct s; vm_compute in Hfin; discriminate.
Qed.

(** X7. For a well-formed [float64] array whose entries are all finite,
    and for every well-formed [int64] array, the displacement of the array
    from itself has the array's shape and is zero at every position. *)
Theorem calc_clo_disp_self_is_zero (self : CAPE_utils) (a : ndarray float) :
  wf a -> all_finite a = true ->
  (exists d, calc_clo_disp self a a = Ok d /\ shape d = shape a
             /\ length (data d) = length (data a)
             /\ forallb (fun x => PrimFloat.eqb x 0) (data d) = true)
  /\ (forall ai : ndarray Z, wf ai ->
        calc_clo_disp self ai ai
        = Ok (NDArray (shape ai) (replicate (length (data ai)) 0%Z))).
Proof.
  intros Hwf Hfin. split.
  - unfold calc_clo_disp, subtract. rewrite ufunc2_same_shape by done.
    eexists. split; [reflexivity|]. simpl. split; [done|].
    split; [rewrite length_zip_with; lia|].
    unfold all_finite in Hfin. induction (data a) as [|x l IH]; [done|].
    cbn [forallb] in Hfin. apply andb_prop in Hfin as [Hx Hl].
    cbn [zip_with forallb]. rewrite IH by done.
    cbn [dt_sub float64]. by rewrite float64_sub_diag.
  - intros ai Hai. unfold calc_clo_disp, subtract. rewrite ufunc2_same_shape by done.
    do 2 f_equal. induction (data ai) as [|x l IH]; [done|].
    cbn [zip_with length replicate]. rewrite IH. f_equal.
    cbn [dt_sub int64]. by rewrite Z.sub_diag.
Qed.

Lemma calc_clo_disp_self_is_zero_scenario :
  wf posed_f /\ all_finite posed_f = true
  /\ calc_clo_disp self0 posed_f posed_f = Ok (of_rows 3 [[0; 0; 0]; [0; 0; 0]]%float)
  /\ exists d, calc_clo_disp self0 posed_f posed_f = Ok d /\ shape d = shape posed_f
               /\ length (data d) = length (data posed_f)
               /\ forallb (fun x => PrimFloat.eqb x 0) (data d) = true.
Proof.
  assert (Hwf : wf posed_f) by reflexivity.
  assert (Hfin : all_finite posed_f = true) by reflexivity.
  do 3 (split; [first [assumption | reflexivity]|]).
  exact (proj1 (calc_clo_disp_self_is_zero self0 posed_f Hwf Hfin)).
Defined.
End ZeroDisplacement.

(** ** The colour weights of the demo *)

Section Weights.
Import Numpy OS CAPE Observe NumpyFacts Examples.

(** Rounding keeps the sign it is given, so a value rounded as positive
    is not below zero. *)
Lemma binary_round_aux_not_negative p e (m : Z) ex l :
  SFltb (binary_round_aux p e false m ex l) (S754_zero false) = false.
Proof.
  unfold binary_round_aux.
  destruct (shr_fexp p e m ex l) as [mrs' e'].
  destruct (shr_fexp p e _ e' loc_Exact) as [mrs'' e''].
  destruct (shr_m mrs''); try reflexivity. by case_match.
Qed.

Lemma SFsqrt_not_negative p e x : SFltb (SFsqrt p e x) (S754_zero false) = false.
Proof.
  destruct x as [s|[]| |[] m ex]; try reflexivity.
  unfold SFsqrt. destruct (SFsqrt_core_binary _ _ _ _) as [[mz ez] lz].
  apply binary_round_aux_not_negative.
Qed.

(** A square root is never below zero (it may be NaN). *)
Lemma sqrt_not_negative (x : float) : PrimFloat.ltb (PrimFloat.sqrt x) 0 = false.
Proof.
  rewrite FloatAxioms.ltb_spec, FloatAxioms.sqrt_spec. apply SFsqrt_not_negative.
Qed.

(** X8. For an N x 3 clothed shape and an N x 3 minimal shape, the
    displacement and its norm along the last axis are both defined, and
    the norm -- the colour weights of the demo -- is an array of N values,
    one per vertex, none of them below zero. *)
Theorem displacement_norm_per_vertex (self : CAPE_utils) (n : nat)
    (v_cano minimal_cano : ndarray float) :
  is_Nx3 n v_cano -> is_Nx3 n minimal_cano ->
  exists (disps vc : ndarray float),
    calc_clo_disp self v_cano minimal_cano = Ok disps
    /\ linalg_norm_last_axis disps = Ok vc
    /\ shape vc = [n] /\ length (data vc) = n
    /\ forallb (fun x => negb (PrimFloat.ltb x 0)) (data vc) = true.
Proof.
  intros Ha Hb. unfold calc_clo_disp, subtract.
  rewrite (ufunc2_Nx3 _ n) by done.
  eexists _, _. split; [reflexivity|]. split; [reflexivity|].
  cbn [shape data reverse]. split; [reflexivity|]. split.
  - rewrite length_fmap, chunks_length. cbn. lia.
  - generalize (chunks 3 (size_of (reverse [n]))
                  (zip_with dt_sub (data v_cano) (data minimal_cano))).
    intros rows. induction rows as [|row rows IH]; [done|].
    cbn [fmap list_fmap forallb]. by rewrite sqrt_not_negative.
Qed.

Lemma displacement_norm_per_vertex_scenario :
  is_Nx3 2 v_cano_f /\ is_Nx3 2 minimal_f
  /\ (d ← calc_clo_disp self0 v_cano_f minimal_f; linalg_norm_last_axis d)
     = Ok (NDArray [2] [1; 1]%float)
  /\ exists (disps vc : ndarray float),
       calc_clo_disp self0 v_cano_f minimal_f = Ok disps
       /\ linalg_norm_last_axis disps = Ok vc
       /\ shape vc = [2] /\ length (data vc) = 2
       /\ forallb (fun x => negb (PrimFloat.ltb x 0)) (data vc) = true.
Proof.
  assert (Ha : is_Nx3 2 v_cano_f) by (split; reflexivity).
  assert (Hb : is_Nx3 2 minimal_f) by (split; reflexivity).
  split; [exact Ha|]. split; [exact Hb|]. split; [vm_compute; reflexivity|].
  exact (displacement_norm_per_vertex self0 2 v_cano_f minimal_f Ha Hb).
Defined.
End Weights.

(** ** Statements, and the file system they run on *)

Section FileSystem.
Import Numpy OS CAPE Observe Examples.
Implicit Types (self : CAPE_utils) (w : world) (path : string).

(** Running a sequence of two statements. *)
Lemma bind_ok {X Y} (m : io X) (k : X -> io Y) w (x : X) w' :
  m w = (Ok x, w') -> (m ≫= k) w = k x w'.
Proof. unfold mbind, io_bind. by intros ->. Qed.

Lemma bind_raise {X Y} (m : io X) (k : X -> io Y) w (e : exception) w' :
  m w = (Raise e, w') -> (m ≫= k) w = (Raise e, w').
Proof. unfold mbind, io_bind. by intros ->. Qed.

Lemma for_each_cons {X} (x : X) (l : list X) (body : X -> io unit) w :
  for_each (x :: l) body w
  = match body x w with
    | (Ok _, w') => for_each l body w'
    | (Raise e, w') => (Raise e, w')
    end.
Proof. reflexivity. Qed.

Lemma for_each_ext {X} (l : list X) (f g : X -> io unit) w :
  (forall x w', f x w' = g x w') -> for_each l f w = for_each l g w.
Proof.
  intros Hfg. revert w. induction l as [|x l IH]; intros w; [done|].
  rewrite !for_each_cons, Hfg. destruct (g x w) as [[[]|e] w1]; [apply IH | done].
Qed.

(** A name the world records as a file is that file. *)
Lemma lookup_file w path (f : file) : files w !! path = Some f -> lookup w path = IsFile f.
Proof. intros H. unfold lookup. by rewrite H. Qed.

Lemma open_read_file w path (f : file) :
  files w !! path = Some f -> open_read path w = (Ok f, w).
Proof. intros H. unfold open_read. by rewrite (lookup_file _ _ _ H). Qed.

(** Reads leave the world as it was. *)
Lemma open_read_world path w : (open_read path w).2 = w.
Proof. unfold open_read. by destruct (lookup w path). Qed.

Lemma np_load_world path w : (np_load path w).2 = w.
Proof.
  unfold np_load, mbind, io_bind. pose proof (open_read_world path w) as H.
  destruct (open_read path w) as [[f|e] w1]; simpl in H; subst; [|done]. by destruct f.
Qed.

Lemma pkl_load_world path w : (pkl_load path w).2 = w.
Proof.
  unfold pkl_load, mbind, io_bind. pose proof (open_read_world path w) as H.
  destruct (open_read path w) as [[f|e] w1]; simpl in H; subst; [|done]. by destruct f.
Qed.

Lemma mesh_from_file_world path w : (mesh_from_file path w).2 = w.
Proof.
  unfold mesh_from_file, mbind, io_bind. pose proof (open_read_world path w) as H.
  destruct (open_read path w) as [[f|e] w1]; simpl in H; subst; [|done]. by destruct f.
Qed.

Lemma listdir_world path w : (listdir path w).2 = w.
Proof. unfold listdir. by destruct (lookup w path). Qed.

(** Reading an archive, an array, a table. *)
Lemma np_load_npz path w (entries : gmap string (ndarray float)) :
  files w !! path = Some (Npz entries) -> np_load path w = (Ok (Archive entries), w).
Proof. intros Hf. unfold np_load. by erewrite bind_ok by (by apply open_read_file). Qed.

Lemma np_load_npy path w (a : ndarray float) :
  files w !! path = Some (Npy a) -> np_load path w = (Ok (Array a), w).
Proof. intros Hf. unfold np_load. by erewrite bind_ok by (by apply open_read_file). Qed.

Lemma pkl_load_ok path w (table : gmap string string) :
  files w !! path = Some (Pkl table) -> pkl_load path w = (Ok table, w).
Proof. intros Hf. unfold pkl_load. by erewrite bind_ok by (by apply open_read_file). Qed.

Lemma load_global_ok name w (v : string) :
  globals w !! name = Some v -> load_global name w = (Ok v, w).
Proof. intros Hg. unfold load_global. by rewrite Hg. Qed.

Lemma load_single_frame_ok self fn w (fr : frame) :
  frame_at w fn fr -> load_single_frame self fn w = (Ok fr, w).
Proof.
  intros (entries & Hf & Hvc & Hvp & Hp & Ht). destruct fr as [[[vc vp] p] t].
  unfold load_single_frame. erewrite bind_ok by (by apply np_load_npz).
  unfold lift, getitem, mbind, io_bind. cbn [fst snd] in *. by rewrite Hvc, Hvp, Hp, Ht.
Qed.

Lemma load_single_frame_world self fn w : (load_single_frame self fn w).2 = w.
Proof.
  unfold load_single_frame. unfold mbind at 1, io_bind at 1.
  pose proof (np_load_world fn w) as H.
  destruct (np_load fn w) as [[d|e] w1]; simpl in H; subst; [|done].
  unfold lift, mbind, io_bind, mret, io_ret. by repeat case_match.
Qed.

(** What only a regular file makes [np.load] return: a load that returns
    has found a file. *)
Lemma np_load_found path w (d : loaded) :
  (np_load path w).1 = Ok d -> exists f, lookup w path = IsFile f.
Proof.
  unfold np_load, open_read, mbind, io_bind.
  destruct (lookup w path) as [f| | |]; [by eexists|done..].
Qed.

(** *** Creating directories and writing files *)

Lemma makedirs_cases path w :
  makedirs path w = (Ok tt, add_dirs path w)
  \/ exists e, makedirs path w = (Raise e, w)
               /\ class_name e ∈ ["FileNotFoundError"; "FileExistsError"; "NotADirectoryError"].
Proof.
  assert (Hb : forall chain below e, blocked w chain below = Some e ->
                 class_name e = "NotADirectoryError").
  { induction chain as [|p up IH]; intros below e; simpl; [done|].
    destruct (lookup w p); try done; [by intros [= <-] | apply IH..]. }
  unfold makedirs. case_bool_decide; [right; eexists; split; [done|in_list]|].
  destruct (lookup w path); [right; eexists; split; [done|in_list] | by left | |].
  all: destruct (blocked w _ path) as [e|] eqn:E; [|by left].
  all: right; exists e; split; [done|]; rewrite (Hb _ _ _ E); in_list.
Qed.

Lemma write_file_cases path (c : file) w :
  write_file path c w = (Ok tt, store path c w)
  \/ exists e, write_file path c w = (Raise e, w)
               /\ class_name e ∈ ["FileNotFoundError"; "IsADirectoryError"; "NotADirectoryError"].
Proof.
  unfold write_file. destruct (lookup w path) as [f|k|[]|]; [by left| |by left| |].
  all: right; eexists; split; [done|in_list].
Qed.

(** Writing to a name the world records as a file replaces that file. *)
Lemma write_file_over path (c f : file) w :
  files w !! path = Some f -> write_file path c w = (Ok tt, store path c w).
Proof. intros H. unfold write_file. by rewrite (lookup_file _ _ _ H). Qed.

(** A name that can be written to is not a directory. *)
Lemma node_store_dir q (c : file) w k key :
  (write_file q c w).1 = Ok tt -> node w k = IsDir key -> node (store q c w) k = IsDir key.
Proof.
  intros Hok. unfold node. destruct (always_there k); [done|]. cbn [files dirs store].
  destruct (files w !! k) as [f|] eqn:Hf; [done|].
  destruct (decide (k ∈ dirs w)) as [Hin|]; [|done]. intros H.
  destruct (decide (q = k)) as [-> | Hne].
  - exfalso. unfold write_file, lookup in Hok. rewrite Hf in Hok.
    by rewrite decide_True in Hok.
  - by rewrite lookup_insert_ne, Hf by done.
Qed.

Lemma node_store_file q (c : file) w k (f : file) :
  node w k = IsFile f -> exists f', node (store q c w) k = IsFile f'.
Proof.
  unfold node. destruct (always_there k); [done|]. cbn [files dirs store].
  destruct (decide (q = k)) as [-> | Hne].
  - rewrite lookup_insert_eq. by eexists.
  - rewrite lookup_insert_ne by done. destruct (files w !! k); [by eexists|].
    by case_decide.
Qed.

Lemma node_store_free q (c : file) w k :
  node w k = NoEntry true ->
  node (store q c w) k = NoEntry true \/ exists f', node (store q c w) k = IsFile f'.
Proof.
  unfold node. destruct (always_there k); [done|]. cbn [files dirs store].
  destruct (decide (q = k)) as [-> | Hne].
  - rewrite lookup_insert_eq. right. by eexists.
  - rewrite lookup_insert_ne by done. destruct (files w !! k); [done|].
    case_decide; [done|]. by left.
Qed.

Lemma walk_store q (c : file) w k comps :
  (write_file q c w).1 = Ok tt -> kept (walk w k comps) (walk (store q c w) k comps).
Proof.
  intros Hok. revert k. induction comps as [|x rest IH]; intros k; cbn [walk].
  - destruct (node w k) as [f|key|[]|] eqn:E; cbn; try done.
    + by eapply node_store_file.
    + by apply node_store_dir.
    + by apply node_store_free.
  - destruct (node w k) as [f|key|b|] eqn:E; try done.
    rewrite (node_store_dir q c w k key Hok E). repeat case_match; apply IH.
Qed.

Lemma lookup_store q (c : file) w path :
  (write_file q c w).1 = Ok tt -> kept (lookup w path) (lookup (store q c w) path).
Proof.
  intros Hok. unfold lookup at 2. cbn [files dirs store].
  destruct (decide (q = path)) as [-> | Hne].
  - rewrite lookup_insert_eq. unfold write_file in Hok.
    destruct (lookup w path) as [f|key|[]|]; cbn; try done; eauto.
  - rewrite lookup_insert_ne by done. unfold lookup.
    destruct (files w !! path); [cbn; eauto|].
    case_decide; [done|]. case_bool_decide; [done|]. by apply walk_store.
Qed.

(** So a write leaves every other name as writable as it was, and every
    directory in place. *)
Lemma write_file_still q (c c' c'' : file) w path :
  (write_file q c w).1 = Ok tt ->
  (write_file path c' w).1 = Ok tt -> (write_file path c'' (store q c w)).1 = Ok tt.
Proof.
  intros Hq Hp. pose proof (lookup_store q c w path Hq) as Hk.
  unfold write_file in *. destruct (lookup w path) as [f|key|[]|]; try done; cbn in Hk.
  - by destruct Hk as [f' ->].
  - by destruct Hk as [-> | [f' ->]].
Qed.

Lemma present_still q (c : file) w path :
  (write_file q c w).1 = Ok tt -> present w path = true -> present (store q c w) path = true.
Proof.
  intros Hq Hp. pose proof (lookup_store q c w path Hq) as Hk.
  unfold present in *. destruct (lookup w path) as [f|key|[]|]; try done; cbn in Hk.
  - by destruct Hk as [f' ->].
  - by rewrite Hk.
Qed.

Lemma writable_still q (c : file) w path :
  (write_file q c w).1 = Ok tt -> writable w path -> writable (store q c w) path.
Proof.
  intros Hq [Hd Hw]. split.
  - destruct Hd as [Hd | Hd]; [by left | right; by apply present_still].
  - by eapply write_file_still.
Qed.

(** The directory a successful [os.makedirs] leaves is there. *)
Lemma add_dirs_there path w : path <> "" -> path ∈ dirs (add_dirs path w).
Proof.
  intros Hne. unfold add_dirs. cbn [dirs]. apply elem_of_union_l, elem_of_list_to_set.
  destruct path as [|a s]; [done|]. cbn [String.length ancestors].
  rewrite bool_decide_eq_false_2 by done. by left.
Qed.

Lemma present_dir w path : path ∈ dirs w -> present w path = true.
Proof.
  intros Hin. unfold present, lookup. destruct (files w !! path); [done|].
  by rewrite decide_True.
Qed.

(** [psbody.mesh]'s [write_obj]: when it returns, the file is there and
    nothing else has changed but directories; when it raises, no file has
    changed. *)
Lemma write_obj_cases (m : mesh) path w :
  (exists w1, write_obj m path w = (Ok tt, store path (Obj m) w1)
              /\ files w1 = files w /\ dirs w ⊆ dirs w1 /\ globals w1 = globals w
              /\ stdin w1 = stdin w /\ permutation w1 = permutation w /\ log w1 = log w
              /\ (write_file path (Obj m) w1).1 = Ok tt
              /\ (dirname path = "" \/ present w1 (dirname path) = true))
  \/ (exists e w1, write_obj m path w = (Raise e, w1)
                   /\ files w1 = files w /\ dirs w ⊆ dirs w1 /\ globals w1 = globals w
                   /\ stdin w1 = stdin w /\ permutation w1 = permutation w /\ log w1 = log w
                   /\ class_name e ∈ ["FileNotFoundError"; "FileExistsError";
                                      "NotADirectoryError"; "IsADirectoryError"]).
Proof.
  assert (Hfin : forall w1, files w1 = files w -> dirs w ⊆ dirs w1 -> globals w1 = globals w ->
            stdin w1 = stdin w -> permutation w1 = permutation w -> log w1 = log w ->
            (dirname path = "" \/ present w1 (dirname path) = true) ->
            (exists w2, write_file path (Obj m) w1 = (Ok tt, store path (Obj m) w2)
               /\ files w2 = files w /\ dirs w ⊆ dirs w2 /\ globals w2 = globals w
               /\ stdin w2 = stdin w /\ permutation w2 = permutation w /\ log w2 = log w
               /\ (write_file path (Obj m) w2).1 = Ok tt
               /\ (dirname path = "" \/ present w2 (dirname path) = true))
            \/ (exists e w2, write_file path (Obj m) w1 = (Raise e, w2)
               /\ files w2 = files w /\ dirs w ⊆ dirs w2 /\ globals w2 = globals w
               /\ stdin w2 = stdin w /\ permutation w2 = permutation w /\ log w2 = log w
               /\ class_name e ∈ ["FileNotFoundError"; "FileExistsError";
                                  "NotADirectoryError"; "IsADirectoryError"])).
  { intros w1 H1 H2 H3 H4 H5 H6 H7.
    destruct (write_file_cases path (Obj m) w1) as [Hok | (e & He & Hc)].
    - left. exists w1. rewrite Hok. by repeat split.
    - right. exists e, w1. rewrite He. repeat split; try done.
      apply list_elem_of_In in Hc. apply list_elem_of_In. simpl in *. tauto. }
  unfold write_obj. case_bool_decide as Hd.
  - erewrite bind_ok by reflexivity. apply Hfin; try done. by left.
  - destruct (present w (dirname path)) eqn:Hp.
    + erewrite bind_ok; [apply (Hfin w); try done; by right|].
      unfold mbind, io_bind, exists_. by rewrite Hp.
    + destruct (makedirs_cases (dirname path) w) as [Hok | (e & He & Hc)].
      * erewrite bind_ok;
          [apply (Hfin (add_dirs (dirname path) w)); try done|].
        -- unfold add_dirs. cbn [dirs]. apply union_subseteq_r.
        -- right. by apply present_dir, add_dirs_there.
        -- unfold mbind, io_bind, exists_. by rewrite Hp.
      * right. exists e, w. erewrite bind_raise.
        -- repeat split; try done. revert Hc. clear. intros Hc.
           apply list_elem_of_In in Hc. apply list_elem_of_In. simpl in *. tauto.
        -- unfold mbind, io_bind, exists_. by rewrite Hp.
Qed.
End FileSystem.

(** ** The loop of [extract_mesh_seq] *)

Section ExtractionLoop.
Import Numpy OS CAPE Observe Examples.
Implicit Types (self : CAPE_utils) (w : world) (fr : frame).

(** *** What [glob] returns are names the world records *)

Lemma string_app_nil_r (s : string) : s +:+ "" = s.
Proof. induction s as [|c s IH]; [done|]. change (String c (s +:+ "") = String c s). by rewrite IH. Qed.

Lemma string_app_assoc (s t u : string) : (s +:+ t) +:+ u = s +:+ t +:+ u.
Proof.
  induction s as [|c s IH]; [done|].
  change (String c ((s +:+ t) +:+ u) = String c (s +:+ t +:+ u)). by rewrite IH.
Qed.

Lemma substring_all (p : string) : String.substring 0 (String.length p) p = p.
Proof.
  induction p as [|b p IH]; [done|].
  change (String b (String.substring 0 (String.length p) p) = String b p). by rewrite IH.
Qed.

Lemma prefix_split (pre p : string) :
  String.prefix pre p = true ->
  p = pre +:+ String.substring (String.length pre) (String.length p - String.length pre) p.
Proof.
  revert p. induction pre as [|a pre IH]; intros p H.
  - change (p = String.substring 0 (String.length p - 0) p).
    by rewrite Nat.sub_0_r, substring_all.
  - destruct p as [|b p]; [done|]. cbn [String.prefix] in H.
    destruct (Ascii.ascii_dec a b) as [-> | ]; [|done].
    change (String b p
            = String b (pre +:+ String.substring (String.length pre)
                                  (String.length p - String.length pre) p)).
    f_equal. by apply IH.
Qed.

Lemma relative_name (n : string) : contains_sep n = false -> String.prefix "/" n = false.
Proof.
  destruct n as [|c n]; [done|]. cbn [contains_sep String.prefix]. intros H.
  destruct (Ascii.ascii_dec "/" c) as [<- | ]; [done | done].
Qed.

Lemma child_name_join (dir p n : string) : child_name dir p = Some n -> join2 dir n = p.
Proof.
  unfold child_name. destruct (String.prefix (join2 dir "") p) eqn:Hpre; [|done].
  apply prefix_split in Hpre.
  set (m := String.substring _ _ p) in *. clearbody m. subst p.
  destruct (bool_decide (m = "")) eqn:Hm; [done|].
  destruct (contains_sep m) eqn:Hs; [done|]. intros [= <-].
  unfold join2. rewrite (relative_name m) by done. cbn [String.prefix].
  destruct (bool_decide (dir = "") || endswith_sep dir).
  - by rewrite string_app_nil_r.
  - by rewrite string_app_nil_r, string_app_assoc.
Qed.

Lemma glob_match_self (pattern p q : string) : glob_match pattern p = Some q -> q = p.
Proof.
  unfold glob_match. destruct (child_name (dirname pattern) p) as [n|] eqn:Hn; [|done].
  cbn. case_match; [|done]. intros [= <-]. by apply child_name_join.
Qed.

Lemma glob_recorded (pattern : string) w (flist : list string) :
  (glob pattern w).1 = Ok flist -> Forall (fun fn => fn ∈ dom (files w) ∪ dirs w) flist.
Proof.
  unfold glob. cbn. intros [= <-]. apply Forall_forall. intros q Hq.
  apply list_elem_of_omap in Hq as (p & Hp & Hm).
  apply glob_match_self in Hm as ->. unfold entries in Hp. by apply elem_of_elements in Hp.
Qed.

Lemma omap_nil {X Y} (g : X -> option Y) (l : list X) :
  omap g l = [] <-> Forall (fun x => g x = None) l.
Proof.
  induction l as [|x l IH]; cbn; [by split; [constructor|]|].
  destruct (g x) eqn:E; split; try done.
  - intros H. by inversion H; simplify_eq.
  - intros H. constructor; [done | by apply IH].
  - intros H. inversion H; simplify_eq. by apply IH.
Qed.

(** Creating directories that the pattern does not match leaves its
    empty listing empty. *)
Lemma glob_empty_add_dirs (pattern d : string) w :
  (glob pattern w).1 = Ok [] ->
  Forall (fun a => glob_match pattern a = None) (ancestors (String.length d) d) ->
  (glob pattern (add_dirs d w)).1 = Ok [].
Proof.
  unfold glob. cbn [fst]. intros [= H0] Hanc. f_equal. apply omap_nil.
  apply omap_nil in H0. apply Forall_forall. intros x Hx.
  unfold entries, add_dirs in Hx. cbn [files dirs] in Hx.
  apply elem_of_elements in Hx.
  assert (Hold : forall y, y ∈ dom (files w) ∪ dirs w -> glob_match pattern y = None).
  { intros y Hy. eapply Forall_forall in H0; [done|]. unfold entries.
    by apply elem_of_elements. }
  apply elem_of_union in Hx as [Hx | Hx].
  - apply Hold. by apply elem_of_union_l.
  - apply elem_of_union in Hx as [Hx | Hx].
    + apply elem_of_list_to_set in Hx. by eapply Forall_forall in Hanc.
    + apply Hold. by apply elem_of_union_r.
Qed.

(** *** One frame *)

(** A load that returns, of a name the world records, has read a frame
    archive recorded under that name. *)
Lemma load_single_frame_cases self fn w :
  fn ∈ dom (files w) ∪ dirs w ->
  (exists e, load_single_frame self fn w = (Raise e, w))
  \/ (exists fr, frame_at w fn fr /\ load_single_frame self fn w = (Ok fr, w)).
Proof.
  intros Hin.
  assert (Hlk : (exists f, files w !! fn = Some f /\ lookup w fn = IsFile f)
                \/ lookup w fn = IsDir fn).
  { unfold lookup. destruct (files w !! fn) as [f|] eqn:Hf; [left; by eexists|].
    right. rewrite decide_True; [done|]. apply elem_of_union in Hin as [Hin | Hin]; [|done].
    apply elem_of_dom in Hin as [? ?]. congruence. }
  unfold load_single_frame, np_load, open_read, lift, raise, getitem, frame_at,
    mbind, io_bind, mret, io_ret.
  destruct Hlk as [(f & Hf & ->) | ->]; [|left; by eexists].
  repeat (case_match; simplify_eq/=; eauto).
  right. eexists (_, _, _, _). split; [|reflexivity]. eexists. by repeat split.
Qed.

(** The two mesh libraries write the same file when they can write. *)
Lemma write_mesh_cases self (m : mesh) (path : string) w :
  known_backend self = true ->
  exists writer : mesh -> string -> io unit,
    (forall (option mesh_dir fn : string) fr w',
       load_single_frame self fn w' = (Ok fr, w') ->
       extract_frame self option mesh_dir fn w'
       = writer (Mesh (select_verts option fr) (faces self) None) (mesh_path mesh_dir fn) w')
    /\ ((exists w1, writer m path w = (Ok tt, store path (Obj m) w1)
                    /\ files w1 = files w /\ dirs w ⊆ dirs w1 /\ log w1 = log w)
        \/ (exists e w1, writer m path w = (Raise e, w1)
                         /\ files w1 = files w /\ dirs w ⊆ dirs w1 /\ log w1 = log w))
    /\ (writable w path -> writer m path w = (Ok tt, store path (Obj m) w)).
Proof.
  unfold known_backend. intros Hk.
  destruct (bool_decide (mesh_lib self = "trimesh")) eqn:Ht.
  - exists export. split; [|split].
    + intros option mesh_dir fn fr w' Hl. unfold extract_frame.
      erewrite bind_ok by exact Hl. by rewrite Ht.
    + unfold export. destruct (write_file_cases path (Obj m) w) as [-> | (e & -> & _)].
      * left. by exists w.
      * right. by exists e, w.
    + intros [_ Hw]. unfold export, write_file in *.
      by destruct (lookup w path) as [f|k|[]|].
  - cbn in Hk. exists write_obj. split; [|split].
    + intros option mesh_dir fn fr w' Hl. unfold extract_frame.
      erewrite bind_ok by exact Hl. by rewrite Ht, Hk.
    + destruct (write_obj_cases m path w)
        as [(w1 & -> & ? & ? & ? & ? & ? & ? & ?) | (e & w1 & -> & ? & ? & ? & ? & ? & ? & ?)].
      * left. by exists w1.
      * right. by exists e, w1.
    + intros [Hd Hw]. unfold write_obj.
      assert (Hwf : write_file path (Obj m) w = (Ok tt, store path (Obj m) w)).
      { unfold write_file in *. by destruct (lookup w path) as [f|k|[]|]. }
      destruct (bool_decide (dirname path = "")) eqn:Hdn.
      * by erewrite bind_ok by reflexivity.
      * apply bool_decide_eq_false in Hdn. destruct Hd as [Hd | Hd]; [done|].
        erewrite bind_ok; [exact Hwf|].
        unfold mbind, io_bind, exists_. by rewrite Hd.
Qed.

Lemma extract_frame_unknown self (option mesh_dir fn : string) fr w :
  known_backend self = false ->
  load_single_frame self fn w = (Ok fr, w) ->
  extract_frame self option mesh_dir fn w = (Ok tt, w).
Proof.
  unfold known_backend. intros Hk Hl. apply orb_false_elim in Hk as [H1 H2].
  unfold extract_frame. erewrite bind_ok by exact Hl. by rewrite H1, H2.
Qed.

Lemma writes_store path (content : file) w :
  writes (log (store path content w)) = writes (log w) ++ [(path, content)].
Proof. unfold store. cbn. unfold writes. by rewrite omap_app. Qed.

Lemma writes_snoc_other (l : list event) (e : event) :
  match e with Written _ _ => False | _ => True end -> writes (l ++ [e]) = writes l.
Proof. intros He. unfold writes. rewrite omap_app. destruct e; simpl; by rewrite ?app_nil_r. Qed.

Lemma frame_at_mono w0 w fn fr :
  (forall p e, files w !! p = Some (Npz e) -> files w0 !! p = Some (Npz e)) ->
  frame_at w fn fr -> frame_at w0 fn fr.
Proof. intros Hinv (e & Hf & H). exists e. split; [by apply Hinv | done]. Qed.

(** *** The loop *)

(** The frames it gets through are the first of the list, each an archive
    that was there at the start; a frame whose mesh cannot be written ends
    the loop. *)
Lemma for_each_extract_frame_in_order self (option mesh_dir : string) w0 flist w :
  (forall p e, files w !! p = Some (Npz e) -> files w0 !! p = Some (Npz e)) ->
  Forall (fun fn => fn ∈ dom (files w) ∪ dirs w) flist ->
  exists frames : list frame,
    Forall2 (frame_at w0) (take (length frames) flist) frames
    /\ length frames <= length flist
    /\ writes (log (for_each flist (extract_frame self option mesh_dir) w).2)
       = writes (log w)
         ++ (if known_backend self
             then zip_with (frame_write self option mesh_dir) flist frames else [])
    /\ ((for_each flist (extract_frame self option mesh_dir) w).1 = Ok tt ->
        length frames = length flist).
Proof.
  revert w. induction flist as [|fn flist IH]; intros w Hinv Hrec.
  { exists []. cbn. split; [constructor|]. split; [done|]. split; [|done].
    destruct (known_backend self); by rewrite app_nil_r. }
  apply Forall_cons in Hrec as [Hfn Hrec].
  assert (Hstop : forall e w1, log w1 = log w ->
            extract_frame self option mesh_dir fn w = (Raise e, w1) ->
            exists frames : list frame,
              Forall2 (frame_at w0) (take (length frames) (fn :: flist)) frames
              /\ length frames <= length (fn :: flist)
              /\ writes (log (for_each (fn :: flist) (extract_frame self option mesh_dir) w).2)
                 = writes (log w)
                   ++ (if known_backend self
                       then zip_with (frame_write self option mesh_dir) (fn :: flist) frames
                       else [])
              /\ ((for_each (fn :: flist) (extract_frame self option mesh_dir) w).1 = Ok tt ->
                  length frames = length (fn :: flist))).
  { intros e w1 Hlog He. exists []. rewrite for_each_cons, He. cbn.
    split; [constructor|]. split; [lia|]. split; [|done].
    rewrite Hlog. destruct (known_backend self); by rewrite app_nil_r. }
  destruct (load_single_frame_cases self fn w Hfn) as [[e He] | (fr & Hfr & Hl)].
  { apply (Hstop e w); [done|]. unfold extract_frame. by erewrite bind_raise. }
  destruct (known_backend self) eqn:Hk.
  - destruct (write_mesh_cases self (Mesh (select_verts option fr) (faces self) None)
                (mesh_path mesh_dir fn) w Hk) as (writer & Hex & Hcases & _).
    destruct Hcases as [(w1 & Hw & Hf1 & Hd1 & Hl1) | (e & w1 & Hw & Hf1 & Hd1 & Hl1)].
    2: { apply (Hstop e w1); [done|]. by rewrite (Hex _ _ _ _ _ Hl). }
    rewrite for_each_cons, (Hex _ _ _ _ _ Hl), Hw.
    set (w' := store _ _ w1).
    destruct (IH w') as (frames & Hall & Hlen & Hwr & Hok).
    { intros p e. subst w'. unfold store. cbn [files]. intros Hp. apply Hinv. rewrite <- Hf1.
      destruct (decide (mesh_path mesh_dir fn = p)) as [Heq | Hne].
      - rewrite Heq, lookup_insert_eq in Hp. discriminate.
      - by rewrite lookup_insert_ne in Hp. }
    { eapply Forall_impl; [exact Hrec|]. intros q Hq. subst w'. unfold store. cbn [files dirs].
      rewrite dom_insert, Hf1. apply elem_of_union in Hq as [Hq | Hq].
      - by apply elem_of_union_l, elem_of_union_r.
      - by apply elem_of_union_r, Hd1. }
    exists (fr :: frames). cbn. split; [|split; [|split]].
    + constructor; [by eapply frame_at_mono | done].
    + lia.
    + rewrite Hwr. subst w'. by rewrite writes_store, Hl1, <- (assoc_L (++)).
    + intros H. by rewrite Hok.
  - rewrite for_each_cons, (extract_frame_unknown _ _ _ _ _ _ Hk Hl).
    destruct (IH w Hinv Hrec) as (frames & Hall & Hlen & Hwr & Hok).
    exists (fr :: frames). cbn. split; [|split; [|split]].
    + constructor; [by eapply frame_at_mono | done].
    + lia.
    + by rewrite Hwr.
    + intros H. by rewrite Hok.
Qed.

(** The loop on a sequence that is all there and can be written. *)
Lemma for_each_extract_frame_all self (option mesh_dir : string) flist :
  known_backend self = true ->
  forall (frames : list frame) w,
  Forall2 (frame_at w) flist frames ->
  Forall (fun fn => mesh_path mesh_dir fn ∉ flist) flist ->
  Forall (fun fn => writable w (mesh_path mesh_dir fn)) flist ->
  (for_each flist (extract_frame self option mesh_dir) w).1 = Ok tt
  /\ writes (log (for_each flist (extract_frame self option mesh_dir) w).2)
     = writes (log w) ++ zip_with (frame_write self option mesh_dir) flist frames
  /\ (forall p m, files w !! p = Some (Obj m) ->
        exists m', files (for_each flist (extract_frame self option mesh_dir) w).2 !! p
                   = Some (Obj m'))
  /\ Forall (fun fn =>
               exists m, files (for_each flist (extract_frame self option mesh_dir) w).2
                           !! mesh_path mesh_dir fn = Some (Obj m)) flist.
Proof.
  intros Hk. induction flist as [|fn flist IH]; intros frames w Hall Hfree Hwr.
  { cbn. rewrite app_nil_r. repeat split; [eauto | constructor]. }
  destruct frames as [|fr frames]; [by apply Forall2_length in Hall|].
  apply Forall2_cons in Hall as [Hfr Hall].
  apply Forall_cons in Hfree as [Hfn Hfree].
  apply Forall_cons in Hwr as [Hw Hwr].
  set (m := Mesh (select_verts option fr) (faces self) None).
  destruct (write_mesh_cases self m (mesh_path mesh_dir fn) w Hk) as (writer & Hex & _ & Hgo).
  rewrite for_each_cons, (Hex _ _ _ _ _ (load_single_frame_ok self _ _ _ Hfr)).
  fold m. rewrite (Hgo Hw).
  set (w1 := store (mesh_path mesh_dir fn) (Obj m) w).
  assert (Hfiles : files w1 = <[mesh_path mesh_dir fn := Obj m]> (files w)) by reflexivity.
  assert (Hwrote : (write_file (mesh_path mesh_dir fn) (Obj m) w).1 = Ok tt).
  { destruct Hw as [_ Hw]. unfold write_file in *.
    by destruct (lookup w (mesh_path mesh_dir fn)) as [f|k|[]|]. }
  assert (Hstill : forall l fs, Forall2 (frame_at w) l fs -> mesh_path mesh_dir fn ∉ l ->
                     Forall2 (frame_at w1) l fs).
  { intros l fs H. induction H as [|a b l fs Hab H' IHl]; intros Hn; constructor.
    - destruct Hab as (e & Hf & Hr). exists e. split; [|done].
      rewrite Hfiles, lookup_insert_ne; [done|]. intros Heq. apply Hn. rewrite Heq. by left.
    - apply IHl. intros Hin. apply Hn. by right. }
  destruct (IH frames w1) as (Hok & Hwrs & Hkeep & Hthere).
  { apply Hstill; [done|]. intros Hin. apply Hfn. by right. }
  { eapply Forall_impl; [exact Hfree|]. cbn. intros fn' Hn Hin. apply Hn. by right. }
  { eapply Forall_impl; [exact Hwr|]. cbn. intros fn' Hw'. by apply writable_still. }
  split; [done|]. split; [|split].
  - rewrite Hwrs. subst w1. by rewrite writes_store, <- (assoc_L (++)).
  - intros p m0 Hp. destruct (decide (p = mesh_path mesh_dir fn)) as [-> | Hne].
    + eapply Hkeep. rewrite Hfiles. apply lookup_insert_eq.
    + eapply (Hkeep p m0). by rewrite Hfiles, lookup_insert_ne.
  - constructor; [|done]. eapply Hkeep. rewrite Hfiles. apply lookup_insert_eq.
Qed.

(** *** Before the loop *)

Lemma extract_mesh_seq_unfold self (subj seq_name option : string) w (flist : list string) :
  (makedirs (join (dataset_dir self) ["meshes"; subj; seq_name; option]) w).1 = Ok tt ->
  (glob (join (join (dataset_dir self) ["sequences"; subj; seq_name]) ["*.npz"])
     (add_dirs (join (dataset_dir self) ["meshes"; subj; seq_name; option]) w)).1
    = Ok flist ->
  extract_mesh_seq self subj seq_name option w
  = for_each flist
      (extract_frame self option (join (dataset_dir self) ["meshes"; subj; seq_name; option]))
      (logged [Printed ("Extracting meshes of " +:+ subj +:+ " " +:+ seq_name
                        +:+ " (" +:+ option +:+ ")..")]
         (add_dirs (join (dataset_dir self) ["meshes"; subj; seq_name; option]) w)).
Proof.
  intros Hmk Hg. unfold extract_mesh_seq.
  destruct (makedirs_cases (join (dataset_dir self) ["meshes"; subj; seq_name; option]) w)
    as [Hok | (e & He & _)]; [|by rewrite He in Hmk].
  erewrite bind_ok by exact Hok.
  unfold glob in *. cbn [fst] in Hg. injection Hg as <-.
  erewrite bind_ok by reflexivity. by erewrite bind_ok by reflexivity.
Qed.

Lemma extract_mesh_seq_blocked self (subj seq_name option : string) w (e : exception) :
  (makedirs (join (dataset_dir self) ["meshes"; subj; seq_name; option]) w).1 = Raise e ->
  extract_mesh_seq self subj seq_name option w = (Raise e, w).
Proof.
  intros Hmk. unfold extract_mesh_seq.
  destruct (makedirs_cases (join (dataset_dir self) ["meshes"; subj; seq_name; option]) w)
    as [Hok | (e' & He & _)]; [by rewrite Hok in Hmk|].
  rewrite He in Hmk. injection Hmk as ->. by erewrite bind_raise by exact He.
Qed.

(** What the file system answers depends on its files and directories only. *)
Lemma walk_same w w' k comps :
  files w' = files w -> dirs w' = dirs w -> walk w' k comps = walk w k comps.
Proof.
  intros Hf Hd. revert k. induction comps as [|c comps IH]; intros k; cbn [walk];
    unfold node; rewrite Hf, Hd; [done|].
  destruct (always_there k); [|destruct (files w !! k); [done|destruct (decide _); [|done]]];
    repeat case_match; apply IH.
Qed.

Lemma lookup_same w w' path :
  files w' = files w -> dirs w' = dirs w -> lookup w' path = lookup w path.
Proof.
  intros Hf Hd. unfold lookup. rewrite Hf, Hd. by rewrite (walk_same w w') by done.
Qed.

Lemma writable_same w w' path :
  files w' = files w -> dirs w' = dirs w -> writable w path -> writable w' path.
Proof.
  intros Hf Hd [H1 H2]. split.
  - unfold present in *. by rewrite (lookup_same w w').
  - unfold write_file in *. rewrite (lookup_same w w') by done.
    by destruct (lookup w path) as [f|k|[]|].
Qed.

(** *** The whole call *)

(** The frames worked through, in the order of the listing. *)
Lemma extract_mesh_seq_in_order self (subj seq_name option : string) w :
  exists (flist : list string) (frames : list frame),
    (glob (join (join (dataset_dir self) ["sequences"; subj; seq_name]) ["*.npz"])
       (add_dirs (join (dataset_dir self) ["meshes"; subj; seq_name; option]) w)).1
      = Ok flist
    /\ Forall2 (frame_at w) (take (length frames) flist) frames
    /\ length frames <= length flist
    /\ writes (log (extract_mesh_seq self subj seq_name option w).2)
       = writes (log w)
         ++ (if known_backend self
             then zip_with (frame_write self option
                              (join (dataset_dir self) ["meshes"; subj; seq_name; option]))
                    flist frames
             else [])
    /\ ((extract_mesh_seq self subj seq_name option w).1 = Ok tt ->
        length frames = length flist).
Proof.
  set (mesh_dir := join (dataset_dir self) ["meshes"; subj; seq_name; option]).
  set (pattern := join (join (dataset_dir self) ["sequences"; subj; seq_name]) ["*.npz"]).
  assert (exists flist, (glob pattern (add_dirs mesh_dir w)).1 = Ok flist) as [flist Hg]
    by (by eexists).
  exists flist.
  destruct (makedirs mesh_dir w) as [[[]|e] wm] eqn:Hmk.
  - assert (Hmk' : (makedirs mesh_dir w).1 = Ok tt) by by rewrite Hmk.
    rewrite (extract_mesh_seq_unfold _ _ _ _ _ _ Hmk' Hg). fold mesh_dir.
    match goal with |- context [for_each flist _ ?w1] => set (w1' := w1) end.
    destruct (for_each_extract_frame_in_order self option mesh_dir w flist w1')
      as (frames & Hall & Hlen & Hwr & Hok); [done | |].
    { eapply Forall_impl; [exact (glob_recorded _ _ _ Hg)|]. done. }
    exists frames. split; [done|]. split; [done|]. split; [done|]. split; [|done].
    rewrite Hwr. subst w1'. unfold logged. cbn [log add_dirs]. by rewrite writes_snoc_other.
  - assert (Hmk' : (makedirs mesh_dir w).1 = Raise e) by by rewrite Hmk.
    rewrite (extract_mesh_seq_blocked _ _ _ _ _ _ Hmk').
    exists []. cbn. split; [done|]. split; [constructor|]. split; [lia|]. split; [|done].
    destruct (known_backend self); by rewrite ?zip_with_nil_r, app_nil_r.
Qed.

(** On a sequence that is all there, with a directory for the meshes and
    every mesh writable, the call gets through every frame. *)
Lemma extract_mesh_seq_runs self (subj seq_name option : string) w
    (flist : list string) (frames : list frame) :
  known_backend self = true ->
  (makedirs (join (dataset_dir self) ["meshes"; subj; seq_name; option]) w).1 = Ok tt ->
  (glob (join (join (dataset_dir self) ["sequences"; subj; seq_name]) ["*.npz"])
     (add_dirs (join (dataset_dir self) ["meshes"; subj; seq_name; option]) w)).1
    = Ok flist ->
  Forall2 (frame_at w) flist frames ->
  Forall (fun fn => mesh_path (join (dataset_dir self) ["meshes"; subj; seq_name; option]) fn
                    ∉ flist) flist ->
  Forall (fun fn =>
            writable (add_dirs (join (dataset_dir self) ["meshes"; subj; seq_name; option]) w)
              (mesh_path (join (dataset_dir self) ["meshes"; subj; seq_name; option]) fn))
    flist ->
  (extract_mesh_seq self subj seq_name option w).1 = Ok tt
  /\ writes (log (extract_mesh_seq self subj seq_name option w).2)
     = writes (log w)
       ++ zip_with (frame_write self option
                      (join (dataset_dir self) ["meshes"; subj; seq_name; option]))
            flist frames
  /\ Forall (fun fn =>
               exists m, files (extract_mesh_seq self subj seq_name option w).2
                           !! mesh_path (join (dataset_dir self)
                                           ["meshes"; subj; seq_name; option]) fn
                         = Some (Obj m)) flist.
Proof.
  intros Hk Hmk Hg Hall Hfree Hwr. rewrite (extract_mesh_seq_unfold _ _ _ _ _ _ Hmk Hg).
  match goal with |- context [for_each flist _ ?w1] => set (w1' := w1) end.
  destruct (for_each_extract_frame_all self option
              (join (dataset_dir self) ["meshes"; subj; seq_name; option]) flist Hk frames w1')
    as (Hok & Hwrs & _ & Hthere); [done | done | |].
  { eapply Forall_impl; [exact Hwr|]. cbn. intros fn. by apply writable_same. }
  split; [done|]. split; [|done].
  rewrite Hwrs. subst w1'. unfold logged. cbn [log add_dirs]. by rewrite writes_snoc_other.
Qed.

(** *** A sequence directory without frames *)


End ExtractionLoop.

(** ** How statements compose *)

Section Composition.
Import Numpy OS CAPE Observe NumpyFacts Examples.
Implicit Types (self : CAPE_utils) (w : world).






(** Statements that touch neither files nor directories. *)
Lemma tracks_quiet {X} (m : io X) :
  (forall w, files (m w).2 = files w /\ dirs (m w).2 = dirs w
             /\ writes (log (m w).2) = writes (log w)) ->
  tracks_its_writes m.
Proof.
  intros H w. destruct (H w) as (Hf & Hd & Hl). exists []. unfold written_since.
  rewrite Hf, Hd, Hl, app_nil_r. repeat split; done.
Qed.









Lemma tracks_listdir dir : tracks_its_writes (listdir dir).
Proof. apply tracks_quiet. intros w. unfold listdir. by repeat case_match. Qed.







End Composition.

(** ** Statements that leave the module namespace alone *)

Section NameBinding.
Import Numpy OS CAPE Observe NumpyFacts Examples.
Implicit Types (self : CAPE_utils) (w : world) (g : gmap string string).

Lemma binds_ret {X} g (x : X) : binds_its_names g (mret x : io X).
Proof. by intros w Hg. Qed.

Lemma binds_bind {X Y} g (m : io X) (k : X -> io Y) :
  binds_its_names g m -> (forall x, binds_its_names g (k x)) -> binds_its_names g (m ≫= k).
Proof.
  intros Hm Hk w Hg. unfold mbind, io_bind. destruct (Hm w Hg) as [Hg1 Hn1].
  destruct (m w) as [[x|e] w1]; simpl in *; [by apply Hk|].
  split; [done|]. intros name [= ->]. by eapply Hn1.
Qed.

Lemma binds_for_each {X} g (l : list X) (body : X -> io unit) :
  (forall x, binds_its_names g (body x)) -> binds_its_names g (for_each l body).
Proof.
  intros Hbody. induction l as [|x l IH]; simpl; [apply binds_ret|].
  apply binds_bind; [apply Hbody|]. by intros _.
Qed.

(** Statements that do not touch the module namespace and raise no
    [NameError]. *)
Lemma binds_plain {X} g (m : io X) :
  (forall w, globals (m w).2 = globals w
             /\ forall name, (m w).1 <> Raise (NameError name)) ->
  binds_its_names g m.
Proof. intros H w Hg. destruct (H w) as [Hw Hn]. by rewrite Hw. Qed.

Lemma binds_lift {X} g (r : result X) :
  (forall name, r <> Raise (NameError name)) -> binds_its_names g (lift r).
Proof. intros Hr. by apply binds_plain. Qed.

Lemma binds_emit g (e : event) : binds_its_names g (emit e).
Proof. by apply binds_plain. Qed.

Lemma binds_open_read g path : binds_its_names g (open_read path).
Proof. apply binds_plain. intros w. unfold open_read. by repeat case_match. Qed.

Lemma binds_np_load g path : binds_its_names g (np_load path).
Proof.
  apply binds_bind; [apply binds_open_read|].
  intros []; first [apply binds_ret | by apply binds_plain].
Qed.

Lemma binds_pkl_load g path : binds_its_names g (pkl_load path).
Proof.
  apply binds_bind; [apply binds_open_read|].
  intros []; first [apply binds_ret | by apply binds_plain].
Qed.

Lemma binds_mesh_from_file g path : binds_its_names g (mesh_from_file path).
Proof.
  apply binds_bind; [apply binds_open_read|].
  intros []; first [apply binds_ret | by apply binds_plain].
Qed.

Lemma binds_listdir g dir : binds_its_names g (listdir dir).
Proof. apply binds_plain. intros w. unfold listdir. by repeat case_match. Qed.

Lemma binds_input g text : binds_its_names g (input text).
Proof. apply binds_plain. intros w. unfold input. by case_match. Qed.

Lemma binds_exists g path : binds_its_names g (exists_ path).
Proof. by apply binds_plain. Qed.

Lemma binds_makedirs g path : binds_its_names g (makedirs path).
Proof.
  apply binds_plain. intros w.
  destruct (makedirs_cases path w) as [-> | (e & -> & He)]; [done|].
  split; [done|]. intros name [= ->]. cbn in He.
  apply list_elem_of_In in He. cbn in He.
  destruct He as [He | [He | [He | []]]]; discriminate He.
Qed.

Lemma binds_write_file g path content : binds_its_names g (write_file path content).
Proof.
  apply binds_plain. intros w.
  destruct (write_file_cases path content w) as [-> | (e & -> & He)]; [done|].
  split; [done|]. intros name [= ->]. cbn in He.
  apply list_elem_of_In in He. cbn in He.
  destruct He as [He | [He | [He | []]]]; discriminate He.
Qed.

Lemma binds_export g (m : mesh) path : binds_its_names g (export m path).
Proof. apply binds_write_file. Qed.

Lemma binds_write_obj g (m : mesh) path : binds_its_names g (write_obj m path).
Proof.
  unfold write_obj. apply binds_bind; [|intros _; apply binds_write_file].
  case_bool_decide; [apply binds_ret|].
  apply binds_bind; [apply binds_exists|]. intros []; [apply binds_ret | apply binds_makedirs].
Qed.

Lemma binds_load_global g name :
  is_Some (g !! name) -> binds_its_names g (load_global name).
Proof.
  intros [v Hv] w Hg. unfold load_global. rewrite Hg, Hv. simpl. by split.
Qed.

(** The pure calls of the methods raise no [NameError]. *)
Lemma getitem_no_NameError (data : loaded) key name :
  getitem data key <> Raise (NameError name).
Proof. unfold getitem. by repeat case_match. Qed.

Lemma index_no_NameError {X} (l : list X) i name : index l i <> Raise (NameError name).
Proof. unfold index. by case_match. Qed.

Lemma binds_load_single_frame g self fn : binds_its_names g (load_single_frame self fn).
Proof.
  unfold load_single_frame.
  repeat (apply binds_bind;
          [first [apply binds_np_load | apply binds_lift; intros ?; apply getitem_no_NameError]
          |intros ?]).
  apply binds_ret.
Qed.

Lemma binds_extract_mesh_seq g self (subj seq_name option : string) :
  binds_its_names g (extract_mesh_seq self subj seq_name option).
Proof.
  unfold extract_mesh_seq.
  apply binds_bind; [apply binds_makedirs|]. intros _.
  apply binds_bind; [by apply binds_plain|]. intros flist.
  apply binds_bind; [apply binds_emit|]. intros _.
  apply binds_for_each. intros fn. unfold extract_frame.
  apply binds_bind; [apply binds_load_single_frame|]. intros fr.
  repeat case_match; first [apply binds_export | apply binds_write_obj | apply binds_ret].
Qed.

Lemma binds_vis_overlap g self (subj seq_name : string) (vis_num : Z) :
  binds_its_names g (vis_overlap self subj seq_name vis_num).
Proof.
  unfold vis_overlap.
  repeat (apply binds_bind;
          [first [by apply binds_plain
                 | (case_match; first [apply binds_emit | apply binds_ret
                                      | by apply binds_plain])]
          |intros ?]).
  apply binds_for_each. intros i. unfold inspect.
  repeat (apply binds_bind;
          [first [apply binds_lift; intros ?;
                    first [apply index_no_NameError | apply getitem_no_NameError]
                 | apply binds_mesh_from_file | apply binds_np_load
                 | apply binds_write_obj | apply binds_emit | apply binds_input]
          |intros ?]).
  apply binds_ret.
Qed.

(** Where the module namespace binds [dataset_dir], [demo] leaves the
    namespace alone and raises no [NameError]. *)
Lemma binds_demo g self (subj seq_name : string) :
  is_Some (g !! "dataset_dir") -> binds_its_names g (demo self subj seq_name).
Proof.
  intros Hd. unfold demo, print, show.
  repeat (apply binds_bind;
          [first [apply binds_pkl_load | by apply binds_load_global | apply binds_np_load
                 | apply binds_listdir | apply binds_emit | apply binds_load_single_frame
                 | apply binds_lift; intros ?;
                     first [apply index_no_NameError
                           | unfold as_vertices, calc_clo_disp, subtract, ufunc2,
                               linalg_norm_last_axis; by repeat case_match]]
          |let x := fresh in intros x;
           lazymatch type of x with
           | (_ * _ * _ * _)%type => destruct x as [[[? ?] ?] ?]
           | _ => idtac
           end]).
  apply binds_emit.
Qed.
End NameBinding.

(** ** The loop of [vis_overlap] *)

Section OverlapLoop.
Import Numpy OS CAPE Observe Examples.
Implicit Types (self : CAPE_utils) (w : world) (i : nat).

Lemma sorted_length (l : list string) : length (sorted l) = length l.
Proof. unfold sorted. apply Permutation_length, merge_sort_Permutation. Qed.

Lemma writes_logged_prints (l : list event) (es : list event) :
  Forall (fun e => match e with Written _ _ => False | _ => True end) es ->
  writes (l ++ es) = writes l.
Proof.
  intros H. unfold writes. rewrite omap_app.
  induction H as [|e es He _ IH]; cbn; [by rewrite app_nil_r|].
  destruct e; try done; exact IH.
Qed.

Lemma missing_messages_prints self (subj seq_name : string) w :
  Forall (fun e => match e with Written _ _ => False | _ => True end)
    (missing_messages self subj seq_name w).
Proof. unfold missing_messages. repeat case_match; repeat constructor. Qed.

(** What [vis_overlap] does before its loop: it reports the directories
    it does not find, lists both, and compares the counts. *)
Lemma vis_overlap_unfold self (subj seq_name : string) (vis_num : Z) w
    (aligns scans : list string) :
  (glob (join (join (dataset_dir self) ["sequences"; subj; seq_name]) ["*.npz"]) w).1
    = Ok aligns ->
  (glob (join (join (dataset_dir self) ["raw_scans"; subj; seq_name]) ["*.ply"]) w).1
    = Ok scans ->
  vis_overlap self subj seq_name vis_num w
  = if bool_decide (length (sorted aligns) = length (sorted scans))
    then for_each (slice_to vis_num (permutation w (length (sorted scans))))
           (inspect self subj seq_name (sorted aligns) (sorted scans))
           (logged (missing_messages self subj seq_name w) w)
    else (Raise AssertionError, logged (missing_messages self subj seq_name w) w).
Proof.
  intros Ha Hs.
  assert (Hga : forall w', files w' = files w -> dirs w' = dirs w ->
            glob (join (join (dataset_dir self) ["sequences"; subj; seq_name]) ["*.npz"]) w'
            = (Ok aligns, w')).
  { intros w' Hf Hd. unfold glob, entries in *. cbn [fst] in Ha. rewrite Hf, Hd.
    f_equal. exact Ha. }
  assert (Hgs : forall w', files w' = files w -> dirs w' = dirs w ->
            glob (join (join (dataset_dir self) ["raw_scans"; subj; seq_name]) ["*.ply"]) w'
            = (Ok scans, w')).
  { intros w' Hf Hd. unfold glob, entries in *. cbn [fst] in Hs. rewrite Hf, Hd.
    f_equal. exact Hs. }
  assert (Hpr : forall w' q, files w' = files w -> dirs w' = dirs w ->
            exists_ q w' = (Ok (present w q), w')).
  { intros w' q Hf Hd. unfold exists_, present. by rewrite (lookup_same w w'). }
  clear Ha Hs. unfold vis_overlap, missing_messages.
  erewrite bind_ok by reflexivity.
  destruct (present w (join (dataset_dir self) ["sequences"; subj; seq_name])); cbn [negb].
  all: erewrite bind_ok by reflexivity.
  all: erewrite bind_ok by (apply Hpr; reflexivity).
  all: destruct (present w (join (dataset_dir self) ["raw_scans"; subj; seq_name]));
    cbn [negb].
  all: erewrite bind_ok by reflexivity.
  all: erewrite bind_ok by (apply Hga; reflexivity).
  all: erewrite bind_ok by (apply Hgs; reflexivity).
  all: case_bool_decide;
    [erewrite bind_ok by reflexivity; erewrite bind_ok by reflexivity
    |erewrite bind_raise by reflexivity].
  all: unfold logged; destruct w; cbn; by rewrite ?app_nil_r, <- ?(assoc_L (++)).
Qed.

(** [write_obj] to the file it has just written succeeds. *)
Lemma write_obj_again (m m' : mesh) path w :
  (write_file path (Obj m) w).1 = Ok tt ->
  dirname path = "" \/ present w (dirname path) = true ->
  write_obj m' path (store path (Obj m) w)
  = (Ok tt, store path (Obj m') (store path (Obj m) w)).
Proof.
  intros Hw Hd. unfold write_obj.
  assert (Hwf : write_file path (Obj m') (store path (Obj m) w)
                = (Ok tt, store path (Obj m') (store path (Obj m) w))).
  { eapply write_file_over. unfold store. cbn [files]. apply lookup_insert_eq. }
  destruct (bool_decide (dirname path = "")) eqn:Hdn.
  - by erewrite bind_ok by reflexivity.
  - apply bool_decide_eq_false in Hdn. destruct Hd as [Hd | Hd]; [done|].
    erewrite bind_ok; [exact Hwf|].
    unfold mbind, io_bind, exists_. by rewrite (present_still _ _ _ _ Hw Hd).
Qed.

Lemma write_obj_writable (m : mesh) path w :
  writable w path -> write_obj m path w = (Ok tt, store path (Obj m) w).
Proof.
  intros [Hd Hw]. unfold write_obj.
  assert (Hwf : write_file path (Obj m) w = (Ok tt, store path (Obj m) w)).
  { unfold write_file in *. by destruct (lookup w path) as [f|k|[]|]. }
  destruct (bool_decide (dirname path = "")) eqn:Hdn.
  - by erewrite bind_ok by reflexivity.
  - apply bool_decide_eq_false in Hdn. destruct Hd as [Hd | Hd]; [done|].
    erewrite bind_ok; [exact Hwf|].
    unfold mbind, io_bind, exists_. by rewrite Hd.
Qed.

Section Run.
Context (self : CAPE_utils) (subj seq_name : string).

(** One iteration either stops before it writes anything, or writes the
    scan and then the alignment to one and the same file. *)
Lemma inspect_collides (aligns_list scans_list : list string) i w :
  (exists e w1, inspect self subj seq_name aligns_list scans_list i w = (Raise e, w1)
                /\ files w1 = files w /\ log w1 = log w)
  \/ (exists (mscan malign : mesh) (r : result unit) (w' : world),
       inspect self subj seq_name aligns_list scans_list i w = (r, w')
       /\ scan_and_alignment self (i, mscan, malign)
       /\ log w' = log w ++ [Written (overlap_png self subj seq_name i) (Obj mscan);
                             Written (overlap_png self subj seq_name i) (Obj malign);
                             Shown (0, 0) [mscan; malign];
                             Prompted "Press Enter to continue"]
       /\ files w' = <[overlap_png self subj seq_name i := Obj malign]>
                       (<[overlap_png self subj seq_name i := Obj mscan]> (files w))).
Proof.
  unfold inspect.
  destruct (index scans_list i) as [scan_fn|e] eqn:Hsi.
  2: { left. exists e, w. by erewrite bind_raise by reflexivity. }
  erewrite bind_ok by reflexivity.
  pose proof (mesh_from_file_world scan_fn w) as Hwm.
  destruct (mesh_from_file scan_fn w) as [[m|e] wm] eqn:Hm; cbn in Hwm; subst wm.
  2: { left. exists e, w. by erewrite bind_raise by exact Hm. }
  erewrite bind_ok by exact Hm.
  destruct (index aligns_list i) as [align_fn|e] eqn:Hai.
  2: { left. exists e, w. by erewrite bind_raise by reflexivity. }
  erewrite bind_ok by reflexivity.
  pose proof (np_load_world align_fn w) as Hwl.
  destruct (np_load align_fn w) as [[data|e] wl] eqn:Hl; cbn in Hwl; subst wl.
  2: { left. exists e, w. by erewrite bind_raise by exact Hl. }
  erewrite bind_ok by exact Hl.
  destruct (getitem data "v_posed") as [valign|e] eqn:Hv.
  2: { left. exists e, w. by erewrite bind_raise by reflexivity. }
  erewrite bind_ok by reflexivity.
  cbv zeta. fold (overlap_png self subj seq_name i).
  set (mscan := set_vertex_colors _ _). set (malign := set_vertex_colors _ _).
  destruct (write_obj_cases mscan (overlap_png self subj seq_name i) w)
    as [(w1 & Hw1 & Hf1 & Hd1 & Hg1 & Hs1 & Hp1 & Hl1 & Hwf & Hpres)
       | (e & w1 & Hw1 & Hf1 & Hd1 & Hg1 & Hs1 & Hp1 & Hl1 & _)].
  2: { left. exists e, w1. by erewrite bind_raise by exact Hw1. }
  erewrite bind_ok by exact Hw1.
  erewrite bind_ok by (by apply write_obj_again).
  erewrite bind_ok by reflexivity.
  right. exists mscan, malign.
  destruct (stdin w) as [|line rest] eqn:Hin.
  - eexists (Raise EOFError), _. split.
    { erewrite bind_raise; [reflexivity|]. unfold input. cbn [stdin store]. rewrite Hs1.
      reflexivity. }
    split; [done|]. cbn [log files store]. rewrite Hl1, Hf1, <- !(assoc_L (++)). done.
  - eexists (Ok tt), _. split.
    { erewrite bind_ok; [reflexivity|]. unfold input. cbn [stdin store]. rewrite Hs1.
      reflexivity. }
    split; [done|]. cbn [log files store]. rewrite Hl1, Hf1, <- !(assoc_L (++)). done.
Qed.

(** The loop: the indices whose files it writes are the first of those
    it was given, all of them when it returns; every write it makes belongs
    to a pair, and each file written ends up holding an alignment. *)
Lemma for_each_inspect_collides (aligns_list scans_list : list string) idx w :
  exists inspected : list (nat * mesh * mesh),
    writes (log (for_each idx (inspect self subj seq_name aligns_list scans_list) w).2)
      = writes (log w) ++ concat (writes_of_iteration self subj seq_name <$> inspected)
    /\ Forall (scan_and_alignment self) inspected
    /\ inspected.*1.*1 `prefix_of` idx
    /\ ((for_each idx (inspect self subj seq_name aligns_list scans_list) w).1 = Ok tt ->
        inspected.*1.*1 = idx)
    /\ (forall path,
          alignment_at w path \/ path ∈ overlap_png self subj seq_name <$> inspected.*1.*1 ->
          alignment_at (for_each idx (inspect self subj seq_name aligns_list scans_list) w).2
            path).
Proof.
  revert w. induction idx as [|i idx IH]; intros w.
  { exists []. cbn. split; [symmetry; apply app_nil_r|].
    repeat split; [constructor|done|].
    intros path [H|H]; [done|]. by apply elem_of_nil in H. }
  rewrite for_each_cons.
  destruct (inspect_collides aligns_list scans_list i w)
    as [(e & w0 & -> & Hf0 & Hl0)|(mscan & malign & r & w1 & -> & Hcol & Hlog & Hfiles)].
  { exists []. cbn. rewrite Hl0. split; [symmetry; apply app_nil_r|].
    split; [constructor|]. split; [apply prefix_nil|]. split; [done|].
    intros path [H|H]; [|by apply elem_of_nil in H].
    unfold alignment_at in *. by rewrite Hf0. }
  assert (Hw1 : writes (log w1)
                = writes (log w) ++ writes_of_iteration self subj seq_name (i, mscan, malign)).
  { rewrite Hlog. unfold writes. by rewrite omap_app. }
  assert (Hkeep : forall path,
            alignment_at w path \/ path = overlap_png self subj seq_name i ->
            alignment_at w1 path).
  { intros path Hp. unfold alignment_at. rewrite Hfiles.
    destruct (decide (path = overlap_png self subj seq_name i)) as [->|Hne].
    - exists malign. rewrite lookup_insert_eq. split; [done|apply Hcol].
    - rewrite !lookup_insert_ne by done. by destruct Hp. }
  destruct r as [[]|e].
  - destruct (IH w1) as (rest & Hwr & Hall & Hpre & Hok & Hfin).
    exists ((i, mscan, malign) :: rest). cbn [fmap list_fmap concat fst].
    rewrite Hwr, Hw1, <- (assoc_L (++)). split; [done|]. split; [by constructor|].
    split; [by apply prefix_cons|]. split; [intros H; by rewrite Hok|].
    intros path [H|H]; apply Hfin.
    + left. apply Hkeep. by left.
    + apply elem_of_cons in H as [->|H]; [|by right]. left. apply Hkeep. by right.
  - exists [(i, mscan, malign)]. cbn. split; [by rewrite Hw1, app_nil_r|].
    split; [constructor; [exact Hcol|constructor]|].
    split; [apply prefix_cons, prefix_nil|]. split; [done|].
    intros path [H|H]; apply Hkeep; [by left|].
    apply list_elem_of_singleton in H. by right.
Qed.

(** An iteration whose scan and alignment are there and whose file can be
    written. *)
Lemma inspect_ready (aligns_list scans_list : list string) i (it : mesh * mesh) w
    (line : string) (rest : list string) :
  overlap_meshes self w aligns_list scans_list i it ->
  writable w (overlap_png self subj seq_name i) ->
  stdin w = line :: rest ->
  exists w',
    inspect self subj seq_name aligns_list scans_list i w = (Ok tt, w')
    /\ files w' = <[overlap_png self subj seq_name i := Obj it.2]>
                    (<[overlap_png self subj seq_name i := Obj it.1]> (files w))
    /\ dirs w' = dirs w /\ stdin w' = rest
    /\ writes (log w')
       = writes (log w) ++ writes_of_iteration self subj seq_name (i, it.1, it.2)
    /\ (forall q, writable w q -> writable w' q).
Proof.
  intros (scan_fn & align_fn & f & m & entries & valign
          & Hsi & Hsf & Hm & Hai & Haf & Hv & Hscan & Halign) Hwr Hin.
  destruct it as [mscan malign]. cbn [fst snd] in *.
  unfold inspect.
  erewrite bind_ok by (unfold lift, index; by rewrite Hsi).
  erewrite bind_ok by exact Hm.
  erewrite bind_ok by (unfold lift, index; by rewrite Hai).
  erewrite bind_ok by (by apply np_load_npz).
  erewrite bind_ok by (unfold lift, getitem; by rewrite Hv).
  cbv zeta. fold (overlap_png self subj seq_name i).
  change (set_vertex_colors (Mesh (true_divide (mesh_v m) 1000) (mesh_f m) None) [0; 1; 0]%Z)
    with (Mesh (true_divide (mesh_v m) 1000) (mesh_f m) scan_colour).
  change (set_vertex_colors (Mesh valign (faces self) None) [1; 0; 0]%Z)
    with (Mesh valign (faces self) alignment_colour).
  rewrite <- Hscan, <- Halign.
  assert (Hwf : (write_file (overlap_png self subj seq_name i) (Obj mscan) w).1 = Ok tt).
  { destruct Hwr as [_ Hw]. unfold write_file in *.
    by destruct (lookup w (overlap_png self subj seq_name i)) as [?|?|[]|]. }
  erewrite bind_ok by (by apply write_obj_writable).
  erewrite bind_ok by (apply write_obj_again; [exact Hwf | apply Hwr]).
  erewrite bind_ok by reflexivity.
  erewrite bind_ok; cycle 1.
  { unfold input. cbn [stdin store]. rewrite Hin. reflexivity. }
  eexists. split; [reflexivity|]. cbn [files dirs stdin log store].
  split; [done|]. split; [done|]. split; [done|]. split.
  - unfold writes. rewrite !omap_app. cbn. by rewrite app_nil_r, <- !(assoc_L (++)).
  - intros q Hq.
    eapply (writable_same (store (overlap_png self subj seq_name i) (Obj malign)
                             (store (overlap_png self subj seq_name i) (Obj mscan) w)));
      [reflexivity | reflexivity |].
    apply writable_still.
    { eapply write_file_still; [exact Hwf | exact Hwf]. }
    by apply writable_still.
Qed.

(** The loop on indices whose scans and alignments are all there: it gets
    through all of them. *)
Lemma for_each_inspect_all (aligns_list scans_list : list string) idx :
  forall (pairs : list (mesh * mesh)) w,
  Forall2 (overlap_meshes self w aligns_list scans_list) idx pairs ->
  Forall (fun i => (overlap_png self subj seq_name i ∉ scans_list)
                   /\ (overlap_png self subj seq_name i ∉ aligns_list)) idx ->
  Forall (fun i => writable w (overlap_png self subj seq_name i)) idx ->
  length idx <= length (stdin w) ->
  (for_each idx (inspect self subj seq_name aligns_list scans_list) w).1 = Ok tt
  /\ writes (log (for_each idx (inspect self subj seq_name aligns_list scans_list) w).2)
     = writes (log w)
       ++ concat (zip_with (fun i it => writes_of_iteration self subj seq_name (i, it.1, it.2))
                    idx pairs).
Proof.
  induction idx as [|i idx IH]; intros pairs w Hall Hfree Hwr Hin.
  { cbn. by rewrite app_nil_r. }
  destruct pairs as [|it pairs]; [by apply Forall2_length in Hall|].
  apply Forall2_cons in Hall as [Hit Hall].
  apply Forall_cons in Hfree as [[Hns Hna] Hfree].
  apply Forall_cons in Hwr as [Hw Hwr].
  destruct (stdin w) as [|line rest] eqn:Hstdin; [cbn in Hin; lia|].
  destruct (inspect_ready aligns_list scans_list i it w line rest Hit Hw Hstdin)
    as (w' & Hrun & Hf' & Hd' & Hs' & Hl' & Hkeep).
  rewrite for_each_cons, Hrun.
  destruct (IH pairs w') as [Hok Hwrs].
  - eapply Forall2_impl; [exact Hall|]. intros j jt.
    intros (scan_fn & align_fn & f & m & entries & valign
            & Hsi & Hsf & Hm & Hai & Haf & Hv & Hscan & Halign).
    assert (Hsf' : files w' !! scan_fn = Some f).
    { rewrite Hf', !lookup_insert_ne; [done|..]; intros Heq; apply Hns; rewrite Heq;
        by eapply list_elem_of_lookup_2. }
    exists scan_fn, align_fn, f, m, entries, valign.
    split; [done|]. split; [done|]. split.
    { unfold mesh_from_file in *. erewrite bind_ok in Hm by (by apply open_read_file).
      erewrite bind_ok by (by apply open_read_file).
      destruct f; unfold mret, io_ret, raise in *; by simplify_eq. }
    split; [done|]. split; [|done].
    rewrite Hf', !lookup_insert_ne; [done|..]; intros Heq; apply Hna; rewrite Heq;
      by eapply list_elem_of_lookup_2.
  - done.
  - eapply Forall_impl; [exact Hwr|]. intros j. apply Hkeep.
  - rewrite Hs'. cbn in Hin. lia.
  - split; [done|]. rewrite Hwrs, Hl'. cbn [zip_with concat]. by rewrite <- (assoc_L (++)).
Qed.
End Run.
End OverlapLoop.

(** ** The frame accessor: [load_single_frame] *)

Section FrameAccessor.
Import Numpy OS CAPE Observe Examples.
Implicit Types (self : CAPE_utils) (w : world) (entries : gmap string (ndarray float)).

(** C5. For an archive that holds the four entries, [load_single_frame]
    returns the arrays stored under ['v_cano'], ['v_posed'], ['pose'] and
    ['transl'], in that order, and changes nothing. *)
Theorem load_single_frame_returns_entries self npz_fn w entries
    (v_cano v_posed pose transl : ndarray float) :
  files w !! npz_fn = Some (Npz entries) ->
  entries !! "v_cano" = Some v_cano ->
  entries !! "v_posed" = Some v_posed ->
  entries !! "pose" = Some pose ->
  entries !! "transl" = Some transl ->
  load_single_frame self npz_fn w = (Ok (v_cano, v_posed, pose, transl), w).
Proof.
  intros Hf Hvc Hvp Hp Ht. unfold load_single_frame, mbind, io_bind.
  rewrite (np_load_npz _ _ _ Hf). unfold lift, getitem.
  by rewrite Hvc, Hvp, Hp, Ht.
Qed.

Lemma load_single_frame_scenario :
  files world0 !! frame1 = Some (Npz frame_entries)
  /\ frame_entries !! "v_cano" = Some v_cano_f
  /\ frame_entries !! "v_posed" = Some posed_f
  /\ frame_entries !! "pose" = Some pose_f
  /\ frame_entries !! "transl" = Some transl_f
  /\ load_single_frame self0 frame1 world0 = (Ok (v_cano_f, posed_f, pose_f, transl_f), world0).
Proof.
  do 5 (split; [reflexivity|]).
  exact (load_single_frame_returns_entries self0 frame1 world0 frame_entries
           v_cano_f posed_f pose_f transl_f eq_refl eq_refl eq_refl eq_refl eq_refl).
Defined.

(** C6 fails as stated: the exception raised for an archive without
    ['transl'] is Python's [KeyError]; no exception class named
    [MalformedData] is involved. *)
Lemma missing_transl_is_KeyError :
  files world0 !! broken_frame = Some (Npz broken_entries)
  /\ broken_entries !! "transl" = None
  /\ load_single_frame self0 broken_frame world0 = (Raise (KeyError "transl"), world0)
  /\ class_name (KeyError "transl") = "KeyError"
  /\ class_name (KeyError "transl") <> "MalformedData".
Proof. repeat split; try reflexivity. discriminate. Qed.

(** C6, as amended. For an archive without ['transl'],
    [load_single_frame] raises [KeyError] for the first of ['v_cano'],
    ['v_posed'], ['pose'], ['transl'] that the archive lacks -- for
    ['transl'] itself when the other three are there -- and returns
    nothing; the world is as it was. *)
Theorem load_single_frame_missing_transl self npz_fn w entries :
  files w !! npz_fn = Some (Npz entries) ->
  entries !! "transl" = None ->
  exists key,
    first_missing entries = Some key
    /\ load_single_frame self npz_fn w = (Raise (KeyError key), w)
    /\ class_name (KeyError key) = "KeyError"
    /\ (is_Some (entries !! "v_cano") -> is_Some (entries !! "v_posed") ->
        is_Some (entries !! "pose") -> key = "transl").
Proof.
  intros Hf Ht. unfold load_single_frame, mbind, io_bind.
  rewrite (np_load_npz _ _ _ Hf). unfold lift, getitem, first_missing, frame_keys.
  destruct (entries !! "v_cano") as [vc|] eqn:Hvc.
  2: { exists "v_cano". rewrite filter_cons_True by done. repeat split. by intros [? ?]. }
  rewrite filter_cons_False by (by rewrite Hvc).
  destruct (entries !! "v_posed") as [vp|] eqn:Hvp.
  2: { exists "v_posed". rewrite filter_cons_True by done. repeat split. by intros _ [? ?]. }
  rewrite filter_cons_False by (by rewrite Hvp).
  destruct (entries !! "pose") as [p|] eqn:Hp.
  2: { exists "pose". rewrite filter_cons_True by done. repeat split. by intros _ _ [? ?]. }
  rewrite filter_cons_False by (by rewrite Hp).
  rewrite Ht. exists "transl". rewrite filter_cons_True by done. by repeat split.
Qed.

(** C6, as amended, on an archive that lacks ['transl'] only, and on one
    that holds nothing but ['v_posed'] and ['pose']: the error names
    ['v_cano'], the first key looked up. *)
Lemma load_single_frame_missing_transl_scenario :
  files world0 !! broken_frame = Some (Npz broken_entries)
  /\ broken_entries !! "transl" = None
  /\ first_missing broken_entries = Some "transl"
  /\ first_missing (<["v_posed" := posed_f]> (<["pose" := pose_f]> ∅)) = Some "v_cano"
  /\ exists key,
       first_missing broken_entries = Some key
       /\ load_single_frame self0 broken_frame world0 = (Raise (KeyError key), world0)
       /\ class_name (KeyError key) = "KeyError"
       /\ (is_Some (broken_entries !! "v_cano") -> is_Some (broken_entries !! "v_posed") ->
           is_Some (broken_entries !! "pose") -> key = "transl").
Proof.
  do 2 (split; [reflexivity|]). do 2 (split; [vm_compute; reflexivity|]).
  exact (load_single_frame_missing_transl self0 broken_frame world0 broken_entries
           eq_refl eq_refl).
Defined.
End FrameAccessor.

(** ** Sequence extraction: [extract_mesh_seq] *)

Section Extraction.
Import Numpy OS CAPE Observe Examples.
Implicit Types (self : CAPE_utils) (w : world).




(** With an option other than ['posed'] the loop body is the one that
    takes the canonical vertices. *)
Lemma extract_frame_canonical self (option mesh_dir fn : string) w :
  option <> "posed" ->
  extract_frame self option mesh_dir fn w = extract_canonical_frame self mesh_dir fn w.
Proof.
  intros Hopt. unfold extract_frame, extract_canonical_frame, mbind, io_bind.
  destruct (load_single_frame self fn w) as [[[[[a b] c] d]|e] w']; [|done].
  unfold select_verts. by rewrite (bool_decide_eq_false_2 (option = "posed")).
Qed.

Lemma frame_write_canonical self (option mesh_dir : string) (flist : list string)
    (frames : list frame) :
  option <> "posed" ->
  zip_with (frame_write self option mesh_dir) flist frames
  = zip_with (canonical_write self mesh_dir) flist frames.
Proof.
  intros Hopt. revert frames. induction flist as [|fn flist IH]; intros [|fr frames]; try done.
  cbn. rewrite IH. f_equal. unfold frame_write, canonical_write, select_verts.
  destruct fr as [[[a b] c] d]. by rewrite (bool_decide_eq_false_2 (option = "posed")).
Qed.

(** C10. Whatever [option] is, as long as it is not the string ['posed'],
    [extract_mesh_seq] is the extraction of the canonical vertices into
    the directory named [option]: it does exactly what the method that
    always takes [v_cano] does.  The meshes it writes are those of the
    [v_cano] entries of the first listed frame archives, in order, one per
    frame, and of all of them when it returns.  And it does return,
    having written the canonical mesh of every listed frame, whenever the
    directory of the meshes can be created, every listed archive holds its
    four arrays and every mesh can be written: no value of [option] is
    refused. *)
Theorem extract_mesh_seq_unrecognized_option self (subj seq_name option : string) w :
  option <> "posed" ->
  extract_mesh_seq self subj seq_name option w
  = canonical_extraction self subj seq_name option w
  /\ (exists (flist : list string) (frames : list frame),
        (glob (join (join (dataset_dir self) ["sequences"; subj; seq_name]) ["*.npz"])
           (add_dirs (join (dataset_dir self) ["meshes"; subj; seq_name; option]) w)).1
          = Ok flist
        /\ Forall2 (frame_at w) (take (length frames) flist) frames
        /\ length frames <= length flist
        /\ writes (log (extract_mesh_seq self subj seq_name option w).2)
           = writes (log w)
             ++ (if known_backend self
                 then zip_with (canonical_write self
                                  (join (dataset_dir self) ["meshes"; subj; seq_name; option]))
                        flist frames
                 else [])
        /\ ((extract_mesh_seq self subj seq_name option w).1 = Ok tt ->
            length frames = length flist))
  /\ (forall (flist : list string) (frames : list frame),
        known_backend self = true ->
        (makedirs (join (dataset_dir self) ["meshes"; subj; seq_name; option]) w).1 = Ok tt ->
        (glob (join (join (dataset_dir self) ["sequences"; subj; seq_name]) ["*.npz"])
           (add_dirs (join (dataset_dir self) ["meshes"; subj; seq_name; option]) w)).1
          = Ok flist ->
        Forall2 (frame_at w) flist frames ->
        Forall (fun fn =>
                  mesh_path (join (dataset_dir self) ["meshes"; subj; seq_name; option]) fn
                  ∉ flist) flist ->
        Forall (fun fn =>
                  writable
                    (add_dirs (join (dataset_dir self) ["meshes"; subj; seq_name; option]) w)
                    (mesh_path (join (dataset_dir self) ["meshes"; subj; seq_name; option]) fn))
          flist ->
        (extract_mesh_seq self subj seq_name option w).1 = Ok tt
        /\ writes (log (extract_mesh_seq self subj seq_name option w).2)
           = writes (log w)
             ++ zip_with (canonical_write self
                            (join (dataset_dir self) ["meshes"; subj; seq_name; option]))
                  flist frames).
Proof.
  intros Hopt. split; [|split].
  - unfold extract_mesh_seq, canonical_extraction, mbind, io_bind.
    destruct (makedirs _ w) as [[[]|e] w1]; [|done].
    destruct (glob _ w1) as [[flist|e] w2]; [|done].
    destruct (print _ w2) as [[[]|e] w3]; [|done].
    apply for_each_ext. intros fn w'. by apply extract_frame_canonical.
  - destruct (extract_mesh_seq_in_order self subj seq_name option w)
      as (flist & frames & Hg & Hall & Hlen & Hwr & Hok).
    exists flist, frames. rewrite Hwr, (frame_write_canonical _ _ _ _ _ Hopt). done.
  - intros flist frames Hk Hmk Hg Hall Hfree Hwr.
    destruct (extract_mesh_seq_runs self subj seq_name option w flist frames)
      as (Hok & Hwrs & _); try done.
    split; [done|]. by rewrite Hwrs, (frame_write_canonical _ _ _ _ _ Hopt).
Qed.

(** C10 at an option that is neither ['posed'] nor ['canonical']: the two
    frames of the example sequence are written, canonical, into the
    directory [bogus]. *)
Lemma extract_mesh_seq_bogus_scenario :
  "bogus" <> "posed"
  /\ extract_mesh_seq self0 "00032" "shortlong_hips" "bogus" world0
     = canonical_extraction self0 "00032" "shortlong_hips" "bogus" world0
  /\ (glob (join (join (dataset_dir self0) ["sequences"; "00032"; "shortlong_hips"]) ["*.npz"])
        (add_dirs (join (dataset_dir self0) ["meshes"; "00032"; "shortlong_hips"; "bogus"])
           world0)).1
     = Ok [frame1; frame2]
  /\ (extract_mesh_seq self0 "00032" "shortlong_hips" "bogus" world0).1 = Ok tt
  /\ writes (log (extract_mesh_seq self0 "00032" "shortlong_hips" "bogus" world0).2)
     = writes (log world0)
       ++ zip_with (canonical_write self0
                      (join (dataset_dir self0) ["meshes"; "00032"; "shortlong_hips"; "bogus"]))
            [frame1; frame2]
            [(v_cano_f, posed_f, pose_f, transl_f); (v_cano_f, posed_f, pose_f, transl_f)]
  /\ writes (log (extract_mesh_seq self0 "00032" "shortlong_hips" "bogus" world0).2)
     = [("/data/cape/meshes/00032/shortlong_hips/bogus/shortlong_hips.000001.obj",
         Obj (Mesh v_cano_f (faces self0) None));
        ("/data/cape/meshes/00032/shortlong_hips/bogus/shortlong_hips.000002.obj",
         Obj (Mesh v_cano_f (faces self0) None))].
Proof.
  assert (Hne : "bogus" <> "posed") by discriminate.
  assert (Hk : known_backend self0 = true) by reflexivity.
  assert (Hmk : (makedirs (join (dataset_dir self0)
                             ["meshes"; "00032"; "shortlong_hips"; "bogus"]) world0).1 = Ok tt)
    by (vm_compute; reflexivity).
  assert (Hg : (glob (join (join (dataset_dir self0) ["sequences"; "00032"; "shortlong_hips"])
                        ["*.npz"])
                  (add_dirs (join (dataset_dir self0)
                               ["meshes"; "00032"; "shortlong_hips"; "bogus"]) world0)).1
               = Ok [frame1; frame2]) by (vm_compute; reflexivity).
  assert (Hfr : Forall2 (frame_at world0) [frame1; frame2]
                  [(v_cano_f, posed_f, pose_f, transl_f); (v_cano_f, posed_f, pose_f, transl_f)]).
  { repeat constructor; exists frame_entries; repeat split; vm_compute; reflexivity. }
  assert (Hfree : Forall (fun fn =>
                    mesh_path (join (dataset_dir self0)
                                 ["meshes"; "00032"; "shortlong_hips"; "bogus"]) fn
                    ∉ [frame1; frame2]) [frame1; frame2]).
  { repeat constructor; apply (bool_decide_eq_false_1 _); vm_compute; reflexivity. }
  assert (Hwr : Forall (fun fn =>
                    writable
                      (add_dirs (join (dataset_dir self0)
                                   ["meshes"; "00032"; "shortlong_hips"; "bogus"]) world0)
                      (mesh_path (join (dataset_dir self0)
                                    ["meshes"; "00032"; "shortlong_hips"; "bogus"]) fn))
                  [frame1; frame2]).
  { repeat constructor; first [right; vm_compute; reflexivity | vm_compute; reflexivity]. }
  destruct (extract_mesh_seq_unrecognized_option self0 "00032" "shortlong_hips" "bogus"
              world0 Hne) as (Heq & _ & Hall).
  destruct (Hall [frame1; frame2] _ Hk Hmk Hg Hfr Hfree Hwr) as [Hok Hwrs].
  split; [exact Hne|]. split; [exact Heq|]. split; [exact Hg|]. split; [exact Hok|].
  split; [exact Hwrs|]. vm_compute; reflexivity.
Defined.

End Extraction.

(** ** The demo and the names it reads *)

Section Demo.
Import Numpy OS CAPE Observe Examples.
Implicit Types (self : CAPE_utils) (w : world).

(** C9 fails as stated: run as a script, the module binds [dataset_dir]
    at module level before it calls [demo], the method reads that global,
    and the demo computes and shows the displacement. *)
Lemma demo_runs_from_script :
  (demo self0 "00032" "shortlong_hips" world_script).1 = Ok tt
  /\ (main demo_args world0).1 = Ok tt
  /\ globals (main demo_args world0).2 !! "dataset_dir" = Some "/data/cape"
  /\ drop 4 (log (main demo_args world0).2)
     = [Shown (0, 0) [demo_minimal_mesh]; Shown (0, 1) [demo_clothed_mesh]].
Proof. repeat split; vm_compute; reflexivity. Qed.

(** C9, as amended. Once the gender table has been read and lists
    [subj]: if the module namespace binds no [dataset_dir], [demo] raises
    [NameError] for that name with nothing read, computed, printed or
    shown; if it binds one, as the script entry point does, [demo] raises
    no [NameError]. *)
Theorem demo_reads_global_dataset_dir self (subj seq_name : string) w
    (genders : gmap string string) (gender : string) :
  files w !! join (dataset_dir self) ["misc"; "subj_genders.pkl"] = Some (Pkl genders) ->
  genders !! subj = Some gender ->
  (globals w !! "dataset_dir" = None ->
     demo self subj seq_name w = (Raise (NameError "dataset_dir"), w))
  /\ (is_Some (globals w !! "dataset_dir") ->
     forall name, (demo self subj seq_name w).1 <> Raise (NameError name)).
Proof.
  intros Hf Hg. split.
  - intros Hglob. unfold demo.
    erewrite bind_ok by (by apply pkl_load_ok).
    erewrite bind_ok by (unfold lift; by rewrite Hg).
    erewrite bind_raise; [done|]. unfold load_global. by rewrite Hglob.
  - intros Hd name. by destruct (binds_demo (globals w) self subj seq_name Hd w eq_refl).
Qed.

Lemma demo_unbound_scenario :
  files world0 !! join (dataset_dir self0) ["misc"; "subj_genders.pkl"]
    = Some (Pkl (<["00032" := "male"]> ∅))
  /\ (<["00032" := "male"]> ∅ : gmap string string) !! "00032" = Some "male"
  /\ globals world0 !! "dataset_dir" = None
  /\ demo self0 "00032" "shortlong_hips" world0 = (Raise (NameError "dataset_dir"), world0).
Proof.
  do 3 (split; [reflexivity|]).
  exact (proj1 (demo_reads_global_dataset_dir self0 "00032" "shortlong_hips" world0
                  (<["00032" := "male"]> ∅) "male" eq_refl eq_refl) eq_refl).
Defined.
End Demo.

(** ** Overlap inspection: [vis_overlap] *)

Section Overlap.
Import Numpy OS CAPE Observe Examples.
Implicit Types (self : CAPE_utils) (w : world) (i : nat).

(** C8. In [vis_overlap], once both listings have the same length, the
    loop works through the first [vis_num] indices of the permutation
    drawn, in order.  The indices whose files it writes are the first of
    these, and all of them when the call returns; for each of them the raw
    scan (coloured green) and then the alignment (coloured red, on the
    shared faces) are written under one and the same file name, and
    nothing else is written; so when the run ends, every file it wrote
    holds an alignment, the scan written there before it being lost.  And
    the call does get through every index, writing two meshes to each
    file, when the scan and the alignment of each are there, the files can
    be written and a line waits on standard input for each. *)
Theorem vis_overlap_same_filename self (subj seq_name : string) (vis_num : Z) w
    (aligns scans : list string) :
  (glob (join (join (dataset_dir self) ["sequences"; subj; seq_name]) ["*.npz"]) w).1
    = Ok aligns ->
  (glob (join (join (dataset_dir self) ["raw_scans"; subj; seq_name]) ["*.ply"]) w).1
    = Ok scans ->
  length aligns = length scans ->
  (exists inspected : list (nat * mesh * mesh),
     inspected.*1.*1 `prefix_of` slice_to vis_num (permutation w (length (sorted scans)))
     /\ ((vis_overlap self subj seq_name vis_num w).1 = Ok tt ->
         inspected.*1.*1 = slice_to vis_num (permutation w (length (sorted scans))))
     /\ writes (log (vis_overlap self subj seq_name vis_num w).2)
        = writes (log w) ++ concat (writes_of_iteration self subj seq_name <$> inspected)
     /\ Forall (scan_and_alignment self) inspected
     /\ Forall (fun it : nat * mesh * mesh =>
                  alignment_at (vis_overlap self subj seq_name vis_num w).2
                    (overlap_png self subj seq_name it.1.1)) inspected)
  /\ (forall pairs : list (mesh * mesh),
        Forall2 (overlap_meshes self w (sorted aligns) (sorted scans))
          (slice_to vis_num (permutation w (length (sorted scans)))) pairs ->
        Forall (fun i => (overlap_png self subj seq_name i ∉ sorted scans)
                         /\ (overlap_png self subj seq_name i ∉ sorted aligns))
          (slice_to vis_num (permutation w (length (sorted scans)))) ->
        Forall (fun i => writable w (overlap_png self subj seq_name i))
          (slice_to vis_num (permutation w (length (sorted scans)))) ->
        length (slice_to vis_num (permutation w (length (sorted scans))))
          <= length (stdin w) ->
        (vis_overlap self subj seq_name vis_num w).1 = Ok tt
        /\ writes (log (vis_overlap self subj seq_name vis_num w).2)
           = writes (log w)
             ++ concat (zip_with
                          (fun i it => writes_of_iteration self subj seq_name (i, it.1, it.2))
                          (slice_to vis_num (permutation w (length (sorted scans)))) pairs)).
Proof.
  intros Ha Hs Hlen. rewrite (vis_overlap_unfold _ _ _ _ _ _ _ Ha Hs).
  rewrite bool_decide_eq_true_2 by (by rewrite !sorted_length).
  set (idx := slice_to vis_num (permutation w (length (sorted scans)))).
  set (w1 := logged (missing_messages self subj seq_name w) w).
  assert (Hw1 : writes (log w1) = writes (log w)).
  { apply writes_logged_prints, missing_messages_prints. }
  split.
  - destruct (for_each_inspect_collides self subj seq_name (sorted aligns) (sorted scans)
                idx w1) as (inspected & Hwr & Hall & Hpre & Hok & Hfin).
    exists inspected. rewrite Hwr, Hw1. split; [done|]. split; [done|]. split; [done|].
    split; [done|]. apply Forall_forall. intros [[i ms] ma] Hin.
    apply Hfin. right.
    apply list_elem_of_fmap. exists i. split; [done|].
    apply list_elem_of_fmap. exists (i, ms). split; [done|].
    apply list_elem_of_fmap. by exists (i, ms, ma).
  - intros pairs Hpairs Hfree Hwr Hin. rewrite <- Hw1.
    apply for_each_inspect_all; [|done| |done].
    + eapply Forall2_impl; [exact Hpairs|]. intros i it.
      intros (scan_fn & align_fn & f & m & entries & valign
              & Hsi & Hsf & Hm & Hai & Haf & Hv & Hscan & Halign).
      exists scan_fn, align_fn, f, m, entries, valign.
      split; [done|]. split; [done|]. split; [|done].
      unfold mesh_from_file in *. erewrite bind_ok in Hm by (by apply open_read_file).
      erewrite bind_ok by (by apply open_read_file).
      destruct f; unfold mret, io_ret, raise in *; by simplify_eq.
    + eapply Forall_impl; [exact Hwr|]. intros i. by apply writable_same.
Qed.

(** A run in which the loop is entered twice: four writes, two files,
    each left holding the alignment. *)
Lemma vis_overlap_same_filename_scenario :
  (glob (join (join (dataset_dir self0) ["sequences"; "00032"; "shortlong_hips"]) ["*.npz"])
     world_scans).1 = Ok [frame1; frame2]
  /\ (glob (join (join (dataset_dir self0) ["raw_scans"; "00032"; "shortlong_hips"]) ["*.ply"])
        world_scans).1
     = Ok ["/data/cape/raw_scans/00032/shortlong_hips/shortlong_hips.000001.ply";
           "/data/cape/raw_scans/00032/shortlong_hips/shortlong_hips.000002.ply"]
  /\ slice_to 5 (permutation world_scans 2) = [1; 0]
  /\ (vis_overlap self0 "00032" "shortlong_hips" 5 world_scans).1 = Ok tt
  /\ writes (log (vis_overlap self0 "00032" "shortlong_hips" 5 world_scans).2)
     = writes_of_iteration self0 "00032" "shortlong_hips"
         (1, Mesh posed_f (IntArray scan_faces) scan_colour,
             Mesh posed_f (faces self0) alignment_colour)
       ++ writes_of_iteration self0 "00032" "shortlong_hips"
         (0, Mesh posed_f (IntArray scan_faces) scan_colour,
             Mesh posed_f (faces self0) alignment_colour)
  /\ overlap_png self0 "00032" "shortlong_hips" 0
     = "/data/cape/scans/00032/shortlong_hips/00.png"
  /\ files (vis_overlap self0 "00032" "shortlong_hips" 5 world_scans).2
       !! "/data/cape/scans/00032/shortlong_hips/00.png"
     = Some (Obj (Mesh posed_f (faces self0) alignment_colour))
  /\ (vis_overlap self0 "00032" "shortlong_hips" 5 world0).1 = Ok tt
  /\ writes (log (vis_overlap self0 "00032" "shortlong_hips" 5 world0).2)
     = writes (log (vis_overlap self0 "00032" "shortlong_hips" 5 world_scans).2)
  /\ exists inspected : list (nat * mesh * mesh),
       inspected.*1.*1 = [1; 0]
       /\ writes (log (vis_overlap self0 "00032" "shortlong_hips" 5 world_scans).2)
          = writes (log world_scans)
            ++ concat (writes_of_iteration self0 "00032" "shortlong_hips" <$> inspected)
       /\ Forall (scan_and_alignment self0) inspected
       /\ Forall (fun it : nat * mesh * mesh =>
                    alignment_at (vis_overlap self0 "00032" "shortlong_hips" 5 world_scans).2
                      (overlap_png self0 "00032" "shortlong_hips" it.1.1)) inspected.
Proof.
  assert (Ha : (glob (join (join (dataset_dir self0) ["sequences"; "00032"; "shortlong_hips"])
                        ["*.npz"]) world_scans).1 = Ok [frame1; frame2])
    by (vm_compute; reflexivity).
  assert (Hs : (glob (join (join (dataset_dir self0) ["raw_scans"; "00032"; "shortlong_hips"])
                        ["*.ply"]) world_scans).1
               = Ok ["/data/cape/raw_scans/00032/shortlong_hips/shortlong_hips.000001.ply";
                     "/data/cape/raw_scans/00032/shortlong_hips/shortlong_hips.000002.ply"])
    by (vm_compute; reflexivity).
  destruct (vis_overlap_same_filename self0 "00032" "shortlong_hips" 5 world_scans _ _
              Ha Hs eq_refl) as [(inspected & Hpre & Hall & Hwr & Hpairs & Hfin) Hrun].
  destruct (Hrun [(Mesh posed_f (IntArray scan_faces) scan_colour,
                   Mesh posed_f (faces self0) alignment_colour);
                  (Mesh posed_f (IntArray scan_faces) scan_colour,
                   Mesh posed_f (faces self0) alignment_colour)]) as [Hok Hwrs].
  { repeat constructor.
    - exists "/data/cape/raw_scans/00032/shortlong_hips/shortlong_hips.000002.ply", frame2,
        (Ply scan_f scan_faces), (Mesh scan_f (IntArray scan_faces) None), frame_entries,
        posed_f.
      repeat split; vm_compute; reflexivity.
    - exists "/data/cape/raw_scans/00032/shortlong_hips/shortlong_hips.000001.ply", frame1,
        (Ply scan_f scan_faces), (Mesh scan_f (IntArray scan_faces) None), frame_entries,
        posed_f.
      repeat split; vm_compute; reflexivity. }
  { repeat constructor; apply (bool_decide_eq_false_1 _); vm_compute; reflexivity. }
  { repeat constructor; first [right; vm_compute; reflexivity | vm_compute; reflexivity]. }
  { vm_compute. lia. }
  split; [exact Ha|]. split; [exact Hs|]. split; [vm_compute; reflexivity|].
  split; [exact Hok|]. do 5 (split; [vm_compute; reflexivity|]).
  exists inspected. split; [exact (Hall Hok)|]. split; [exact Hwr|]. split; [exact Hpairs|].
  exact Hfin.
Defined.
End Overlap.

(** ** Further properties of the same methods *)

Section Further.
Import Numpy OS CAPE Observe NumpyFacts Examples.
Implicit Types (self : CAPE_utils) (w : world).

Lemma roundtrip_int64_scenario :
  is_Nx3 2 v_cano_i /\ is_Nx3 2 minimal_i /\ Forall in_int64 (data v_cano_i)
  /\ (d ← calc_clo_disp self0 v_cano_i minimal_i; s ← add d minimal_i;
      mret (array_equal s v_cano_i)) = Ok true.
Proof.
  assert (Hv : is_Nx3 2 v_cano_i) by (split; reflexivity).
  assert (Hm : is_Nx3 2 minimal_i) by (split; reflexivity).
  assert (Hr : Forall in_int64 (data v_cano_i)).
  { repeat constructor; unfold in_int64; lia. }
  do 3 (split; [assumption|]).
  exact (roundtrip_int64 self0 2 v_cano_i minimal_i Hv Hm Hr).
Defined.

Lemma antisymmetric_int64_scenario :
  is_Nx3 2 v_cano_i /\ is_Nx3 2 minimal_i
  /\ (d ← calc_clo_disp self0 v_cano_i minimal_i;
      e ← calc_clo_disp self0 minimal_i v_cano_i;
      mret (array_equal d (negative e))) = Ok true.
Proof.
  assert (Hv : is_Nx3 2 v_cano_i) by (split; reflexivity).
  assert (Hm : is_Nx3 2 minimal_i) by (split; reflexivity).
  do 2 (split; [assumption|]).
  exact (antisymmetric_int64 self0 2 v_cano_i minimal_i Hv Hm).
Defined.



(** With a [mesh_lib] that is neither ['trimesh'] nor ['psbody.mesh'], the
    loop body of [extract_mesh_seq] loads the frame and writes nothing,
    without raising. *)
Lemma extract_frame_unknown_backend self (option mesh_dir fn : string) w
    (entries : gmap string (ndarray float)) (v_cano v_posed pose transl : ndarray float) :
  mesh_lib self <> "trimesh" -> mesh_lib self <> "psbody.mesh" ->
  files w !! fn = Some (Npz entries) ->
  entries !! "v_cano" = Some v_cano ->
  entries !! "v_posed" = Some v_posed ->
  entries !! "pose" = Some pose ->
  entries !! "transl" = Some transl ->
  extract_frame self option mesh_dir fn w = (Ok tt, w).
Proof.
  intros Ht Hp Hf Hvc Hvp Hpo Htr.
  apply (extract_frame_unknown self option mesh_dir fn (v_cano, v_posed, pose, transl)).
  - unfold known_backend. by rewrite !bool_decide_eq_false_2.
  - apply load_single_frame_ok. exists entries. by repeat split.
Qed.

Lemma extract_frame_unknown_backend_scenario :
  files world0 !! frame1 = Some (Npz frame_entries)
  /\ extract_frame {| dataset_dir := "/data/cape"; faces := faces self0;
                      mesh_lib := "open3d" |} "posed" "/out" frame1 world0
     = (Ok tt, world0).
Proof.
  split; [reflexivity|].
  refine (extract_frame_unknown_backend _ "posed" "/out" frame1 world0 frame_entries
            v_cano_f posed_f pose_f transl_f _ _ eq_refl eq_refl eq_refl eq_refl eq_refl);
    discriminate.
Defined.
End Further.

(** ** What the methods leave alone *)

Section Frames.
Import Numpy OS CAPE Observe NumpyFacts Examples.
Implicit Types (self : CAPE_utils) (w : world).

(** X9. Loading a frame changes nothing, whether it returns or raises;
    and when it returns, the path resolves to a frame archive and what is
    returned are its [v_cano], [v_posed], [pose] and [transl] entries, in
    that order. *)
Theorem load_single_frame_is_a_pure_read self (npz_fn : string) w :
  (load_single_frame self npz_fn w).2 = w
  /\ (forall fr : frame, (load_single_frame self npz_fn w).1 = Ok fr ->
        exists entries : gmap string (ndarray float),
          lookup w npz_fn = IsFile (Npz entries)
          /\ entries !! "v_cano" = Some fr.1.1.1 /\ entries !! "v_posed" = Some fr.1.1.2
          /\ entries !! "pose" = Some fr.1.2 /\ entries !! "transl" = Some fr.2).
Proof.
  split; [apply load_single_frame_world|].
  unfold load_single_frame, np_load, open_read, lift, raise, getitem,
    mbind, io_bind, mret, io_ret.
  intros fr. destruct (lookup w npz_fn) as [f|k|c|]; try done.
  repeat (case_match; simplify_eq/=; try done). intros [= <-]. by eexists.
Qed.




End Frames.

(** ** Extraction: one mesh per frame *)

Section ExtractionOrder.
Import Numpy OS CAPE Observe NumpyFacts Examples.
Implicit Types (self : CAPE_utils) (w : world) (fr : frame).

(** X12. Whatever the option and the state of the dataset,
    [extract_mesh_seq] works through the listed frame archives in order:
    the meshes it writes are those of the first frames of the listing, one
    per frame, each under its frame's name with [npz] replaced by [obj],
    with the posed vertices when [option] is ['posed'] and the canonical
    ones otherwise; every such frame was an archive holding all four
    arrays when the call began; and when the call returns, no listed frame
    has been left out.  With a mesh library other than ['trimesh'] and
    ['psbody.mesh'] the frames are loaded and nothing is written. *)
Theorem extract_mesh_seq_one_mesh_per_frame self (subj seq_name option : string) w :
  exists (flist : list string) (frames : list frame),
    (glob (join (join (dataset_dir self) ["sequences"; subj; seq_name]) ["*.npz"])
       (add_dirs (join (dataset_dir self) ["meshes"; subj; seq_name; option]) w)).1
      = Ok flist
    /\ Forall2 (frame_at w) (take (length frames) flist) frames
    /\ length frames <= length flist
    /\ writes (log (extract_mesh_seq self subj seq_name option w).2)
       = writes (log w)
         ++ (if known_backend self
             then zip_with (frame_write self option
                              (join (dataset_dir self) ["meshes"; subj; seq_name; option]))
                    flist frames
             else [])
    /\ ((extract_mesh_seq self subj seq_name option w).1 = Ok tt ->
        length frames = length flist).
Proof. apply extract_mesh_seq_in_order. Qed.

(** X13. On a sequence that is all there -- the directory of the meshes
    can be created, every listed archive holds its four arrays, no mesh
    would be written over a listed archive, and every mesh can be written
    where it goes -- [extract_mesh_seq] with ['trimesh'] or ['psbody.mesh']
    returns without raising, writes exactly one mesh per listed frame, in
    the order of the listing, and leaves a mesh file at each of their
    paths. *)
Theorem extract_mesh_seq_complete self (subj seq_name option : string) w
    (flist : list string) (frames : list frame) :
  known_backend self = true ->
  (makedirs (join (dataset_dir self) ["meshes"; subj; seq_name; option]) w).1 = Ok tt ->
  (glob (join (join (dataset_dir self) ["sequences"; subj; seq_name]) ["*.npz"])
     (add_dirs (join (dataset_dir self) ["meshes"; subj; seq_name; option]) w)).1
    = Ok flist ->
  Forall2 (frame_at w) flist frames ->
  Forall (fun fn => mesh_path (join (dataset_dir self) ["meshes"; subj; seq_name; option]) fn
                    ∉ flist) flist ->
  Forall (fun fn =>
            writable (add_dirs (join (dataset_dir self) ["meshes"; subj; seq_name; option]) w)
              (mesh_path (join (dataset_dir self) ["meshes"; subj; seq_name; option]) fn))
    flist ->
  (extract_mesh_seq self subj seq_name option w).1 = Ok tt
  /\ writes (log (extract_mesh_seq self subj seq_name option w).2)
     = writes (log w)
       ++ zip_with (frame_write self option
                      (join (dataset_dir self) ["meshes"; subj; seq_name; option]))
            flist frames
  /\ Forall (fun fn =>
               exists m, files (extract_mesh_seq self subj seq_name option w).2
                           !! mesh_path (join (dataset_dir self)
                                           ["meshes"; subj; seq_name; option]) fn
                         = Some (Obj m)) flist.
Proof. apply extract_mesh_seq_runs. Qed.

Lemma extract_mesh_seq_complete_scenario :
  known_backend self0 = true
  /\ (makedirs (join (dataset_dir self0) ["meshes"; "00032"; "shortlong_hips"; "posed"])
        world0).1 = Ok tt
  /\ (glob (join (join (dataset_dir self0) ["sequences"; "00032"; "shortlong_hips"]) ["*.npz"])
        (add_dirs (join (dataset_dir self0) ["meshes"; "00032"; "shortlong_hips"; "posed"])
           world0)).1
     = Ok [frame1; frame2]
  /\ (extract_mesh_seq self0 "00032" "shortlong_hips" "posed" world0).1 = Ok tt
  /\ writes (log (extract_mesh_seq self0 "00032" "shortlong_hips" "posed" world0).2)
     = writes (log world0)
       ++ zip_with (frame_write self0 "posed"
                      (join (dataset_dir self0) ["meshes"; "00032"; "shortlong_hips"; "posed"]))
            [frame1; frame2]
            [(v_cano_f, posed_f, pose_f, transl_f); (v_cano_f, posed_f, pose_f, transl_f)]
  /\ Forall (fun fn =>
               exists m, files (extract_mesh_seq self0 "00032" "shortlong_hips" "posed" world0).2
                           !! mesh_path (join (dataset_dir self0)
                                           ["meshes"; "00032"; "shortlong_hips"; "posed"]) fn
                         = Some (Obj m)) [frame1; frame2].
Proof.
  assert (Hk : known_backend self0 = true) by reflexivity.
  assert (Hmk : (makedirs (join (dataset_dir self0)
                             ["meshes"; "00032"; "shortlong_hips"; "posed"]) world0).1 = Ok tt)
    by (vm_compute; reflexivity).
  assert (Hg : (glob (join (join (dataset_dir self0) ["sequences"; "00032"; "shortlong_hips"])
                        ["*.npz"])
                  (add_dirs (join (dataset_dir self0)
                               ["meshes"; "00032"; "shortlong_hips"; "posed"]) world0)).1
               = Ok [frame1; frame2]) by (vm_compute; reflexivity).
  assert (Hfr : Forall2 (frame_at world0) [frame1; frame2]
                  [(v_cano_f, posed_f, pose_f, transl_f); (v_cano_f, posed_f, pose_f, transl_f)]).
  { repeat constructor; exists frame_entries; repeat split; vm_compute; reflexivity. }
  assert (Hfree : Forall (fun fn =>
                    mesh_path (join (dataset_dir self0)
                                 ["meshes"; "00032"; "shortlong_hips"; "posed"]) fn
                    ∉ [frame1; frame2]) [frame1; frame2]).
  { repeat constructor; apply (bool_decide_eq_false_1 _); vm_compute; reflexivity. }
  assert (Hwr : Forall (fun fn =>
                    writable
                      (add_dirs (join (dataset_dir self0)
                                   ["meshes"; "00032"; "shortlong_hips"; "posed"]) world0)
                      (mesh_path (join (dataset_dir self0)
                                    ["meshes"; "00032"; "shortlong_hips"; "posed"]) fn))
                  [frame1; frame2]).
  { repeat constructor; first [right; vm_compute; reflexivity | vm_compute; reflexivity]. }
  split; [exact Hk|]. split; [exact Hmk|]. split; [exact Hg|].
  exact (extract_mesh_seq_complete self0 "00032" "shortlong_hips" "posed" world0
           [frame1; frame2] _ Hk Hmk Hg Hfr Hfree Hwr).
Defined.
End ExtractionOrder.

(** ** Overlap inspection: what it checks and how far it goes *)

Section OverlapRuns.
Import Numpy OS CAPE Observe NumpyFacts Examples.
Implicit Types (self : CAPE_utils) (w : world).

(** X14. When the sequence directory and the raw-scan directory do not
    list the same number of [*.npz] and [*.ply] entries, [vis_overlap]
    stops at its assertion with [AssertionError]: it has printed at most
    the notices about missing directories, and has read no mesh, written no
    file and asked for no input. *)
Theorem vis_overlap_count_mismatch self (subj seq_name : string) (vis_num : Z) w
    (aligns scans : list string) :
  (glob (join (join (dataset_dir self) ["sequences"; subj; seq_name]) ["*.npz"]) w).1
    = Ok aligns ->
  (glob (join (join (dataset_dir self) ["raw_scans"; subj; seq_name]) ["*.ply"]) w).1
    = Ok scans ->
  length aligns <> length scans ->
  vis_overlap self subj seq_name vis_num w
  = (Raise AssertionError, logged (missing_messages self subj seq_name w) w)
  /\ writes (log (vis_overlap self subj seq_name vis_num w).2) = writes (log w)
  /\ files (vis_overlap self subj seq_name vis_num w).2 = files w
  /\ stdin (vis_overlap self subj seq_name vis_num w).2 = stdin w.
Proof.
  intros Ha Hs Hne. rewrite (vis_overlap_unfold _ _ _ _ _ _ _ Ha Hs).
  rewrite bool_decide_eq_false_2 by (by rewrite !sorted_length).
  split; [done|]. cbn. split; [|done].
  apply writes_logged_prints, missing_messages_prints.
Qed.

Lemma vis_overlap_count_mismatch_scenario :
  (glob (join (join (dataset_dir self0) ["sequences"; "00032"; "broken"]) ["*.npz"]) world0).1
    = Ok [broken_frame]
  /\ (glob (join (join (dataset_dir self0) ["raw_scans"; "00032"; "broken"]) ["*.ply"])
        world0).1 = Ok []
  /\ log (vis_overlap self0 "00032" "broken" 5 world0).2
     = [Printed ("Missing raw scan data for 00032 broken, please download first." +:+ nl)]
  /\ vis_overlap self0 "00032" "broken" 5 world0
     = (Raise AssertionError, logged (missing_messages self0 "00032" "broken" world0) world0)
  /\ writes (log (vis_overlap self0 "00032" "broken" 5 world0).2) = writes (log world0)
  /\ files (vis_overlap self0 "00032" "broken" 5 world0).2 = files world0
  /\ stdin (vis_overlap self0 "00032" "broken" 5 world0).2 = stdin world0.
Proof.
  assert (Ha : (glob (join (join (dataset_dir self0) ["sequences"; "00032"; "broken"])
                        ["*.npz"]) world0).1 = Ok [broken_frame]) by (vm_compute; reflexivity).
  assert (Hs : (glob (join (join (dataset_dir self0) ["raw_scans"; "00032"; "broken"])
                        ["*.ply"]) world0).1 = Ok []) by (vm_compute; reflexivity).
  assert (Hne : length [broken_frame] <> length (@nil string)) by discriminate.
  split; [exact Ha|]. split; [exact Hs|]. split; [vm_compute; reflexivity|].
  exact (vis_overlap_count_mismatch self0 "00032" "broken" 5 world0 _ _ Ha Hs Hne).
Defined.

(** X15. Missing data is reported, not refused: when neither directory
    lists a matching entry (as when both are absent), [vis_overlap] prints
    its notices and returns normally, having inspected nothing. *)
Theorem vis_overlap_nothing_to_inspect self (subj seq_name : string) (vis_num : Z) w :
  (glob (join (join (dataset_dir self) ["sequences"; subj; seq_name]) ["*.npz"]) w).1
    = Ok [] ->
  (glob (join (join (dataset_dir self) ["raw_scans"; subj; seq_name]) ["*.ply"]) w).1
    = Ok [] ->
  permutation w 0 = [] ->
  vis_overlap self subj seq_name vis_num w
  = (Ok tt, logged (missing_messages self subj seq_name w) w).
Proof.
  intros Ha Hs Hp. rewrite (vis_overlap_unfold _ _ _ _ _ _ _ Ha Hs).
  rewrite bool_decide_eq_true_2 by done.
  replace (length (sorted [])) with 0 by done. rewrite Hp.
  unfold slice_to. case_match; by rewrite take_nil.
Qed.

Lemma vis_overlap_nothing_to_inspect_scenario :
  (glob (join (join (dataset_dir self0) ["sequences"; "00032"; "nowhere"]) ["*.npz"]) world0).1
    = Ok []
  /\ (glob (join (join (dataset_dir self0) ["raw_scans"; "00032"; "nowhere"]) ["*.ply"])
        world0).1 = Ok []
  /\ permutation world0 0 = []
  /\ log (vis_overlap self0 "00032" "nowhere" 5 world0).2
     = [Printed ("Missing mesh registrations for 00032 nowhere, please download first."
                 +:+ nl);
        Printed ("Missing raw scan data for 00032 nowhere, please download first." +:+ nl)]
  /\ vis_overlap self0 "00032" "nowhere" 5 world0
     = (Ok tt, logged (missing_messages self0 "00032" "nowhere" world0) world0).
Proof.
  assert (Ha : (glob (join (join (dataset_dir self0) ["sequences"; "00032"; "nowhere"])
                        ["*.npz"]) world0).1 = Ok []) by (vm_compute; reflexivity).
  assert (Hs : (glob (join (join (dataset_dir self0) ["raw_scans"; "00032"; "nowhere"])
                        ["*.ply"]) world0).1 = Ok []) by (vm_compute; reflexivity).
  assert (Hp : permutation world0 0 = []) by reflexivity.
  split; [exact Ha|]. split; [exact Hs|]. split; [exact Hp|].
  split; [vm_compute; reflexivity|].
  exact (vis_overlap_nothing_to_inspect self0 "00032" "nowhere" 5 world0 Ha Hs Hp).
Defined.

Lemma slice_to_length {A} (n : Z) (l : list A) :
  (0 <= n)%Z -> length (slice_to n l) <= Z.to_nat n.
Proof.
  intros Hn. unfold slice_to. rewrite (proj2 (Z.leb_le 0 n) Hn), length_take. lia.
Qed.

(** X16. [vis_num] caps the inspection: for a non-negative [vis_num],
    a run of [vis_overlap] writes at most two files per inspected index
    and inspects at most [vis_num] indices, whatever the permutation
    drawn. *)
Theorem vis_overlap_inspects_at_most_vis_num self (subj seq_name : string) (vis_num : Z) w :
  (0 <= vis_num)%Z ->
  length (writes (log (vis_overlap self subj seq_name vis_num w).2))
  <= length (writes (log w)) + 2 * Z.to_nat vis_num.
Proof.
  intros Hn.
  destruct (glob (join (join (dataset_dir self) ["sequences"; subj; seq_name]) ["*.npz"]) w)
    as [ra wa] eqn:Ha.
  destruct (glob (join (join (dataset_dir self) ["raw_scans"; subj; seq_name]) ["*.ply"]) w)
    as [rs ws] eqn:Hs.
  assert (exists aligns, ra = Ok aligns) as [aligns ->].
  { unfold glob in Ha. injection Ha as <- _. by eexists. }
  assert (exists scans, rs = Ok scans) as [scans ->].
  { unfold glob in Hs. injection Hs as <- _. by eexists. }
  rewrite (vis_overlap_unfold self subj seq_name vis_num w aligns scans)
    by (by rewrite ?Ha, ?Hs).
  case_bool_decide.
  - match goal with |- context [for_each ?idx _ ?w1] =>
      destruct (for_each_inspect_collides self subj seq_name (sorted aligns) (sorted scans)
                  idx w1) as (inspected & Hwr & _ & Hpre & _);
      pose proof (slice_to_length vis_num (permutation w (length (sorted scans))) Hn) as Hlen
    end.
    rewrite Hwr. unfold logged. cbn [log].
    rewrite (writes_logged_prints _ _ (missing_messages_prints self subj seq_name w)).
    rewrite length_app.
    apply prefix_length in Hpre. rewrite !length_fmap in Hpre.
    assert (Hc : length (concat (writes_of_iteration self subj seq_name <$> inspected))
                 = 2 * length inspected).
    { clear. induction inspected as [|it l IH]; [done|]. cbn [fmap list_fmap concat].
      rewrite length_app, IH. unfold writes_of_iteration. cbn [length]. lia. }
    lia.
  - unfold logged. cbn [snd log].
    rewrite (writes_logged_prints _ _ (missing_messages_prints self subj seq_name w)). lia.
Qed.

Lemma vis_overlap_inspects_at_most_vis_num_scenario :
  (0 <= 1)%Z
  /\ writes (log (vis_overlap self0 "00032" "shortlong_hips" 1 world0).2)
     = writes_of_iteration self0 "00032" "shortlong_hips"
         (1, Mesh posed_f (IntArray scan_faces) scan_colour,
             Mesh posed_f (faces self0) alignment_colour)
  /\ length (writes (log (vis_overlap self0 "00032" "shortlong_hips" 1 world0).2))
     <= length (writes (log world0)) + 2 * Z.to_nat 1.
Proof.
  assert (Hn : (0 <= 1)%Z) by lia.
  split; [exact Hn|]. split; [vm_compute; reflexivity|].
  exact (vis_overlap_inspects_at_most_vis_num self0 "00032" "shortlong_hips" 1 world0 Hn).
Defined.
End OverlapRuns.

(** ** File names of the overlap inspection *)

Section FileNames.
Import Numpy OS CAPE Observe NumpyFacts Examples.

Lemma string_length_append (s t : string) :
  String.length (s +:+ t) = String.length s + String.length t.
Proof.
  induction s as [|c s IH]; [done|].
  change (S (String.length (s +:+ t)) = S (String.length s + String.length t)).
  by rewrite IH.
Qed.

Lemma append_inj_r (s1 s2 t : string) : s1 +:+ t = s2 +:+ t -> s1 = s2.
Proof.
  revert s2. induction s1 as [|c s1 IH]; intros [|c' s2] H; [done|..].
  - apply (f_equal String.length) in H. rewrite !string_length_append in H.
    cbn [String.length] in H. lia.
  - apply (f_equal String.length) in H. rewrite !string_length_append in H.
    cbn [String.length] in H. lia.
  - cbn in H. injection H as -> H. f_equal. by apply IH.
Qed.

(** The padding written out. *)
Lemma format_02d_cases (i : nat) :
  let s := NilEmpty.string_of_uint (Nat.to_uint i) in
  format_02d i = s /\ 2 <= String.length s
  \/ format_02d i = String "0" s
  \/ format_02d i = String "0" (String "0" s).
Proof.
  unfold format_02d, str_of_nat. cbv zeta.
  destruct (2 - String.length (NilEmpty.string_of_uint (Nat.to_uint i)))
    as [|[|[|k]]] eqn:E; [| | |lia].
  - left. split; [reflexivity | lia].
  - right. left. reflexivity.
  - right. right. reflexivity.
Qed.

(** Read back as a decimal numeral, ['{:0>2d}'.format(i)] is [i]. *)
Lemma format_02d_value (i : nat) :
  Nat.of_uint <$> NilEmpty.uint_of_string (format_02d i) = Some i.
Proof.
  pose proof (NilEmpty.usu (Nat.to_uint i)) as Hs.
  pose proof (Unsigned.of_to i) as Hi.
  destruct (format_02d_cases i) as [[-> _] | [-> | ->]];
    cbn [NilEmpty.uint_of_string]; rewrite Hs; cbn; by rewrite <- Hi at 2.
Qed.

Lemma format_02d_inj (i j : nat) : format_02d i = format_02d j -> i = j.
Proof.
  intros H. pose proof (format_02d_value i) as Hi.
  rewrite H, format_02d_value in Hi. by injection Hi.
Qed.

(** It starts with a digit, so [join] appends it. *)
Lemma format_02d_relative (i : nat) (ext : string) :
  String.prefix "/" (format_02d i +:+ ext) = false.
Proof.
  destruct (format_02d_cases i) as [[-> Hlen] | [-> | ->]]; [|reflexivity..].
  destruct (Nat.to_uint i); cbn in Hlen |- *; first [lia | reflexivity].
Qed.

(** X23. Different indices never share a file: the name
    ['{:0>2d}.png'.format(i)] under the scan directory determines [i], also
    beyond two digits.  So the only files [vis_overlap] writes twice are
    the scan and the alignment of one and the same index. *)
Theorem overlap_png_injective (self : CAPE_utils) (subj seq_name : string) (i j : nat) :
  overlap_png self subj seq_name i = overlap_png self subj seq_name j <-> i = j.
Proof.
  split; [|by intros ->]. unfold overlap_png. cbn [join foldl].
  set (base := join2 (join2 (join2 (dataset_dir self) "scans") subj) seq_name).
  unfold join2. rewrite !format_02d_relative.
  intros H. apply format_02d_inj, (append_inj_r _ _ ".png").
  destruct (bool_decide (base = "") || endswith_sep base).
  - by apply (inj (String.append base)) in H.
  - apply (inj (String.append base)) in H. by apply (inj (String.append "/")) in H.
Qed.
End FileNames.

(** ** Rendering a sequence: when meshes are extracted first *)

Section Rendering.
Import Numpy OS CAPE Observe NumpyFacts Examples.
Implicit Types (self : CAPE_utils) (w : world).

Lemma listdir_cases dir w :
  (exists names, listdir dir w = (Ok names, w) /\ present w dir = true)
  \/ (exists e, listdir dir w = (Raise e, w)).
Proof. unfold listdir, present. destruct (lookup w dir); eauto. Qed.

(** X17. [visualize_sequence] first creates the directory for the video;
    if [os.makedirs] raises, so does the call, with nothing else done.
    Then it looks at the mesh directory only to see whether it has any
    entry.  If it has one, whatever that entry is, no frame is loaded and
    no mesh is extracted: the call is the rendering of what is there.  If
    the directory is absent ([os.path.exists] says no) or empty, the
    sequence is extracted first, and the rendering follows when the
    extraction returns.  If the path is there and listing it raises, as it
    does for a regular file, the call raises that error and nothing is
    rendered. *)
Theorem visualize_sequence_extracts_only_when_empty self (subj seq_name option : string) w :
  (forall e,
     (makedirs (join (dataset_dir self) ["visualization"; subj]) w).1 = Raise e ->
     visualize_sequence self subj seq_name option w = (Raise e, w))
  /\ ((makedirs (join (dataset_dir self) ["visualization"; subj]) w).1 = Ok tt ->
      (forall (n : string) (names : list string),
         (listdir (join (dataset_dir self) ["meshes"; subj; seq_name; option])
            (add_dirs (join (dataset_dir self) ["visualization"; subj]) w)).1
           = Ok (n :: names) ->
         visualize_sequence self subj seq_name option w
         = render_video (join (dataset_dir self) ["meshes"; subj; seq_name; option])
             (join (join (dataset_dir self) ["visualization"; subj])
                [seq_name +:+ "_" +:+ option +:+ ".mp4"])
             (add_dirs (join (dataset_dir self) ["visualization"; subj]) w))
      /\ ((listdir (join (dataset_dir self) ["meshes"; subj; seq_name; option])
             (add_dirs (join (dataset_dir self) ["visualization"; subj]) w)).1 = Ok []
          \/ present (add_dirs (join (dataset_dir self) ["visualization"; subj]) w)
               (join (dataset_dir self) ["meshes"; subj; seq_name; option]) = false ->
          visualize_sequence self subj seq_name option w
          = (extract_mesh_seq self subj seq_name option
             ≫= fun _ =>
                  render_video (join (dataset_dir self) ["meshes"; subj; seq_name; option])
                    (join (join (dataset_dir self) ["visualization"; subj])
                       [seq_name +:+ "_" +:+ option +:+ ".mp4"]))
              (add_dirs (join (dataset_dir self) ["visualization"; subj]) w))
      /\ (forall e,
            present (add_dirs (join (dataset_dir self) ["visualization"; subj]) w)
              (join (dataset_dir self) ["meshes"; subj; seq_name; option]) = true ->
            (listdir (join (dataset_dir self) ["meshes"; subj; seq_name; option])
               (add_dirs (join (dataset_dir self) ["visualization"; subj]) w)).1 = Raise e ->
            visualize_sequence self subj seq_name option w
            = (Raise e, add_dirs (join (dataset_dir self) ["visualization"; subj]) w))).
Proof.
  set (mesh_dir := join (dataset_dir self) ["meshes"; subj; seq_name; option]).
  set (video_savedir := join (dataset_dir self) ["visualization"; subj]).
  set (w1 := add_dirs video_savedir w).
  unfold visualize_sequence. fold mesh_dir video_savedir.
  destruct (makedirs_cases video_savedir w) as [Hmk | (e0 & Hmk & _)]; rewrite Hmk; cbn [fst].
  2: { split; [|done]. intros e [= <-]. by erewrite bind_raise by exact Hmk. }
  split; [done|]. intros _. fold w1.
  erewrite bind_ok by exact Hmk. fold w1.
  erewrite bind_ok by reflexivity.
  split; [|split].
  - intros n names Hls.
    destruct (listdir_cases mesh_dir w1) as [(l & Hl & Hin) | (e & Hl)];
      rewrite Hl in Hls; [|done]. cbn [fst] in Hls. injection Hls as ->.
    rewrite Hin. cbn [negb].
    erewrite bind_ok; [reflexivity|].
    erewrite bind_ok by exact Hl. by rewrite bool_decide_eq_false_2.
  - intros [Hls | Hout].
    + destruct (listdir_cases mesh_dir w1) as [(l & Hl & Hin) | (e & Hl)];
        rewrite Hl in Hls; [|done]. cbn [fst] in Hls. injection Hls as ->.
      rewrite Hin. cbn [negb].
      unfold mbind at 1 3, io_bind at 1 3.
      unfold mbind at 1, io_bind at 1. rewrite Hl.
      rewrite bool_decide_eq_true_2 by done. reflexivity.
    + rewrite Hout. reflexivity.
  - intros e Hin Hls. rewrite Hin. cbn [negb].
    assert (Hl : listdir mesh_dir w1 = (Raise e, w1)).
    { pose proof (listdir_world mesh_dir w1) as Hw.
      destruct (listdir mesh_dir w1) as [r w2]. cbn in *. by subst. }
    erewrite bind_raise; [reflexivity|]. by erewrite bind_raise by exact Hl.
Qed.

(** The example sequence once its posed meshes have been extracted. *)
Lemma visualize_sequence_extracts_only_when_empty_scenario :
  (makedirs (join (dataset_dir self0) ["visualization"; "00032"])
     (extract_mesh_seq self0 "00032" "shortlong_hips" "posed" world0).2).1 = Ok tt
  /\ (listdir (join (dataset_dir self0) ["meshes"; "00032"; "shortlong_hips"; "posed"])
        (add_dirs (join (dataset_dir self0) ["visualization"; "00032"])
           (extract_mesh_seq self0 "00032" "shortlong_hips" "posed" world0).2)).1
     = Ok ["shortlong_hips.000001.obj"; "shortlong_hips.000002.obj"]
  /\ visualize_sequence self0 "00032" "shortlong_hips" "posed"
       (extract_mesh_seq self0 "00032" "shortlong_hips" "posed" world0).2
     = render_video (join (dataset_dir self0) ["meshes"; "00032"; "shortlong_hips"; "posed"])
         (join (join (dataset_dir self0) ["visualization"; "00032"])
            ["shortlong_hips" +:+ "_" +:+ "posed" +:+ ".mp4"])
         (add_dirs (join (dataset_dir self0) ["visualization"; "00032"])
            (extract_mesh_seq self0 "00032" "shortlong_hips" "posed" world0).2)
  /\ (listdir "/data/cape/meshes/00032/shortlong_hips/"
        (extract_mesh_seq self0 "00032" "shortlong_hips" "" world0).2).1
     = Ok ["shortlong_hips.000001.obj"; "shortlong_hips.000002.obj"]
  /\ present (extract_mesh_seq self0 "00032" "shortlong_hips" "" world0).2
       (join (dataset_dir self0) ["meshes"; "00032"; "shortlong_hips"; ""]) = true.
Proof.
  assert (Hmk : (makedirs (join (dataset_dir self0) ["visualization"; "00032"])
                   (extract_mesh_seq self0 "00032" "shortlong_hips" "posed" world0).2).1
                = Ok tt) by (vm_compute; reflexivity).
  assert (Hls : (listdir (join (dataset_dir self0)
                            ["meshes"; "00032"; "shortlong_hips"; "posed"])
                   (add_dirs (join (dataset_dir self0) ["visualization"; "00032"])
                      (extract_mesh_seq self0 "00032" "shortlong_hips" "posed" world0).2)).1
                = Ok ["shortlong_hips.000001.obj"; "shortlong_hips.000002.obj"])
    by (vm_compute; reflexivity).
  split; [exact Hmk|]. split; [exact Hls|]. split.
  - exact (proj1 (proj2 (visualize_sequence_extracts_only_when_empty self0 "00032"
                           "shortlong_hips" "posed"
                           (extract_mesh_seq self0 "00032" "shortlong_hips" "posed" world0).2)
                    Hmk) _ _ Hls).
  - split; vm_compute; reflexivity.
Defined.
End Rendering.

(** ** The demo, and the script entry point *)

Section ReadOnly.
Import Numpy OS CAPE Observe NumpyFacts Examples.
Implicit Types (self : CAPE_utils) (w : world).

Lemma read_only_ret {X} (x : X) : read_only (mret x : io X).
Proof. by intros w. Qed.

Lemma read_only_bind {X Y} (m : io X) (k : X -> io Y) :
  read_only m -> (forall x, read_only (k x)) -> read_only (m ≫= k).
Proof.
  intros Hm Hk w. unfold mbind, io_bind. destruct (Hm w) as (Hf & Hd & Hg & Hs & Hl).
  destruct (m w) as [[x|e] w1]; simpl in *; [|done].
  destruct (Hk x w1) as (Hf' & Hd' & Hg' & Hs' & Hl').
  by rewrite Hf', Hd', Hg', Hs', Hl'.
Qed.

Lemma read_only_lift {X} (r : result X) : read_only (lift r).
Proof. by intros w. Qed.

Lemma read_only_emit (e : event) :
  match e with Written _ _ => False | _ => True end -> read_only (emit e).
Proof. intros He w. simpl. by rewrite writes_snoc_other. Qed.

Lemma read_only_open_read path : read_only (open_read path).
Proof. intros w. unfold open_read. by repeat case_match. Qed.

Lemma read_only_np_load path : read_only (np_load path).
Proof.
  apply read_only_bind; [apply read_only_open_read|].
  intros []; first [apply read_only_ret | by intros w].
Qed.

Lemma read_only_pkl_load path : read_only (pkl_load path).
Proof.
  apply read_only_bind; [apply read_only_open_read|].
  intros []; first [apply read_only_ret | by intros w].
Qed.

Lemma read_only_listdir dir : read_only (listdir dir).
Proof. intros w. unfold listdir. by repeat case_match. Qed.

Lemma read_only_load_global name : read_only (load_global name).
Proof. intros w. unfold load_global. by case_match. Qed.

Lemma read_only_load_single_frame self fn : read_only (load_single_frame self fn).
Proof.
  unfold load_single_frame.
  repeat (apply read_only_bind; [first [apply read_only_np_load | apply read_only_lift]|intros ?]).
  apply read_only_ret.
Qed.

(** X18. [demo] only reads and displays: whatever it returns or raises,
    the files, the directories, the module namespace and standard input
    are as they were, and no write is logged. *)
Theorem demo_writes_nothing self (subj seq_name : string) w :
  files (demo self subj seq_name w).2 = files w
  /\ dirs (demo self subj seq_name w).2 = dirs w
  /\ globals (demo self subj seq_name w).2 = globals w
  /\ stdin (demo self subj seq_name w).2 = stdin w
  /\ writes (log (demo self subj seq_name w).2) = writes (log w).
Proof.
  revert w. change (read_only (demo self subj seq_name)). unfold demo, print, show.
  repeat (apply read_only_bind;
          [first [apply read_only_pkl_load | apply read_only_lift | apply read_only_load_global
                 | apply read_only_np_load | apply read_only_listdir
                 | by apply read_only_emit | apply read_only_load_single_frame]
          |let x := fresh in intros x;
           lazymatch type of x with
           | (_ * _ * _ * _)%type => destruct x as [[[? ?] ?] ?]
           | _ => idtac
           end]).
  by apply read_only_emit.
Qed.

(** *** The demo on a dataset that is there *)

(** X19. With the gender table, the minimal body shape and the sequence
    in place and the module-level [dataset_dir] bound, [demo] takes the
    FIRST entry that [os.listdir] lists, subtracts the minimal shape from
    that frame's canonical vertices, and shows two meshes: the minimal body,
    and the clothed canonical body coloured by the norm of the displacement.
    The posed vertices, the pose and the translation of the frame do not
    enter what is shown. *)
Theorem demo_shows_canonical_displacement self (subj seq_name : string) w
    (genders : gmap string string) (gender d data_choice : string) (others : list string)
    (minimal disps vc : ndarray float) (fr : frame) :
  files w !! join (dataset_dir self) ["misc"; "subj_genders.pkl"] = Some (Pkl genders) ->
  genders !! subj = Some gender ->
  globals w !! "dataset_dir" = Some d ->
  files w !! join d ["minimal_body_shape"; subj; subj +:+ "_minimal.npy"]
    = Some (Npy minimal) ->
  listdir (join d ["sequences"; subj; seq_name]) w = (Ok (data_choice :: others), w) ->
  frame_at w (join (join d ["sequences"; subj; seq_name]) [data_choice]) fr ->
  calc_clo_disp self fr.1.1.1 minimal = Ok disps ->
  linalg_norm_last_axis disps = Ok vc ->
  (demo self subj seq_name w).1 = Ok tt
  /\ log (demo self subj seq_name w).2
     = log w ++ [Printed rule;
                 Printed ("Visualizing: " +:+ subj +:+ ", " +:+ data_choice +:+ nl);
                 Printed "On screen: minimally clothed body in canonical pose VS. clothed body in canonical pose, color encoded by the norm of clothing displacements.";
                 Printed rule;
                 Shown (0, 0) [Mesh minimal (faces self) None];
                 Shown (0, 1) [Mesh fr.1.1.1 (faces self) (Some (FromWeights vc))]].
Proof.
  intros Hf Hg Hd Hmin Hls Hfr Hdisp Hnorm.
  assert (Hrun : demo self subj seq_name w
    = (Ok tt, World (files w) (dirs w) (globals w) (stdin w) (permutation w)
                (log w ++ [Printed rule;
                   Printed ("Visualizing: " +:+ subj +:+ ", " +:+ data_choice +:+ nl);
                   Printed "On screen: minimally clothed body in canonical pose VS. clothed body in canonical pose, color encoded by the norm of clothing displacements.";
                   Printed rule;
                   Shown (0, 0) [Mesh minimal (faces self) None];
                   Shown (0, 1) [Mesh fr.1.1.1 (faces self) (Some (FromWeights vc))]]))).
  { unfold demo.
    erewrite bind_ok by (by apply pkl_load_ok). rewrite Hg.
    erewrite bind_ok by reflexivity.
    erewrite bind_ok by (by apply load_global_ok).
    erewrite bind_ok by (by apply np_load_npy).
    erewrite bind_ok by (by apply load_global_ok).
    erewrite bind_ok by exact Hls.
    erewrite bind_ok by reflexivity.
    do 2 (erewrite bind_ok by reflexivity).
    erewrite bind_ok by (apply load_single_frame_ok; exact Hfr).
    destruct fr as [[[clo_cano clo_posed] pose] transl]. cbn [fst snd] in *.
    erewrite bind_ok by reflexivity. rewrite Hdisp.
    erewrite bind_ok by reflexivity.
    do 2 (erewrite bind_ok by reflexivity). rewrite Hnorm.
    erewrite bind_ok by reflexivity.
    erewrite bind_ok by reflexivity.
    unfold show, emit. cbn [files dirs globals stdin permutation log].
    by rewrite <- !(assoc_L (++)). }
  by rewrite Hrun.
Qed.

Lemma demo_shows_canonical_displacement_scenario :
  globals world_script !! "dataset_dir" = Some "/data/cape"
  /\ listdir (join "/data/cape" ["sequences"; "00032"; "shortlong_hips"]) world_script
     = (Ok ["shortlong_hips.000001.npz"; "shortlong_hips.000002.npz"], world_script)
  /\ calc_clo_disp self0 v_cano_f minimal_f = Ok v_cano_f
  /\ linalg_norm_last_axis v_cano_f = Ok (NDArray [2] [1; 1]%float)
  /\ (demo self0 "00032" "shortlong_hips" world_script).1 = Ok tt
  /\ log (demo self0 "00032" "shortlong_hips" world_script).2
     = log world_script
       ++ [Printed rule;
           Printed ("Visualizing: " +:+ "00032" +:+ ", " +:+ "shortlong_hips.000001.npz" +:+ nl);
           Printed "On screen: minimally clothed body in canonical pose VS. clothed body in canonical pose, color encoded by the norm of clothing displacements.";
           Printed rule;
           Shown (0, 0) [Mesh minimal_f (faces self0) None];
           Shown (0, 1) [Mesh v_cano_f (faces self0)
                           (Some (FromWeights (NDArray [2] [1; 1]%float)))]].
Proof.
  assert (Hls : listdir (join "/data/cape" ["sequences"; "00032"; "shortlong_hips"]) world_script
     = (Ok ["shortlong_hips.000001.npz"; "shortlong_hips.000002.npz"], world_script))
    by (vm_compute; reflexivity).
  assert (Hfr : frame_at world_script
            (join (join "/data/cape" ["sequences"; "00032"; "shortlong_hips"])
               ["shortlong_hips.000001.npz"]) (v_cano_f, posed_f, pose_f, transl_f)).
  { exists frame_entries. repeat split; vm_compute; reflexivity. }
  assert (Hf : files world_script !! join (dataset_dir self0) ["misc"; "subj_genders.pkl"]
                = Some (Pkl (<["00032" := "male"]> ∅))) by (vm_compute; reflexivity).
  assert (Hg : (<["00032" := "male"]> ∅ : gmap string string) !! "00032" = Some "male")
    by (vm_compute; reflexivity).
  assert (Hd : globals world_script !! "dataset_dir" = Some "/data/cape")
    by (vm_compute; reflexivity).
  assert (Hmin : files world_script
                   !! join "/data/cape" ["minimal_body_shape"; "00032"; "00032" +:+ "_minimal.npy"]
                 = Some (Npy minimal_f)) by (vm_compute; reflexivity).
  assert (Hdisp : calc_clo_disp self0 v_cano_f minimal_f = Ok v_cano_f)
    by (vm_compute; reflexivity).
  assert (Hnorm : linalg_norm_last_axis v_cano_f = Ok (NDArray [2] [1; 1]%float))
    by (vm_compute; reflexivity).
  do 4 (split; [assumption|]).
  exact (demo_shows_canonical_displacement self0 "00032" "shortlong_hips" world_script
           (<["00032" := "male"]> ∅) "male" "/data/cape" "shortlong_hips.000001.npz"
           ["shortlong_hips.000002.npz"] minimal_f v_cano_f (NDArray [2] [1; 1]%float)
           (v_cano_f, posed_f, pose_f, transl_f)
           Hf Hg Hd Hmin Hls Hfr Hdisp Hnorm).
Defined.




End ReadOnly.

(** ** Names: what the script entry point guarantees *)

Section Names.
Import Numpy OS CAPE Observe NumpyFacts Examples.
Implicit Types (self : CAPE_utils) (w : world) (g : gmap string string).

(** X21. Run through the script entry point without [--vis_seq], no
    action raises [NameError]: the entry point binds the module-level
    [dataset_dir] before it calls any method, and no method unbinds it.
    ([--vis_seq] hands over to [render_video], which is outside the source
    file.) *)
Theorem main_raises_no_NameError (a : args) w :
  arg_vis_seq a = false ->
  (forall name, (main a w).1 <> Raise (NameError name))
  /\ is_Some (globals (main a w).2 !! "dataset_dir").
Proof.
  intros Hvis.
  assert (Hrun : forall {X} (m : io X) w1,
             is_Some (globals w1 !! "dataset_dir") ->
             binds_its_names (globals w1) m ->
             (forall name, (m w1).1 <> Raise (NameError name))
             /\ is_Some (globals (m w1).2 !! "dataset_dir")).
  { intros X m w1 Hd Hm. destruct (Hm w1 eq_refl) as [Hg Hn]. by rewrite Hg. }
  assert (Hrest : forall g, is_Some (g !! "dataset_dir") -> forall k : string -> io unit,
             (forall d, binds_its_names g (k d)) ->
             binds_its_names g (load_global "dataset_dir" ≫= k)).
  { intros g Hg k Hk. apply binds_bind; [by apply binds_load_global | done]. }
  unfold main. rewrite Hvis.
  case_bool_decide.
  - erewrite bind_ok by reflexivity.
    apply Hrun; [cbn; by rewrite lookup_insert_eq|].
    apply Hrest; [cbn; by rewrite lookup_insert_eq|]. intros d.
    apply binds_bind; [unfold __init__; apply binds_bind; [apply binds_np_load|];
                       intros ?; apply binds_ret|]. intros cape.
    apply binds_bind; [apply binds_ret|]. intros _.
    apply binds_bind; [unfold when; case_match;
                       [apply binds_extract_mesh_seq | apply binds_ret]|]. intros _.
    apply binds_bind; [unfold when; case_match;
                       [apply binds_demo; cbn; by rewrite lookup_insert_eq
                       | apply binds_ret]|].
    intros _. unfold when. case_match; [apply binds_vis_overlap | apply binds_ret].
  - erewrite bind_ok by reflexivity.
    apply Hrun; [cbn; by rewrite lookup_insert_eq|].
    apply Hrest; [cbn; by rewrite lookup_insert_eq|]. intros d.
    apply binds_bind; [unfold __init__; apply binds_bind; [apply binds_np_load|];
                       intros ?; apply binds_ret|]. intros cape.
    apply binds_bind; [apply binds_ret|]. intros _.
    apply binds_bind; [unfold when; case_match;
                       [apply binds_extract_mesh_seq | apply binds_ret]|]. intros _.
    apply binds_bind; [unfold when; case_match;
                       [apply binds_demo; cbn; by rewrite lookup_insert_eq
                       | apply binds_ret]|].
    intros _. unfold when. case_match; [apply binds_vis_overlap | apply binds_ret].
Qed.

Lemma main_raises_no_NameError_scenario :
  arg_vis_seq demo_args = false
  /\ (main demo_args world0).1 = Ok tt
  /\ (forall name, (main demo_args world0).1 <> Raise (NameError name))
  /\ is_Some (globals (main demo_args world0).2 !! "dataset_dir").
Proof.
  assert (Hv : arg_vis_seq demo_args = false) by reflexivity.
  split; [exact Hv|]. split; [vm_compute; reflexivity|].
  exact (main_raises_no_NameError demo_args world0 Hv).
Defined.



End Names.

